(** * Recordly: the recording engine (src/recorder.js) and the
      accelerated compositor (src/compositor.worker.js)

    A shallow embedding of the [Recorder] class and of the worker's
    compose loop, with the properties of the pipeline stated over it.

    Conventions of the embedding.
    - JavaScript statements that read or write [this] or call into the
      browser are computations in the monad [M]: a state transformer
      that either completes normally or throws; [tryCatch] is the
      JavaScript [try { } catch { }].
    - The browser is the [Host] part of the state: which tracks are
      live, which workers were terminated, which audio contexts were
      closed.  Media tracks are shared between streams, so streams hold
      track identities and the readiness of a track lives in the host.
    - What the browser answers (a granted stream, a supported codec, a
      worker message) is an [Env] argument or an explicit event.
    - An [async] function is run to completion: every [await] is
      taken to settle, and no other task runs in between unless a
      definition says so.
    - A listener acts on the state of the application that registered
      it, and may throw; it does not call back into the recorder.
    - [console] output and [performance] marks are not modelled. *)

From Stdlib Require Import Strings.Byte QArith Qcanon Qround.
From stdpp Require Import base option list gmap strings numbers pretty.

#[local] Set Warnings "-clear-no-such-hyp".


(** ** Values *)

Record JsError := { message : string }.

Inductive Completion (A : Type) : Type :=
| Normal (a : A)
| Throw (e : JsError).
Arguments Normal {A} a.
Arguments Throw {A} e.

Inductive TrackKind := video | audio.

#[export] Instance TrackKind_eq_dec : EqDecision TrackKind.
Proof. solve_decision. Defined.

(** A [MediaStreamTrack]: its identity and [kind]. *)
Record Track := { track_id : nat; kind : TrackKind }.

(** A [MediaStream], as the list [getTracks()] returns. *)
Abbreviation MediaStream := (list Track).

(** A [Blob]: an opaque byte range with a MIME type. *)
Record Blob := { blob_bytes : list byte; blob_type : string }.

Definition blob_size (b : Blob) : nat := length (blob_bytes b).

(** [new Blob(parts, { type })] *)
Definition new_Blob (parts : list Blob) (type : string) : Blob :=
  {| blob_bytes := concat (map blob_bytes parts); blob_type := type |}.

(** What [emit] hands to a listener: a chunk or an [Error]. *)
Inductive Data :=
| DBlob (b : Blob)
| DError (e : JsError).

(** [MediaRecorder.state] *)
Inductive RecordingState := inactive | recording | paused.

Record MediaRecorder := {
  state : RecordingState;
  mimeType : string;
  mr_stream : MediaStream;
  videoBitsPerSecond : Z;
  audioBitsPerSecond : Z;
  timeslice : option nat
}.

Definition mr_with_state (st : RecordingState) (mr : MediaRecorder) : MediaRecorder :=
  {| state := st; mimeType := mimeType mr; mr_stream := mr_stream mr;
     videoBitsPerSecond := videoBitsPerSecond mr;
     audioBitsPerSecond := audioBitsPerSecond mr;
     timeslice := timeslice mr |}.

Definition InvalidStateError : JsError := {| message := "InvalidStateError" |}.

(** What reading a property of [null] or [undefined] throws. *)
Definition TypeError : JsError := {| message := "TypeError" |}.

(** The MediaRecorder methods, as the MediaStream Recording API
    defines them on the recorder's [state]. *)
Definition MediaRecorder_start (ts : nat) (mr : MediaRecorder) : Completion MediaRecorder :=
  match state mr with
  | inactive =>
      Normal {| state := recording; mimeType := mimeType mr; mr_stream := mr_stream mr;
                videoBitsPerSecond := videoBitsPerSecond mr;
                audioBitsPerSecond := audioBitsPerSecond mr;
                timeslice := Some ts |}
  | _ => Throw InvalidStateError
  end.

Definition MediaRecorder_pause (mr : MediaRecorder) : Completion MediaRecorder :=
  match state mr with
  | inactive => Throw InvalidStateError
  | paused => Normal mr
  | recording => Normal (mr_with_state paused mr)
  end.

Definition MediaRecorder_resume (mr : MediaRecorder) : Completion MediaRecorder :=
  match state mr with
  | inactive => Throw InvalidStateError
  | recording => Normal mr
  | paused => Normal (mr_with_state recording mr)
  end.

Definition MediaRecorder_stop (mr : MediaRecorder) : Completion MediaRecorder :=
  match state mr with
  | inactive => Throw InvalidStateError
  | _ => Normal (mr_with_state inactive mr)
  end.

(** [this.streams] *)
Record Streams := {
  screen : option MediaStream;
  webcam : option MediaStream;
  combined : option MediaStream
}.

Definition no_streams : Streams :=
  {| screen := None; webcam := None; combined := None |}.

(** [Object.values(this.streams)] *)
Definition Streams_values (s : Streams) : list (option MediaStream) :=
  [screen s; webcam s; combined s].

Record Capabilities := { webCodecs : bool; offscreenCanvas : bool }.

(** The [<canvas>] of the software compositor. *)
Record Canvas := { canvas_width : Z; canvas_height : Z }.

(** [config], as [start] receives it. *)
Record VideoConfig := { width : Z; height : Z; frameRate : Z }.
Record AudioConfig := { system : bool; mic : bool }.
Record Bitrate := { bitrate_video : Z; bitrate_audio : Z }.
Record Config := {
  mode : string;
  cfg_video : VideoConfig;
  cfg_audio : AudioConfig;
  deviceId : string;
  bitrate : Bitrate
}.

(** Outcome of the promise built by [createCombinedStreamWebCodecs]. *)
Inductive PromiseState := Pending | Fulfilled | Rejected (e : JsError).

(** ** What the browser answers during one [start]

    Each field is the outcome of one browser call of the source. *)

Record DisplayConstraints := {
  dc_width : Z; dc_height : Z; dc_frameRate : Z; dc_audio : bool
}.

Record UserConstraints := {
  uc_width : Z; uc_height : Z; uc_frameRate : Z;
  uc_deviceId : option string; uc_audio : bool
}.

Record Env := {
  getDisplayMedia : DisplayConstraints -> Completion MediaStream;
  getUserMedia : UserConstraints -> Completion MediaStream;
  isTypeSupported : string -> bool;
  (* new Worker("./compositor.worker.js") *)
  new_Worker : Completion nat;
  (* new MediaStreamTrackProcessor / MediaStreamTrackGenerator *)
  new_Processors : Completion unit;
  generator : Track;
  (* new AudioContext(), then the mixing graph and its output tracks *)
  new_AudioContext : Completion nat;
  mixed_tracks : Completion (list Track);
  (* canvas context, the two <video> elements and their metadata *)
  canvas_ready : Completion unit;
  captureStream : Z -> MediaStream
}.

(** What the worker does after [init]. *)
Inductive WorkerReply := Ready | Failed (data : string) | Silent.

Definition getVideoTracks (st : MediaStream) : list Track :=
  filter (fun t => kind t = video) st.

Definition getAudioTracks (st : MediaStream) : list Track :=
  filter (fun t => kind t = audio) st.

Section Model.

(** The state of the application that registers listeners. *)
Context {L : Type}.

(** A listener: a JavaScript function with an identity, which changes
    the application's state and may throw. *)
Record Callback := {
  cb_id : nat;
  cb_run : Data -> L -> Completion unit * L
}.

(** The fields of [Recorder], as the constructor declares them. *)
Record Recorder := {
  mediaRecorder : option MediaRecorder;
  chunks : list Blob;
  streams : Streams;
  capabilities : Capabilities;
  eventListeners : gmap string (list Callback);
  worker : option nat;
  canvas : option Canvas;
  canvasStream : option MediaStream;
  audioContext : option nat;
  isRecording : bool;
  maxChunks : nat
}.

(** The browser side. *)
Record Host := {
  live : gset nat;            (* tracks whose readyState is "live" *)
  stopCalls : list nat;       (* every track.stop(), in call order *)
  released : list nat;        (* tracks whose source was told they ended *)
  terminated : list nat;      (* worker.terminate() calls *)
  audioClosed : list nat;     (* audio contexts that were closed *)
  timers : list nat;          (* delays of the timers set, in ms *)
  acquisition : PromiseState; (* the combined-stream promise *)
  invoked : list (nat * Data);      (* listener calls: who, with what *)
  emitted : list (string * Data);   (* emit calls *)
  app : L
}.

Record State := { this : Recorder; host : Host }.

Definition M (A : Type) : Type := State -> Completion A * State.

#[export] Instance M_ret : MRet M := fun A a s => (Normal a, s).

#[export] Instance M_bind : MBind M := fun A B f m s =>
  match m s with
  | (Normal a, s') => f a s'
  | (Throw e, s') => (Throw e, s')
  end.

Definition throw {A} (e : JsError) : M A := fun s => (Throw e, s).

Definition throw_Error {A} (msg : string) : M A := throw {| message := msg |}.

(** [try { body } catch (e) { handler e }] *)
Definition tryCatch {A} (body : M A) (handler : JsError -> M A) : M A := fun s =>
  match body s with
  | (Normal a, s') => (Normal a, s')
  | (Throw e, s') => handler e s'
  end.

Definition lift {A} (c : Completion A) : M A := fun s => (c, s).

Definition get_this : M Recorder := fun s => (Normal (this s), s).
Definition get_host : M Host := fun s => (Normal (host s), s).

Definition modify_this (f : Recorder -> Recorder) : M unit := fun s =>
  (Normal tt, {| this := f (this s); host := host s |}).

Definition modify_host (f : Host -> Host) : M unit := fun s =>
  (Normal tt, {| this := this s; host := f (host s) |}).

(** [xs.forEach(f)]: an exception thrown by [f] ends the iteration. *)
Fixpoint forEach {X} (xs : list X) (f : X -> M unit) : M unit :=
  match xs with
  | [] => mret tt
  | x :: rest => f x ;; forEach rest f
  end.

(** Field assignments [this.f = v]. *)
Definition set_mediaRecorder (v : option MediaRecorder) (r : Recorder) : Recorder :=
  {| mediaRecorder := v; chunks := chunks r; streams := streams r;
     capabilities := capabilities r; eventListeners := eventListeners r;
     worker := worker r; canvas := canvas r; canvasStream := canvasStream r;
     audioContext := audioContext r; isRecording := isRecording r;
     maxChunks := maxChunks r |}.

Definition set_chunks (v : list Blob) (r : Recorder) : Recorder :=
  {| mediaRecorder := mediaRecorder r; chunks := v; streams := streams r;
     capabilities := capabilities r; eventListeners := eventListeners r;
     worker := worker r; canvas := canvas r; canvasStream := canvasStream r;
     audioContext := audioContext r; isRecording := isRecording r;
     maxChunks := maxChunks r |}.

Definition set_streams (v : Streams) (r : Recorder) : Recorder :=
  {| mediaRecorder := mediaRecorder r; chunks := chunks r; streams := v;
     capabilities := capabilities r; eventListeners := eventListeners r;
     worker := worker r; canvas := canvas r; canvasStream := canvasStream r;
     audioContext := audioContext r; isRecording := isRecording r;
     maxChunks := maxChunks r |}.

Definition set_capabilities (v : Capabilities) (r : Recorder) : Recorder :=
  {| mediaRecorder := mediaRecorder r; chunks := chunks r; streams := streams r;
     capabilities := v; eventListeners := eventListeners r;
     worker := worker r; canvas := canvas r; canvasStream := canvasStream r;
     audioContext := audioContext r; isRecording := isRecording r;
     maxChunks := maxChunks r |}.

Definition set_eventListeners (v : gmap string (list Callback)) (r : Recorder) : Recorder :=
  {| mediaRecorder := mediaRecorder r; chunks := chunks r; streams := streams r;
     capabilities := capabilities r; eventListeners := v;
     worker := worker r; canvas := canvas r; canvasStream := canvasStream r;
     audioContext := audioContext r; isRecording := isRecording r;
     maxChunks := maxChunks r |}.

Definition set_worker (v : option nat) (r : Recorder) : Recorder :=
  {| mediaRecorder := mediaRecorder r; chunks := chunks r; streams := streams r;
     capabilities := capabilities r; eventListeners := eventListeners r;
     worker := v; canvas := canvas r; canvasStream := canvasStream r;
     audioContext := audioContext r; isRecording := isRecording r;
     maxChunks := maxChunks r |}.

Definition set_canvas (v : option Canvas) (r : Recorder) : Recorder :=
  {| mediaRecorder := mediaRecorder r; chunks := chunks r; streams := streams r;
     capabilities := capabilities r; eventListeners := eventListeners r;
     worker := worker r; canvas := v; canvasStream := canvasStream r;
     audioContext := audioContext r; isRecording := isRecording r;
     maxChunks := maxChunks r |}.

Definition set_canvasStream (v : option MediaStream) (r : Recorder) : Recorder :=
  {| mediaRecorder := mediaRecorder r; chunks := chunks r; streams := streams r;
     capabilities := capabilities r; eventListeners := eventListeners r;
     worker := worker r; canvas := canvas r; canvasStream := v;
     audioContext := audioContext r; isRecording := isRecording r;
     maxChunks := maxChunks r |}.

Definition set_audioContext (v : option nat) (r : Recorder) : Recorder :=
  {| mediaRecorder := mediaRecorder r; chunks := chunks r; streams := streams r;
     capabilities := capabilities r; eventListeners := eventListeners r;
     worker := worker r; canvas := canvas r; canvasStream := canvasStream r;
     audioContext := v; isRecording := isRecording r;
     maxChunks := maxChunks r |}.

Definition set_isRecording (v : bool) (r : Recorder) : Recorder :=
  {| mediaRecorder := mediaRecorder r; chunks := chunks r; streams := streams r;
     capabilities := capabilities r; eventListeners := eventListeners r;
     worker := worker r; canvas := canvas r; canvasStream := canvasStream r;
     audioContext := audioContext r; isRecording := v;
     maxChunks := maxChunks r |}.

Definition set_screen (v : option MediaStream) (s : Streams) : Streams :=
  {| screen := v; webcam := webcam s; combined := combined s |}.
Definition set_webcam (v : option MediaStream) (s : Streams) : Streams :=
  {| screen := screen s; webcam := v; combined := combined s |}.
Definition set_combined (v : option MediaStream) (s : Streams) : Streams :=
  {| screen := screen s; webcam := webcam s; combined := v |}.

(** Host updates. *)
Definition set_tracks (lv : gset nat) (calls rel : list nat) (h : Host) : Host :=
  {| live := lv; stopCalls := calls; released := rel;
     terminated := terminated h; audioClosed := audioClosed h; timers := timers h;
     acquisition := acquisition h; invoked := invoked h; emitted := emitted h;
     app := app h |}.

Definition set_terminated (v : list nat) (h : Host) : Host :=
  {| live := live h; stopCalls := stopCalls h; released := released h;
     terminated := v; audioClosed := audioClosed h; timers := timers h;
     acquisition := acquisition h; invoked := invoked h; emitted := emitted h;
     app := app h |}.

Definition set_audioClosed (v : list nat) (h : Host) : Host :=
  {| live := live h; stopCalls := stopCalls h; released := released h;
     terminated := terminated h; audioClosed := v; timers := timers h;
     acquisition := acquisition h; invoked := invoked h; emitted := emitted h;
     app := app h |}.

Definition set_timers (v : list nat) (h : Host) : Host :=
  {| live := live h; stopCalls := stopCalls h; released := released h;
     terminated := terminated h; audioClosed := audioClosed h; timers := v;
     acquisition := acquisition h; invoked := invoked h; emitted := emitted h;
     app := app h |}.

Definition set_acquisition (v : PromiseState) (h : Host) : Host :=
  {| live := live h; stopCalls := stopCalls h; released := released h;
     terminated := terminated h; audioClosed := audioClosed h; timers := timers h;
     acquisition := v; invoked := invoked h; emitted := emitted h;
     app := app h |}.

Definition set_invoked (v : list (nat * Data)) (a : L) (h : Host) : Host :=
  {| live := live h; stopCalls := stopCalls h; released := released h;
     terminated := terminated h; audioClosed := audioClosed h; timers := timers h;
     acquisition := acquisition h; invoked := v; emitted := emitted h;
     app := a |}.

Definition set_emitted (v : list (string * Data)) (h : Host) : Host :=
  {| live := live h; stopCalls := stopCalls h; released := released h;
     terminated := terminated h; audioClosed := audioClosed h; timers := timers h;
     acquisition := acquisition h; invoked := invoked h; emitted := v;
     app := app h |}.

(** ** The constructor *)

Definition constructor : Recorder :=
  {| mediaRecorder := None;
     chunks := [];
     streams := no_streams;
     capabilities := {| webCodecs := false; offscreenCanvas := false |};
     eventListeners := ∅;
     worker := None;
     canvas := None;
     canvasStream := None;
     audioContext := None;
     isRecording := false;
     maxChunks := 1000 |}.

(** [setCapabilities(capabilities)] *)
Definition setCapabilities (capabilities : Capabilities) : M unit :=
  modify_this (set_capabilities capabilities).

(** ** Listeners: [on] and [emit] *)

(** [on(event, callback)] *)
Definition on (event : string) (callback : Callback) : M unit :=
  r ← get_this;
  (if bool_decide (is_Some (eventListeners r !! event)) then mret tt
   else modify_this (fun r => set_eventListeners (<[event := []]> (eventListeners r)) r)) ;;
  modify_this (fun r =>
    set_eventListeners
      (alter (fun cbs => cbs ++ [callback]) event (eventListeners r)) r).

(** Calling a listener: the call is recorded, the listener runs on the
    application's state, and what it throws is thrown to the caller. *)
Definition call (callback : Callback) (data : Data) : M unit := fun s =>
  let '(c, a) := cb_run callback data (app (host s)) in
  (c, {| this := this s;
         host := set_invoked (invoked (host s) ++ [(cb_id callback, data)]) a (host s) |}).

(** [emit(event, data)] *)
Definition emit (event : string) (data : Data) : M unit :=
  modify_host (fun h => set_emitted (emitted h ++ [(event, data)]) h) ;;
  r ← get_this;
  match eventListeners r !! event with
  | Some listeners =>
      forEach listeners (fun callback =>
        tryCatch (call callback data) (fun error => mret tt))
  | None => mret tt
  end.

(** ** The chunk queue: [mediaRecorder.ondataavailable]

    The event's [data] may be missing; [shift] on an empty array does
    nothing. *)
Definition ondataavailable (e_data : option Blob) : M unit :=
  match e_data with
  | Some data =>
      if bool_decide (0 < blob_size data) then
        r ← get_this;
        (if bool_decide (maxChunks r <= length (chunks r)) then
           modify_this (fun r => set_chunks (tail (chunks r)) r)
         else mret tt) ;;
        modify_this (fun r => set_chunks (chunks r ++ [data]) r) ;;
        emit "dataavailable" (DBlob data)
      else mret tt
  | None => mret tt
  end.

(** ** [pause] and [resume] *)

Definition pause : M unit :=
  r ← get_this;
  match mediaRecorder r with
  | Some mr =>
      match state mr with
      | recording =>
          mr' ← lift (MediaRecorder_pause mr);
          modify_this (set_mediaRecorder (Some mr'))
      | _ => mret tt
      end
  | None => mret tt
  end.

Definition resume : M unit :=
  r ← get_this;
  match mediaRecorder r with
  | Some mr =>
      match state mr with
      | paused =>
          mr' ← lift (MediaRecorder_resume mr);
          modify_this (set_mediaRecorder (Some mr'))
      | _ => mret tt
      end
  | None => mret tt
  end.

(** ** Teardown *)

(** [track.stop()]: on a track that already ended it does nothing;
    otherwise the source is notified and the track ends. *)
Definition Track_stopped (h : Host) (t : Track) : Host :=
  if bool_decide (track_id t ∈ live h) then
    set_tracks (live h ∖ {[track_id t]}) (stopCalls h ++ [track_id t])
               (released h ++ [track_id t]) h
  else
    set_tracks (live h) (stopCalls h ++ [track_id t]) (released h) h.

Definition Track_stop (t : Track) : M unit :=
  modify_host (fun h => Track_stopped h t).

(** [audioContext.close()]: rejects on a context already closed. *)
Definition AudioContext_close (ctx : nat) : M unit :=
  h ← get_host;
  if bool_decide (ctx ∈ audioClosed h) then throw InvalidStateError
  else modify_host (fun h => set_audioClosed (audioClosed h ++ [ctx]) h).

(** [worker.terminate()] *)
Definition Worker_terminate (w : nat) : M unit :=
  modify_host (fun h => set_terminated (terminated h ++ [w]) h).

Definition is_active (st : RecordingState) : bool :=
  match st with
  | recording | paused => true
  | inactive => false
  end.

(** The blocks of [cleanup()], under the comments that head them in
    the source. *)

(** [// Stop MediaRecorder] *)
Definition cleanup_mediaRecorder : M unit :=
  r ← get_this;
  match mediaRecorder r with
  | Some mr =>
      if is_active (state mr) then
        mr' ← lift (MediaRecorder_stop mr);
        modify_this (set_mediaRecorder (Some mr'))
      else mret tt
  | None => mret tt
  end ;;
  modify_this (set_mediaRecorder None).

(** [// Stop all tracks] and [// Cleanup streams] *)
Definition cleanup_streams : M unit :=
  r ← get_this;
  forEach (Streams_values (streams r)) (fun stream =>
    match stream with
    | Some st => forEach st Track_stop
    | None => mret tt
    end) ;;
  modify_this (set_streams no_streams).

(** [// Cleanup canvas stream] *)
Definition cleanup_canvasStream : M unit :=
  r ← get_this;
  match canvasStream r with
  | Some cs => forEach cs Track_stop ;; modify_this (set_canvasStream None)
  | None => mret tt
  end.

(** [// Cleanup audio context] *)
Definition cleanup_audioContext : M unit :=
  r ← get_this;
  match audioContext r with
  | Some ctx =>
      tryCatch (AudioContext_close ctx) (fun error => mret tt) ;;
      modify_this (set_audioContext None)
  | None => mret tt
  end.

(** [// Cleanup worker] *)
Definition cleanup_worker : M unit :=
  r ← get_this;
  match worker r with
  | Some w => Worker_terminate w ;; modify_this (set_worker None)
  | None => mret tt
  end.

(** [// Cleanup canvas] *)
Definition cleanup_canvas : M unit :=
  r ← get_this;
  match canvas r with
  | Some _ => modify_this (set_canvas None)
  | None => mret tt
  end.

(** [cleanup()], awaited. *)
Definition cleanup : M unit :=
  modify_this (set_isRecording false) ;;
  cleanup_mediaRecorder ;;
  cleanup_streams ;;
  cleanup_canvasStream ;;
  cleanup_audioContext ;;
  cleanup_worker ;;
  cleanup_canvas ;;
  modify_this (set_chunks []).

(** The part of [cleanup()] that runs before the call returns to its
    caller: all of it when there is no audio context, otherwise up to
    [await this.audioContext.close()], the context being told to
    close.  The result says whether the call is suspended there. *)
Definition cleanup_to_await : M bool :=
  modify_this (set_isRecording false) ;;
  cleanup_mediaRecorder ;;
  cleanup_streams ;;
  cleanup_canvasStream ;;
  r ← get_this;
  match audioContext r with
  | Some ctx =>
      tryCatch (AudioContext_close ctx) (fun error => mret tt) ;;
      mret true
  | None =>
      cleanup_worker ;;
      cleanup_canvas ;;
      modify_this (set_chunks []) ;;
      mret false
  end.

(** The rest of a suspended [cleanup()], run once the [await] settled. *)
Definition cleanup_from_await : M unit :=
  modify_this (set_audioContext None) ;;
  cleanup_worker ;;
  cleanup_canvas ;;
  modify_this (set_chunks []).

(** [cleanup(); cleanup();] with neither call awaited: the second
    call starts while the first is suspended. *)
Definition cleanup_twice_unawaited : M unit :=
  first ← cleanup_to_await;
  second ← cleanup_to_await;
  (if first : bool then cleanup_from_await else mret tt) ;;
  (if second : bool then cleanup_from_await else mret tt).

(** An [async] call whose promise is dropped: what it rejects with is
    not thrown to the caller. *)
Definition detached (m : M unit) : M unit := tryCatch m (fun error => mret tt).

(** ** [stop] *)

(** [handleStop], the listener of the recorder's [stop] event; its
    result is what the promise of [stop] settles with. *)
Definition handleStop : M (option Blob) :=
  tryCatch
    (r ← get_this;
     match mediaRecorder r with
     | Some mr =>
         let blob :=
           new_Blob (chunks r)
             (if String.eqb (mimeType mr) "" then "video/webm" else mimeType mr) in
         detached cleanup ;;
         mret (Some blob)
     | None => throw TypeError
     end)
    (fun error => detached cleanup ;; throw error).

(** [stop()].  When the recorder is active, [mediaRecorder.stop()]
    makes the browser deliver the data gathered since the last flush
    ([final]) as a last [dataavailable] event and then fire [stop]. *)
Definition stop (final : option Blob) : M (option Blob) :=
  r ← get_this;
  match mediaRecorder r with
  | None => mret None
  | Some mr =>
      if is_active (state mr) then
        mr' ← lift (MediaRecorder_stop mr);
        modify_this (set_mediaRecorder (Some mr')) ;;
        ondataavailable final ;;
        handleStop
      else handleStop
  end.

(** ** Building the combined stream *)

(** A granted stream: its tracks are live. *)
Definition acquire (st : MediaStream) : M unit :=
  modify_host (fun h =>
    set_tracks (live h ∪ list_to_set (map track_id st)) (stopCalls h) (released h) h).

Definition resolve : M unit :=
  modify_host (fun h =>
    match acquisition h with
    | Pending => set_acquisition Fulfilled h
    | _ => h
    end).

Definition reject (e : JsError) : M unit :=
  modify_host (fun h =>
    match acquisition h with
    | Pending => set_acquisition (Rejected e) h
    | _ => h
    end).

(** The audio tracks both mixers collect. *)
Definition collect_audio (config : Config) (r : Recorder) : list Track :=
  (if mic (cfg_audio config) then
     match webcam (streams r) with Some st => getAudioTracks st | None => [] end
   else []) ++
  (if system (cfg_audio config) then
     match screen (streams r) with Some st => getAudioTracks st | None => [] end
   else []).

(** [this.canvasStream.getVideoTracks()] *)
Definition canvasStream_getVideoTracks : M (list Track) :=
  r ← get_this;
  match canvasStream r with
  | Some cs => mret (getVideoTracks cs)
  | None => throw TypeError
  end.

(** [combineAudioTracks(config)] *)
Definition combineAudioTracks (env : Env) (config : Config) : M unit :=
  r ← get_this;
  let audioTracks := collect_audio config r in
  match audioTracks with
  | [] =>
      modify_this (fun r => set_streams (set_combined (canvasStream r) (streams r)) r)
  | _ =>
      tryCatch
        (ctx ← lift (new_AudioContext env);
         modify_this (set_audioContext (Some ctx)) ;;
         out ← lift (mixed_tracks env);
         acquire out ;;
         videoTracks ← canvasStream_getVideoTracks;
         modify_this (fun r =>
           set_streams (set_combined (Some (videoTracks ++ getAudioTracks out))
                                     (streams r)) r))
        (fun error =>
           videoTracks ← canvasStream_getVideoTracks;
           modify_this (fun r =>
             set_streams (set_combined (Some (videoTracks ++ take 1 audioTracks))
                                       (streams r)) r))
  end.

(** [combineAudioWithVideoTrack(videoTrackOrGen, config)] *)
Definition combineAudioWithVideoTrack (env : Env) (videoTrack : Track) (config : Config)
  : M MediaStream :=
  r ← get_this;
  let audioTracks := collect_audio config r in
  match audioTracks with
  | [] => mret [videoTrack]
  | _ =>
      tryCatch
        (ctx ← lift (new_AudioContext env);
         modify_this (set_audioContext (Some ctx)) ;;
         out ← lift (mixed_tracks env);
         acquire out ;;
         mret (videoTrack :: getAudioTracks out))
        (fun err => mret (videoTrack :: take 1 audioTracks))
  end.

(** [createCombinedStreamCanvas(config)] *)
Definition createCombinedStreamCanvas (env : Env) (config : Config) : M unit :=
  let video := cfg_video config in
  modify_this (set_canvas (Some {| canvas_width := width video;
                                   canvas_height := height video |})) ;;
  lift (canvas_ready env) ;;
  let cs := captureStream env (frameRate video) in
  acquire cs ;;
  modify_this (set_canvasStream (Some cs)) ;;
  combineAudioTracks env config.

(** [fallbackToCanvas(config)] *)
Definition fallbackToCanvas (env : Env) (config : Config) : M unit :=
  tryCatch
    (r ← get_this;
     match worker r with
     | Some w => Worker_terminate w ;; modify_this (set_worker None)
     | None => mret tt
     end)
    (fun error => mret tt) ;;
  createCombinedStreamCanvas env config.

(** [onError]: [fallbackToCanvas(config).then(resolve).catch(reject)] *)
Definition onError (env : Env) (config : Config) (msg : string) : M unit :=
  tryCatch (fallbackToCanvas env config ;; resolve) reject.

(** [this.worker.onmessage] *)
Definition worker_onmessage (env : Env) (config : Config) (msg : WorkerReply) : M unit :=
  match msg with
  | Ready =>
      tryCatch
        (stream ← combineAudioWithVideoTrack env (generator env) config;
         modify_this (fun r => set_streams (set_combined (Some stream) (streams r)) r) ;;
         resolve)
        (fun err =>
           modify_this (fun r =>
             set_streams (set_combined (Some [generator env]) (streams r)) r) ;;
           resolve)
  | Failed data => onError env config data
  | Silent => mret tt
  end.

(** The callback of [setTimeout(..., 5000)]. *)
Definition worker_timeout (env : Env) (config : Config) : M unit :=
  r ← get_this;
  match combined (streams r) with
  | None => onError env config "Timed out waiting for worker ready"
  | Some _ => mret tt
  end.

(** The body of the promise of [createCombinedStreamWebCodecs], up to
    the point where it waits for the worker. *)
Definition webCodecs_init (env : Env) (config : Config) : M unit :=
  modify_host (set_acquisition Pending) ;;
  tryCatch
    (w ← lift (new_Worker env);
     modify_this (set_worker (Some w)) ;;
     r ← get_this;
     match screen (streams r), webcam (streams r) with
     | Some s, Some c =>
         match getVideoTracks s, getVideoTracks c with
         | _ :: _, _ :: _ =>
             lift (new_Processors env) ;;
             acquire [generator env] ;;
             modify_host (fun h => set_timers (timers h ++ [5000]) h)
         | _, _ => throw TypeError
         end
     | _, _ => throw TypeError
     end)
    (fun error =>
       tryCatch (createCombinedStreamCanvas env config ;; resolve) reject).

(** Awaiting the promise.  On a promise that never settles [start]
    would wait for ever; here that shows as an error. *)
Definition await_acquisition : M unit :=
  h ← get_host;
  match acquisition h with
  | Fulfilled => mret tt
  | Rejected e => throw e
  | Pending => throw_Error "the promise is still pending"
  end.

(** [createCombinedStreamWebCodecs(config)]: the worker answers with
    [reply], or stays silent until the timer fires. *)
Definition createCombinedStreamWebCodecs (env : Env) (reply : WorkerReply) (config : Config)
  : M unit :=
  webCodecs_init env config ;;
  h ← get_host;
  match acquisition h with
  | Pending =>
      match reply with
      | Silent => worker_timeout env config
      | _ => worker_onmessage env config reply
      end
  | _ => mret tt
  end ;;
  await_acquisition.

(** [createCombinedStream(config)] *)
Definition createCombinedStream (env : Env) (reply : WorkerReply) (config : Config) : M unit :=
  r ← get_this;
  if webCodecs (capabilities r) && offscreenCanvas (capabilities r) then
    createCombinedStreamWebCodecs env reply config
  else createCombinedStreamCanvas env config.

(** ** [start] *)

(** The listener [setupStreams] puts on the screen track's [ended]. *)
Definition screen_ended : M unit :=
  emit "error" (DError {| message := "Screen sharing was stopped" |}).

(** [setupStreams(config)] *)
Definition setupStreams (env : Env) (reply : WorkerReply) (config : Config) : M unit :=
  let video := cfg_video config in
  tryCatch
    ((if String.eqb (mode config) "screen" || String.eqb (mode config) "combined" then
        st ← lift (getDisplayMedia env
                     {| dc_width := width video; dc_height := height video;
                        dc_frameRate := frameRate video;
                        dc_audio := system (cfg_audio config) |});
        acquire st ;;
        modify_this (fun r => set_streams (set_screen (Some st) (streams r)) r) ;;
        match getVideoTracks st with
        | _ :: _ => mret tt
        | [] => throw TypeError
        end
      else mret tt) ;;
     (if String.eqb (mode config) "webcam" || String.eqb (mode config) "combined" then
        st ← lift (getUserMedia env
                     {| uc_width := width video; uc_height := height video;
                        uc_frameRate := frameRate video;
                        uc_deviceId :=
                          if String.eqb (deviceId config) "" then None
                          else Some (deviceId config);
                        uc_audio := mic (cfg_audio config) |});
        acquire st ;;
        modify_this (fun r => set_streams (set_webcam (Some st) (streams r)) r)
      else mret tt) ;;
     (if String.eqb (mode config) "combined" then createCombinedStream env reply config
      else mret tt))
    (fun error => throw_Error ("Stream setup failed: " +:+ message error)).

(** The preference list of [setupRecorder]. *)
Definition mimeTypes : list string :=
  ["video/webm;codecs=vp9,opus";
   "video/webm;codecs=vp8,opus";
   "video/webm;codecs=h264,opus";
   "video/webm"].

(** The negotiation loop: [for (const mimeType of candidates)] with
    its [break]. *)
Fixpoint selectMimeType (supported : string -> bool) (candidates : list string)
  : option string :=
  match candidates with
  | [] => None
  | mimeType :: rest =>
      if supported mimeType then Some mimeType
      else selectMimeType supported rest
  end.

(** [setupRecorder(config)] *)
Definition setupRecorder (env : Env) (config : Config) : M unit :=
  r ← get_this;
  stream ←
    (if String.eqb (mode config) "screen" then mret (screen (streams r))
     else if String.eqb (mode config) "webcam" then mret (webcam (streams r))
     else if String.eqb (mode config) "combined" then mret (combined (streams r))
     else throw_Error ("Unknown recording mode: " +:+ mode config));
  match stream with
  | None => throw_Error "No stream available for recording"
  | Some st =>
      match selectMimeType (isTypeSupported env) mimeTypes with
      | Some selectedMimeType =>
          if String.eqb selectedMimeType "" then
            throw_Error "No supported video format found"
          else
            modify_this (set_mediaRecorder (Some
              {| state := inactive; mimeType := selectedMimeType; mr_stream := st;
                 videoBitsPerSecond := bitrate_video (bitrate config);
                 audioBitsPerSecond := bitrate_audio (bitrate config);
                 timeslice := None |})) ;;
            modify_this (set_chunks [])
      | None => throw_Error "No supported video format found"
      end
  end.

(** [start(config)] *)
Definition start (env : Env) (reply : WorkerReply) (config : Config) : M unit :=
  tryCatch
    (setupStreams env reply config ;;
     setupRecorder env config ;;
     r ← get_this;
     match mediaRecorder r with
     | Some mr =>
         mr' ← lift (MediaRecorder_start 1000 mr);
         modify_this (set_mediaRecorder (Some mr'))
     | None => throw TypeError
     end ;;
     modify_this (set_isRecording true))
    (fun error =>
       cleanup ;;
       throw_Error ("Failed to start recording: " +:+ message error)).

(** ** [getState] *)

Record RecorderState := {
  gs_isRecording : bool;
  gs_state : RecordingState;
  chunksCount : nat;
  totalSize : nat
}.

Definition getState (r : Recorder) : RecorderState :=
  {| gs_isRecording := isRecording r;
     gs_state := match mediaRecorder r with Some mr => state mr | None => inactive end;
     chunksCount := length (chunks r);
     totalSize := foldl (fun sum chunk => sum + blob_size chunk) 0 (chunks r) |}.

(** ** Vocabulary of the properties *)

(** The payloads of a run of flushes that [ondataavailable] keeps. *)
Definition recorded (payloads : list (option Blob)) : list Blob :=
  filter (fun b => 0 < blob_size b) (omap id payloads).

(** The last [n] elements of a list. *)
Definition lastn {A} (n : nat) (l : list A) : list A := drop (length l - n) l.

(** One insertion into the bounded queue. *)
Definition enqueue (max : nat) (queue : list Blob) (data : Blob) : list Blob :=
  (if bool_decide (max <= length queue) then tail queue else queue) ++ [data].

(** The state after [emit event data]: one more emitted event, every
    listener of [event] called with [data], each on the application
    state the one before left. *)
Definition after_emit (event : string) (data : Data) (s : State) : State :=
  let listeners := default [] (eventListeners (this s) !! event) in
  {| this := this s;
     host :=
       set_invoked
         (invoked (host s) ++ map (fun cb => (cb_id cb, data)) listeners)
         (foldl (fun a cb => (cb_run cb data a).2) (app (host s)) listeners)
         (set_emitted (emitted (host s) ++ [(event, data)]) (host s)) |}.

(** The tracks [cleanup] calls [stop] on, in call order. *)
Definition stopped_by_cleanup (r : Recorder) : list Track :=
  default [] (screen (streams r)) ++ default [] (webcam (streams r)) ++
  default [] (combined (streams r)) ++ default [] (canvasStream r).

(** The tracks the recorder holds: those of its three stream slots
    and of the canvas stream. *)
Definition held_tracks (r : Recorder) : list nat :=
  map track_id (stopped_by_cleanup r).

(** How often the source of track [t] was told that [t] ended. *)
Definition releases (h : Host) (t : nat) : nat :=
  count_occ Nat.eq_dec (released h) t.

(** The state after [cleanup()]. *)
Definition after_cleanup (s : State) : State :=
  let r := this s in
  let h1 := foldl Track_stopped (host s) (stopped_by_cleanup r) in
  let h2 :=
    match audioContext r with
    | Some ctx =>
        if bool_decide (ctx ∈ audioClosed h1) then h1
        else set_audioClosed (audioClosed h1 ++ [ctx]) h1
    | None => h1
    end in
  let h3 :=
    match worker r with
    | Some w => set_terminated (terminated h2 ++ [w]) h2
    | None => h2
    end in
  {| this :=
       {| mediaRecorder := None; chunks := []; streams := no_streams;
          capabilities := capabilities r; eventListeners := eventListeners r;
          worker := None; canvas := None; canvasStream := None;
          audioContext := None; isRecording := false;
          maxChunks := maxChunks r |};
     host := h3 |}.

(** What building a combined stream leaves alone: the worker, the
    workers terminated so far, the timers and the promise. *)
Definition same_acceleration (s s' : State) : Prop :=
  worker (this s') = worker (this s) /\
  terminated (host s') = terminated (host s) /\
  timers (host s') = timers (host s) /\
  acquisition (host s') = acquisition (host s).

(** The canvas the software compositor makes for [config]. *)
Definition canvas_for (config : Config) : Canvas :=
  {| canvas_width := width (cfg_video config);
     canvas_height := height (cfg_video config) |}.

(** The state after [fallbackToCanvas] terminated worker [w]. *)
Definition worker_terminated (w : nat) (s : State) : State :=
  {| this := set_worker None (this s);
     host := set_terminated (terminated (host s) ++ [w]) (host s) |}.

(** The state [cleanup] leaves. *)
Definition torn_down (r : Recorder) : Prop :=
  isRecording r = false /\ mediaRecorder r = None /\ streams r = no_streams /\
  canvasStream r = None /\ audioContext r = None /\ worker r = None /\
  canvas r = None /\ chunks r = [].

End Model.

(** ** The two compositors

    JavaScript numbers are taken as exact rationals; the literal [0.2]
    is the rational 1/5. *)

Module Compositor.

Local Open Scope Qc_scope.

Definition num (z : Z) : Qc := Qc_of_Z z.

Definition Math_min (a b : Qc) : Qc := if decide (a ≤ b) then a else b.

Definition Math_floor (x : Qc) : Qc := num (Qfloor (Qcanon.this x)).

(** [Math.round]: halves go up. *)
Definition Math_round (x : Qc) : Qc := Math_floor (x + Q2Qc (1 # 2)).

(** What is drawn: the primary (screen) or the secondary (webcam) picture. *)
Inductive Source := Primary | Secondary.

(** The calls on the 2D context, in order. *)
Inductive DrawCmd :=
| fillStyle (colour : string)
| fillRect (x y w h : Qc)
| drawImage (src : Source) (dx dy dw dh : Qc)
| save
| scale (x y : Qc)
| restore
| strokeStyle (colour : string)
| lineWidth (w : Qc)
| strokeRect (x y w h : Qc).

(** A [<video>] element of the software path. *)
Record VideoElement := { videoWidth : Z; videoHeight : Z }.

(** One call of [drawFrame] in [createCombinedStreamCanvas]. *)
Definition drawFrame (streams : Streams) (video : VideoConfig)
    (screenVideo webcamVideo : VideoElement) : list DrawCmd :=
  match screen streams, webcam streams with
  | None, None => []
  | _, _ =>
      [fillStyle "#000"; fillRect 0 0 (num (width video)) (num (height video))] ++
      (if bool_decide (0 < videoWidth screenVideo)%Z && bool_decide (0 < videoHeight screenVideo)%Z
       then [drawImage Primary 0 0 (num (width video)) (num (height video))]
       else []) ++
      (if bool_decide (0 < videoWidth webcamVideo)%Z && bool_decide (0 < videoHeight webcamVideo)%Z
       then
         let pipWidth := Math_min (num 200) (num (width video) * Q2Qc (1 # 5)) in
         let pipHeight :=
           pipWidth * num (videoHeight webcamVideo) / num (videoWidth webcamVideo) in
         let pipX := num (width video) - pipWidth - num 20 in
         let pipY := num (height video) - pipHeight - num 20 in
         [save; scale (- 1) 1;
          drawImage Secondary (- pipX - pipWidth) pipY pipWidth pipHeight;
          restore;
          strokeStyle "#fff"; lineWidth 2;
          strokeRect pipX pipY pipWidth pipHeight]
       else [])
  end.

(** A [VideoFrame] of the accelerated path. *)
Record VideoFrame := {
  frame_id : nat;
  displayWidth : Z;
  displayHeight : Z;
  timestamp : option Z
}.

(** The drawing of one iteration of [composeLoop], on a canvas of
    [W] by [H]. *)
Definition compose (W H : Z) (screenFrame webcamFrame : VideoFrame) : list DrawCmd :=
  let pipW := Math_min (num 200) (Math_floor (num W * Q2Qc (1 # 5))) in
  let pipH :=
    Math_floor (pipW * num (displayHeight webcamFrame) / num (displayWidth webcamFrame)) in
  let pipX := num W - pipW - num 20 in
  let pipY := num H - pipH - num 20 in
  [fillStyle "#000"; fillRect 0 0 (num W) (num H);
   drawImage Primary 0 0 (num W) (num H);
   save; scale (- 1) 1;
   drawImage Secondary (- pipX - pipW) pipY pipW pipH;
   restore;
   strokeStyle "#fff"; lineWidth 2;
   strokeRect pipX pipY pipW pipH].

(** *** The compose loop and its frame buffers *)

(** Which side a frame buffer belongs to. *)
Inductive Input := FromScreen | FromWebcam | Composed.

#[export] Instance Input_eq_dec : EqDecision Input.
Proof. solve_decision. Defined.

(** The result of [reader.read()]. *)
Inductive ReadResult := done | value (f : VideoFrame).

(** What the host supplies to one pass of the loop: the clock, whether
    a [stop] message was handled while the pass was suspended, the two
    reads, whether a [draw] rejects (both [drawImage] and
    [createImageBitmap] failing), and the identity of the frame
    [new VideoFrame] makes. *)
Record Tick := {
  now : Qc;
  stop_message : bool;
  s : ReadResult;
  w : ReadResult;
  draw_rejects : bool;
  composed_id : nat
}.

(** The worker's globals, the locals of [composeLoop], and the frame
    buffers that are open; [history] keeps the open buffers after
    every creation and every [close]. *)
Record Worker := {
  isRunning : bool;
  lastFrameTime : Qc;
  canvas_size : Z * Z;
  config_frameRate : Z;
  screenFrame : option VideoFrame;
  webcamFrame : option VideoFrame;
  writer_closed : bool;
  written : list (Z * list DrawCmd);
  open : list (Input * nat);
  history : list (list (Input * nat))
}.

(** The worker after [init]. *)
Definition init (W H rate : Z) : Worker :=
  {| isRunning := true; lastFrameTime := 0; canvas_size := (W, H);
     config_frameRate := rate; screenFrame := None; webcamFrame := None;
     writer_closed := false; written := []; open := []; history := [] |}.

Definition set_open (o : list (Input * nat)) (k : Worker) : Worker :=
  {| isRunning := isRunning k; lastFrameTime := lastFrameTime k;
     canvas_size := canvas_size k; config_frameRate := config_frameRate k;
     screenFrame := screenFrame k; webcamFrame := webcamFrame k;
     writer_closed := writer_closed k; written := written k;
     open := o; history := history k ++ [o] |}.

Definition set_frames (sf wf : option VideoFrame) (k : Worker) : Worker :=
  {| isRunning := isRunning k; lastFrameTime := lastFrameTime k;
     canvas_size := canvas_size k; config_frameRate := config_frameRate k;
     screenFrame := sf; webcamFrame := wf;
     writer_closed := writer_closed k; written := written k;
     open := open k; history := history k |}.

(** The [stop] function of the worker: [isRunning = false; closeWriter()]. *)
Definition stop (k : Worker) : Worker :=
  {| isRunning := false; lastFrameTime := lastFrameTime k;
     canvas_size := canvas_size k; config_frameRate := config_frameRate k;
     screenFrame := screenFrame k; webcamFrame := webcamFrame k;
     writer_closed := true; written := written k;
     open := open k; history := history k |}.

Definition closeWriter (k : Worker) : Worker :=
  {| isRunning := isRunning k; lastFrameTime := lastFrameTime k;
     canvas_size := canvas_size k; config_frameRate := config_frameRate k;
     screenFrame := screenFrame k; webcamFrame := webcamFrame k;
     writer_closed := true; written := written k;
     open := open k; history := history k |}.

Definition wrote (ts : Z) (cmds : list DrawCmd) (t : Qc) (k : Worker) : Worker :=
  {| isRunning := isRunning k; lastFrameTime := lastFrameTime k;
     canvas_size := canvas_size k; config_frameRate := config_frameRate k;
     screenFrame := screenFrame k; webcamFrame := webcamFrame k;
     writer_closed := writer_closed k; written := written k ++ [(ts, cmds)];
     open := open k; history := history k |}.

Definition set_lastFrameTime (t : Qc) (k : Worker) : Worker :=
  {| isRunning := isRunning k; lastFrameTime := t;
     canvas_size := canvas_size k; config_frameRate := config_frameRate k;
     screenFrame := screenFrame k; webcamFrame := webcamFrame k;
     writer_closed := writer_closed k; written := written k;
     open := open k; history := history k |}.

(** A frame buffer comes to life: a read delivers it, or
    [new VideoFrame] makes it. *)
Definition opened (i : Input) (f : nat) (k : Worker) : Worker :=
  set_open ((i, f) :: open k) k.

(** [frame.close()] *)
Definition close (f : nat) (k : Worker) : Worker :=
  set_open (filter (fun p => p.2 ≠ f) (open k)) k.

(** [if (frame) frame.close()] *)
Definition close_if (f : option VideoFrame) (k : Worker) : Worker :=
  match f with
  | Some f => close (frame_id f) k
  | None => k
  end.

Definition delivered (i : Input) (r : ReadResult) (k : Worker) : Worker :=
  match r with
  | value f => opened i (frame_id f) k
  | done => k
  end.

Inductive Outcome := Continue | Break | Threw.

(** [1000 / (config.frameRate || 30)] *)
Definition targetFrameTime (k : Worker) : Qc :=
  num 1000 / num (if bool_decide (config_frameRate k = 0%Z) then 30 else config_frameRate k).

(** The end of a pass that read two frames: the frames of the pass
    before are closed, the picture is drawn, and the composed frame is
    made, written and closed.  Writing to a closed writer rejects; a
    rejection ends [composeLoop] where it stands. *)
Definition composite (t : Tick) (sv wv : VideoFrame) (k : Worker) : Outcome * Worker :=
  let k := close_if (screenFrame k) k in
  let k := close_if (webcamFrame k) k in
  let k := set_frames (Some sv) (Some wv) k in
  if draw_rejects t then (Threw, k)
  else
    let cmds := compose (canvas_size k).1 (canvas_size k).2 sv wv in
    let ts :=
      match timestamp sv with
      | Some n => n
      | None => Qfloor (Qcanon.this (Math_round (now t * num 1000)))
      end in
    let k := opened Composed (composed_id t) k in
    if writer_closed k then (Threw, k)
    else
      let k := wrote ts cmds (now t) k in
      let k := close (composed_id t) k in
      (Continue, set_lastFrameTime (now t) k).

(** [// Read newest available frames] *)
Definition read_frames (t : Tick) (k : Worker) : Outcome * Worker :=
  let k := delivered FromWebcam (w t) (delivered FromScreen (s t) k) in
  match s t, w t with
  | value sv, value wv => composite t sv wv k
  | _, _ => (Break, k)
  end.

(** One pass of the [while (isRunning)] body. *)
Definition pass (t : Tick) (k : Worker) : Outcome * Worker :=
  let k := if stop_message t then stop k else k in
  if bool_decide (now t - lastFrameTime k < targetFrameTime k) then (Continue, k)
  else read_frames t k.

(** The statements after the loop. *)
Definition after_loop (k : Worker) : Worker :=
  closeWriter (close_if (webcamFrame (close_if (screenFrame k) k))
                        (close_if (screenFrame k) k)).

Inductive Run := Suspended | Finished | Errored.

(** [composeLoop], as far as the host's [ticks] take it. *)
Fixpoint composeLoop (ticks : list Tick) (k : Worker) : Run * Worker :=
  match ticks with
  | [] => if isRunning k then (Suspended, k) else (Finished, after_loop k)
  | t :: rest =>
      if isRunning k then
        match pass t k with
        | (Continue, k') => composeLoop rest k'
        | (Break, k') => (Finished, after_loop k')
        | (Threw, k') => (Errored, k')
        end
      else (Finished, after_loop k)
  end.

(** How many open buffers belong to input [i]. *)
Definition live_buffers (i : Input) (o : list (Input * nat)) : nat :=
  length (filter (fun p => p.1 = i) o).

(** *** Vocabulary of the properties *)

(** The drawing both compositors make, for an inset of [pipW] by
    [pipH]: black background, the primary picture over the whole
    canvas, the secondary one mirrored at the bottom right with a
    margin of 20, and a white border of width 2 around it. *)
Definition picture (W H pipW pipH : Qc) : list DrawCmd :=
  let pipX := W - pipW - num 20 in
  let pipY := H - pipH - num 20 in
  [fillStyle "#000"; fillRect 0 0 W H;
   drawImage Primary 0 0 W H;
   save; scale (- 1) 1;
   drawImage Secondary (- pipX - pipW) pipY pipW pipH;
   restore;
   strokeStyle "#fff"; lineWidth 2;
   strokeRect pipX pipY pipW pipH].

(** The inset of the software compositor. *)
Definition software_pipWidth (W : Z) : Qc := Math_min (num 200) (num W * Q2Qc (1 # 5)).

Definition software_pipHeight (W w h : Z) : Qc :=
  software_pipWidth W * num h / num w.

(** At most [a] screen buffers, [b] webcam buffers and [c] composed
    buffers are open. *)
Definition within (a b c : nat) (o : list (Input * nat)) : Prop :=
  (live_buffers FromScreen o <= a)%nat /\ (live_buffers FromWebcam o <= b)%nat /\
  (live_buffers Composed o <= c)%nat.

(** Every open buffer of input [i] is the frame the loop keeps in
    its variable [kept]. *)
Definition kept_only (i : Input) (kept : option VideoFrame) (o : list (Input * nat)) : Prop :=
  forall f, (i, f) ∈ o -> exists v, kept = Some v /\ frame_id v = f.

(** The open buffers after [if (kept) kept.close()]. *)
Definition closing (kept : option VideoFrame) (o : list (Input * nat)) : list (Input * nat) :=
  match kept with
  | Some v => filter (fun p => p.2 ≠ frame_id v) o
  | None => o
  end.

(** What holds each time the loop is at its head. *)
Definition at_head (k : Worker) : Prop :=
  Forall (within 2 2 1) (history k) /\
  within 1 1 0 (open k) /\
  kept_only FromScreen (screenFrame k) (open k) /\
  kept_only FromWebcam (webcamFrame k) (open k).

(** What holds at every point of the loop. *)
Definition bounded (k : Worker) : Prop :=
  Forall (within 2 2 1) (history k) /\ within 2 2 1 (open k).

End Compositor.

(** ** A sample session

    Concrete values on which the properties are instantiated.  The
    application state is a counter of the chunks it was told about. *)

Module Sample.

Definition chunk (b : byte) : Blob := {| blob_bytes := [b]; blob_type := "video/webm" |}.

Definition empty_chunk : Blob := {| blob_bytes := []; blob_type := "video/webm" |}.

Definition host0 : @Host nat :=
  {| live := ∅; stopCalls := []; released := []; terminated := [];
     audioClosed := []; timers := []; acquisition := Pending;
     invoked := []; emitted := []; app := 0 |}.

(** A fresh recorder. *)
Definition fresh : @State nat := {| this := constructor; host := host0 |}.

(** A recorder whose queue holds at most two chunks. *)
Definition small_queue : @State nat :=
  {| this :=
       {| mediaRecorder := None; chunks := []; streams := no_streams;
          capabilities := {| webCodecs := false; offscreenCanvas := false |};
          eventListeners := ∅; worker := None; canvas := None;
          canvasStream := None; audioContext := None; isRecording := false;
          maxChunks := 2 |};
     host := host0 |}.

Definition screen_stream : MediaStream :=
  [ {| track_id := 1; kind := video |}; {| track_id := 2; kind := audio |} ].

Definition webcam_stream : MediaStream :=
  [ {| track_id := 3; kind := video |}; {| track_id := 4; kind := audio |} ].

(** A session that is recording the screen, two chunks queued. *)
Definition recording_session : @State nat :=
  {| this :=
       {| mediaRecorder :=
            Some {| state := recording; mimeType := "video/webm";
                    mr_stream := screen_stream;
                    videoBitsPerSecond := 5000000; audioBitsPerSecond := 128000;
                    timeslice := Some 1000 |};
          chunks := [chunk x01; chunk x02];
          streams := {| screen := Some screen_stream; webcam := None; combined := None |};
          capabilities := {| webCodecs := false; offscreenCanvas := false |};
          eventListeners := ∅; worker := None; canvas := None;
          canvasStream := None; audioContext := None; isRecording := true;
          maxChunks := 1000 |};
     host := {| live := {[1; 2]}; stopCalls := []; released := []; terminated := [];
                audioClosed := []; timers := []; acquisition := Pending;
                invoked := []; emitted := []; app := 0 |} |}.


(** A host that grants both sources and supports no recording format. *)
Definition no_codec : Env :=
  {| getDisplayMedia := fun _ => Normal screen_stream;
     getUserMedia := fun _ => Normal webcam_stream;
     isTypeSupported := fun _ => false;
     new_Worker := Normal 7;
     new_Processors := Normal tt;
     generator := {| track_id := 5; kind := video |};
     new_AudioContext := Normal 9;
     mixed_tracks := Normal [ {| track_id := 6; kind := audio |} ];
     canvas_ready := Normal tt;
     captureStream := fun _ => [ {| track_id := 8; kind := video |} ] |}.

(** A listener that throws, and one that counts its calls. *)
Definition throwing : @Callback nat :=
  {| cb_id := 1; cb_run := fun _ a => (Throw {| message := "listener failed" |}, a) |}.

Definition counting : @Callback nat :=
  {| cb_id := 2; cb_run := fun _ a => (Normal tt, S a) |}.

Definition hd_screen : Config :=
  {| mode := "screen";
     cfg_video := {| width := 1280; height := 720; frameRate := 30 |};
     cfg_audio := {| system := true; mic := true |};
     deviceId := "";
     bitrate := {| bitrate_video := 5000000; bitrate_audio := 128000 |} |}.


End Sample.

(** * Further parts of the recorder *)

(** How a call of [stop()] returns: with its promise settled, or
    waiting for the recorder's [stop] event. *)
Inductive StopCall := Settled (result : option Blob) | Awaiting.

Section Handlers.

Context {L : Type}.

(** [mediaRecorder.onerror]; [error_message] is [e.error?.message]. *)
Definition onerror (error_message : option string) : M (L:=L) unit :=
  emit "error"
    (DError {| message :=
                 "Recording error: " +:+
                 match error_message with
                 | Some m => if String.eqb m "" then "Unknown error" else m
                 | None => "Unknown error"
                 end |}).

(** [stop()] up to the point where the call returns: the promise is
    settled at once without a recorder or with an inactive one;
    otherwise [mediaRecorder.stop()] was called and [handleStop] waits
    for the [stop] event. *)
Definition stop_call : M (L:=L) StopCall :=
  r ← get_this;
  match mediaRecorder r with
  | None => mret (Settled None)
  | Some mr =>
      if is_active (state mr) then
        mr' ← lift (MediaRecorder_stop mr);
        modify_this (set_mediaRecorder (Some mr')) ;;
        mret Awaiting
      else
        blob ← handleStop;
        mret (Settled blob)
  end.

(** The events a stopped [MediaRecorder] fires: [dataavailable] with
    the data gathered since the last flush, then [stop]. *)
Definition stop_events (final : option Blob) : M (L:=L) (option Blob) :=
  ondataavailable final ;;
  handleStop.

End Handlers.

(** The frame a pass of [composeLoop] writes when it gets as far as
    writing: the drawing of the two frames read, under the screen
    frame's timestamp or, for want of one, the clock in microseconds. *)
Module Loop.

Import Compositor.

Local Open Scope Qc_scope.

Definition output (W H : Z) (t : Tick) : option (Z * list DrawCmd) :=
  match s t, w t with
  | value sv, value wv =>
      Some (match timestamp sv with
            | Some n => n
            | None => Qfloor (Qcanon.this (Math_round (now t * num 1000)))
            end,
            compose W H sv wv)
  | _, _ => None
  end.

(** On this tick both readers end, or neither does. *)
Definition ends_together (t : Tick) : Prop := s t = done <-> w t = done.

(** The frames written so far, spaced one frame time apart, fit
    before the time the last one was written at. *)
Definition paced (k : Worker) : Prop :=
  num (Z.of_nat (length (written k))) * targetFrameTime k ≤ lastFrameTime k.

End Loop.

(** * The application controller, [script.js]

    [RecordlyApp] owns a [Recorder], listens to its events and drives
    the page.  The page is the map from "element.property" to the
    value the controller last wrote there; every element that
    [bindElements] looks up is taken to exist. *)

Module App.

(** A number that may be [NaN]. *)
Inductive Number := Finite (n : nat) | NaN.

(** [x + size], where [size] may be [undefined]. *)
Definition plus_size (x : Number) (size : option nat) : Number :=
  match x, size with
  | Finite n, Some m => Finite (n + m)
  | _, _ => NaN
  end.

(** [this.state] *)
Record AppState := {
  st_mode : string;
  quality : string;
  st_bitrate : Z;
  micEnabled : bool;
  systemAudioEnabled : bool;
  st_isRecording : bool;
  isPaused : bool;
  devices : list string;
  selectedDevice : string;
  startTime : option Z;
  duration : Z;
  fileSize : Number;
  droppedFrames : Z
}.

(** [this.performanceMetrics] *)
Record Metrics := { pm_startTime : Z; chunkCount : nat; totalBytes : Number }.

(** What a property of an element holds. *)
Inductive Value :=
| VString (v : string)
| VBool (b : bool)
| VStream (st : option MediaStream).

(** The fields of [RecordlyApp], and what it asked of the browser:
    the delays of the timers that will hide the error box, the
    animation frames cancelled, the analyser contexts closed and the
    analyser tracks stopped. *)
Record App := {
  appState : AppState;
  elements : gmap string Value;
  animationFrame : option nat;
  micAnalyzer : option (nat * MediaStream);
  performanceMetrics : Metrics;
  pendingBlob : option Blob;
  hideTimers : list nat;
  cancelledFrames : list nat;
  closedAnalyzers : list nat;
  stoppedMicTracks : list nat
}.

Definition set_appState (v : AppState) (a : App) : App :=
  {| appState := v; elements := elements a; animationFrame := animationFrame a;
     micAnalyzer := micAnalyzer a; performanceMetrics := performanceMetrics a;
     pendingBlob := pendingBlob a; hideTimers := hideTimers a;
     cancelledFrames := cancelledFrames a; closedAnalyzers := closedAnalyzers a;
     stoppedMicTracks := stoppedMicTracks a |}.

Definition set_elements (v : gmap string Value) (a : App) : App :=
  {| appState := appState a; elements := v; animationFrame := animationFrame a;
     micAnalyzer := micAnalyzer a; performanceMetrics := performanceMetrics a;
     pendingBlob := pendingBlob a; hideTimers := hideTimers a;
     cancelledFrames := cancelledFrames a; closedAnalyzers := closedAnalyzers a;
     stoppedMicTracks := stoppedMicTracks a |}.

Definition set_animationFrame (v : option nat) (cancelled : list nat) (a : App) : App :=
  {| appState := appState a; elements := elements a; animationFrame := v;
     micAnalyzer := micAnalyzer a; performanceMetrics := performanceMetrics a;
     pendingBlob := pendingBlob a; hideTimers := hideTimers a;
     cancelledFrames := cancelled; closedAnalyzers := closedAnalyzers a;
     stoppedMicTracks := stoppedMicTracks a |}.

Definition set_micAnalyzer (v : option (nat * MediaStream)) (closed stopped : list nat)
    (a : App) : App :=
  {| appState := appState a; elements := elements a; animationFrame := animationFrame a;
     micAnalyzer := v; performanceMetrics := performanceMetrics a;
     pendingBlob := pendingBlob a; hideTimers := hideTimers a;
     cancelledFrames := cancelledFrames a; closedAnalyzers := closed;
     stoppedMicTracks := stopped |}.

Definition set_performanceMetrics (v : Metrics) (a : App) : App :=
  {| appState := appState a; elements := elements a; animationFrame := animationFrame a;
     micAnalyzer := micAnalyzer a; performanceMetrics := v;
     pendingBlob := pendingBlob a; hideTimers := hideTimers a;
     cancelledFrames := cancelledFrames a; closedAnalyzers := closedAnalyzers a;
     stoppedMicTracks := stoppedMicTracks a |}.

Definition set_pendingBlob (v : option Blob) (a : App) : App :=
  {| appState := appState a; elements := elements a; animationFrame := animationFrame a;
     micAnalyzer := micAnalyzer a; performanceMetrics := performanceMetrics a;
     pendingBlob := v; hideTimers := hideTimers a;
     cancelledFrames := cancelledFrames a; closedAnalyzers := closedAnalyzers a;
     stoppedMicTracks := stoppedMicTracks a |}.

Definition set_hideTimers (v : list nat) (a : App) : App :=
  {| appState := appState a; elements := elements a; animationFrame := animationFrame a;
     micAnalyzer := micAnalyzer a; performanceMetrics := performanceMetrics a;
     pendingBlob := pendingBlob a; hideTimers := v;
     cancelledFrames := cancelledFrames a; closedAnalyzers := closedAnalyzers a;
     stoppedMicTracks := stoppedMicTracks a |}.

(** [this.elements.<element>.<property> = v], [key] being
    "<element>.<property>". *)
Definition write (key : string) (v : Value) (a : App) : App :=
  set_elements (<[key := v]> (elements a)) a.

Definition set_isPaused (v : bool) (st : AppState) : AppState :=
  {| st_mode := st_mode st; quality := quality st; st_bitrate := st_bitrate st;
     micEnabled := micEnabled st; systemAudioEnabled := systemAudioEnabled st;
     st_isRecording := st_isRecording st; isPaused := v; devices := devices st;
     selectedDevice := selectedDevice st; startTime := startTime st;
     duration := duration st; fileSize := fileSize st;
     droppedFrames := droppedFrames st |}.

Definition set_duration (v : Z) (st : AppState) : AppState :=
  {| st_mode := st_mode st; quality := quality st; st_bitrate := st_bitrate st;
     micEnabled := micEnabled st; systemAudioEnabled := systemAudioEnabled st;
     st_isRecording := st_isRecording st; isPaused := isPaused st; devices := devices st;
     selectedDevice := selectedDevice st; startTime := startTime st;
     duration := v; fileSize := fileSize st;
     droppedFrames := droppedFrames st |}.

Definition set_fileSize (v : Number) (st : AppState) : AppState :=
  {| st_mode := st_mode st; quality := quality st; st_bitrate := st_bitrate st;
     micEnabled := micEnabled st; systemAudioEnabled := systemAudioEnabled st;
     st_isRecording := st_isRecording st; isPaused := isPaused st; devices := devices st;
     selectedDevice := selectedDevice st; startTime := startTime st;
     duration := duration st; fileSize := v;
     droppedFrames := droppedFrames st |}.

(** [this.state] as the constructor sets it. *)
Definition initial_state : AppState :=
  {| st_mode := "screen"; quality := "720p"; st_bitrate := 5000000;
     micEnabled := true; systemAudioEnabled := true;
     st_isRecording := false; isPaused := false; devices := [];
     selectedDevice := ""; startTime := None; duration := 0;
     fileSize := Finite 0; droppedFrames := 0 |}.

(** ** The error box *)

(** [showError(message)] *)
Definition showError (message : string) (a : App) : App :=
  let a := write "errorText.textContent" (VString message) a in
  let a := write "errorMessage.style.display" (VString "block") a in
  set_hideTimers (hideTimers a ++ [5000]) a.

(** [hideError()] *)
Definition hideError (a : App) : App :=
  write "errorMessage.style.display" (VString "none") a.

(** ** [updateUI]; [webcam] is [!!this.recorder.streams.webcam]. *)
Definition updateUI (webcam : bool) (a : App) : App :=
  let st := appState a in
  let a :=
    if st_isRecording st then
      let a := write "statusDot.className"
                 (VString (if isPaused st then "status-dot paused"
                           else "status-dot recording")) a in
      write "statusText.textContent"
        (VString (if isPaused st then "Paused" else "Recording")) a
    else
      let a := write "statusDot.className" (VString "status-dot") a in
      write "statusText.textContent" (VString "Ready") a in
  let showDevices :=
    String.eqb (st_mode st) "webcam" || String.eqb (st_mode st) "combined" in
  let a := write "deviceGroup.style.display"
             (VString (if showDevices then "block" else "none")) a in
  let showSystemAudio :=
    String.eqb (st_mode st) "screen" || String.eqb (st_mode st) "combined" in
  let a := write "systemAudioGroup.style.display"
             (VString (if showSystemAudio then "block" else "none")) a in
  let a := write "startBtn.disabled" (VBool (st_isRecording st)) a in
  let a := write "pauseBtn.disabled"
             (VBool (negb (st_isRecording st) || isPaused st)) a in
  let a := write "pauseBtn.style.display"
             (VString (if isPaused st then "none" else "flex")) a in
  let a := write "resumeBtn.disabled" (VBool (negb (isPaused st))) a in
  let a := write "resumeBtn.style.display"
             (VString (if isPaused st then "flex" else "none")) a in
  let a := write "stopBtn.disabled" (VBool (negb (st_isRecording st))) a in
  let showPip :=
    st_isRecording st && String.eqb (st_mode st) "screen" && webcam in
  let a := write "pipContainer.style.display"
             (VString (if showPip then "block" else "none")) a in
  let a := write "previewOverlay.style.display"
             (VString (if st_isRecording st then "none" else "flex")) a in
  foldl (fun a control => write (control +:+ ".disabled") (VBool (st_isRecording st)) a)
    a ["modeSelect"; "qualitySelect"; "bitrateSelect"; "deviceSelect"].

(** ** [resetRecording] *)
Definition resetRecording (webcam : bool) (a : App) : App :=
  let st := appState a in
  let a :=
    set_appState
      {| st_mode := st_mode st; quality := quality st; st_bitrate := st_bitrate st;
         micEnabled := micEnabled st; systemAudioEnabled := systemAudioEnabled st;
         st_isRecording := false; isPaused := false; devices := devices st;
         selectedDevice := selectedDevice st; startTime := None;
         duration := 0; fileSize := Finite 0; droppedFrames := 0 |} a in
  let a :=
    match animationFrame a with
    | Some id => set_animationFrame None (cancelledFrames a ++ [id]) a
    | None => a
    end in
  let a :=
    match micAnalyzer a with
    | Some (audioContext, micStream) =>
        set_micAnalyzer None (closedAnalyzers a ++ [audioContext])
          (stoppedMicTracks a ++ map track_id micStream) a
    | None => a
    end in
  let a := write "previewVideo.srcObject" (VStream None) a in
  let a := write "pipVideo.srcObject" (VStream None) a in
  let a := write "micLevel.style.width" (VString "0%") a in
  updateUI webcam a.

(** ** The listeners of [setupPerformanceMonitoring] *)

(** [data.size], [undefined] on what is not a blob. *)
Definition size_of (data : Data) : option nat :=
  match data with
  | DBlob b => Some (blob_size b)
  | DError _ => None
  end.

(** [error.message]; an [undefined] one is written as the empty text. *)
Definition message_of (data : Data) : string :=
  match data with
  | DError e => message e
  | DBlob _ => ""
  end.

(** The body of the [dataavailable] listener. *)
Definition count_chunk (data : Data) (a : App) : App :=
  let pm := performanceMetrics a in
  let total := plus_size (totalBytes pm) (size_of data) in
  let a :=
    set_performanceMetrics
      {| pm_startTime := pm_startTime pm; chunkCount := S (chunkCount pm);
         totalBytes := total |} a in
  set_appState (set_fileSize total (appState a)) a.

Definition on_dataavailable : @Callback App :=
  {| cb_id := 1; cb_run := fun data a => (Normal tt, count_chunk data a) |}.

(** The [error] listener: [showError(error.message); resetRecording()].
    [resetRecording] clears [isRecording] before [updateUI] would look
    at the recorder's webcam stream, which is therefore not read. *)
Definition on_error : @Callback App :=
  {| cb_id := 2;
     cb_run := fun data a =>
       (Normal tt, resetRecording false (showError (message_of data) a)) |}.

(** The part of [setupPerformanceMonitoring] that registers listeners. *)
Definition setupPerformanceMonitoring : M (L:=App) unit :=
  on "dataavailable" on_dataavailable ;;
  on "error" on_error.

(** ** The controls *)

Definition modify_app (f : App -> App) : M (L:=App) unit :=
  modify_host (fun h => set_invoked (invoked h) (f (app h)) h).

(** [!!this.recorder.streams.webcam] *)
Definition has_webcam : M (L:=App) bool :=
  r ← get_this;
  mret (bool_decide (is_Some (webcam (streams r)))).

(** [pauseRecording()] *)
Definition pauseRecording : M (L:=App) unit :=
  tryCatch
    (pause ;;
     modify_app (fun a => set_appState (set_isPaused true (appState a)) a) ;;
     webcam ← has_webcam;
     modify_app (updateUI webcam))
    (fun error =>
       modify_app (showError ("Failed to pause recording: " +:+ message error))).

(** [resumeRecording()] *)
Definition resumeRecording : M (L:=App) unit :=
  tryCatch
    (resume ;;
     modify_app (fun a => set_appState (set_isPaused false (appState a)) a) ;;
     webcam ← has_webcam;
     modify_app (updateUI webcam))
    (fun error =>
       modify_app (showError ("Failed to resume recording: " +:+ message error))).

(** [.replace(/[:.]/g, "-")] *)
Fixpoint dashed (s : string) : string :=
  match s with
  | EmptyString => EmptyString
  | String c rest =>
      if String.eqb (String c EmptyString) ":" || String.eqb (String c EmptyString) "."
      then "-" +:+ dashed rest
      else String c (dashed rest)
  end.

(** [showSaveDialog(blob)]; [iso] is [new Date().toISOString()]. *)
Definition showSaveDialog (blob : Blob) (iso : string) (a : App) : App :=
  let timestamp := String.substring 0 (String.length (dashed iso) - 5) (dashed iso) in
  let filename := "recordly-" +:+ timestamp +:+ ".webm" in
  let a := write "filenameInput.value" (VString filename) a in
  let a := write "saveDialog.style.display" (VString "flex") a in
  set_pendingBlob (Some blob) a.

(** [stopRecording()]; [final] is the last flush of the recorder. *)
Definition stopRecording (final : option Blob) (iso : string) : M (L:=App) unit :=
  tryCatch
    (blob ← stop final;
     (webcam ← has_webcam; modify_app (resetRecording webcam)) ;;
     match blob with
     | Some b =>
         if bool_decide (0 < blob_size b) then modify_app (showSaveDialog b iso)
         else modify_app (showError "Recording failed - no data captured")
     | None => modify_app (showError "Recording failed - no data captured")
     end)
    (fun error =>
       modify_app (showError ("Failed to stop recording: " +:+ message error)) ;;
       webcam ← has_webcam;
       modify_app (resetRecording webcam)).

(** [cleanup()] of the application; the recorder's [cleanup()] is not
    awaited. *)
Definition cleanup : M (L:=App) unit :=
  (webcam ← has_webcam; modify_app (resetRecording webcam)) ;;
  detached cleanup.

(** ** The live statistics *)

(** [n.toString().padStart(2, "0")] *)
Definition padStart2 (n : Z) : string :=
  if bool_decide (String.length (pretty n) < 2) then "0" +:+ pretty n else pretty n.

(** [(bytes / (1024 * 1024)).toFixed(1)]: the division is exact, and
    [toFixed] rounds to the nearest tenth, halves up. *)
Definition toFixed1_MB (bytes : Number) : string :=
  match bytes with
  | Finite n =>
      let tenths := ((20 * N.of_nat n + 2 ^ 20) / 2 ^ 21)%N in
      pretty (tenths / 10)%N +:+ "." +:+ pretty (tenths mod 10)%N
  | NaN => "NaN"
  end.

(** [updateLiveStats()] *)
Definition updateLiveStats (a : App) : App :=
  let st := appState a in
  let minutes := (duration st / 60000)%Z in
  let seconds := (Z.rem (duration st) 60000 / 1000)%Z in
  let a := write "durationDisplay.textContent"
             (VString (padStart2 minutes +:+ ":" +:+ padStart2 seconds)) a in
  let a := write "fileSizeDisplay.textContent"
             (VString (toFixed1_MB (fileSize st) +:+ " MB")) a in
  write "droppedFramesDisplay.textContent" (VString (pretty (droppedFrames st))) a.

(** The [update] of [startUpdateLoop], called at time [now];
    [frame] is what [requestAnimationFrame] returns. *)
Definition update (now : Z) (frame : nat) (a : App) : App :=
  let st := appState a in
  if st_isRecording st then
    let a :=
      if isPaused st then a
      else set_appState (set_duration (now - default 0 (startTime st))%Z st) a in
    let a := updateLiveStats a in
    set_animationFrame (Some frame) (cancelledFrames a) a
  else a.

End App.

(** ** Further sample sessions

    Concrete values on which the further properties are instantiated. *)

Module Scenario.

Import Sample.

(** A host that grants both sources and records plain WebM only. *)
Definition plain_webm : Env :=
  {| getDisplayMedia := fun _ => Normal screen_stream;
     getUserMedia := fun _ => Normal webcam_stream;
     isTypeSupported := String.eqb "video/webm";
     new_Worker := Normal 7;
     new_Processors := Normal tt;
     generator := {| track_id := 5; kind := video |};
     new_AudioContext := Normal 9;
     mixed_tracks := Normal [ {| track_id := 6; kind := audio |} ];
     canvas_ready := Normal tt;
     captureStream := fun _ => [ {| track_id := 8; kind := video |} ] |}.

(** A host on which the user turns the screen share down. *)
Definition share_denied : Env :=
  {| getDisplayMedia := fun _ => Throw {| message := "Permission denied" |};
     getUserMedia := fun _ => Normal webcam_stream;
     isTypeSupported := String.eqb "video/webm";
     new_Worker := Normal 7;
     new_Processors := Normal tt;
     generator := {| track_id := 5; kind := video |};
     new_AudioContext := Normal 9;
     mixed_tracks := Normal [ {| track_id := 6; kind := audio |} ];
     canvas_ready := Normal tt;
     captureStream := fun _ => [ {| track_id := 8; kind := video |} ] |}.

(** A configuration with a mode the recorder does not know. *)
Definition audio_only : Config :=
  {| mode := "audio";
     cfg_video := {| width := 1280; height := 720; frameRate := 30 |};
     cfg_audio := {| system := true; mic := true |};
     deviceId := "";
     bitrate := {| bitrate_video := 5000000; bitrate_audio := 128000 |} |}.

(** Both sources granted, no acceleration capability. *)
Definition both_granted_plain : @State nat :=
  {| this :=
       {| mediaRecorder := None; chunks := [];
          streams := {| screen := Some screen_stream; webcam := Some webcam_stream;
                        combined := None |};
          capabilities := {| webCodecs := false; offscreenCanvas := false |};
          eventListeners := ∅; worker := None; canvas := None;
          canvasStream := None; audioContext := None; isRecording := false;
          maxChunks := 1000 |};
     host := {| live := {[1; 2; 3; 4]}; stopCalls := []; released := [];
                terminated := []; audioClosed := []; timers := [];
                acquisition := Pending; invoked := []; emitted := []; app := 0 |} |}.

(** A combined session recording the stream built on the worker's
    generator, the worker ready. *)
Definition accelerated_session : @State nat :=
  {| this :=
       {| mediaRecorder :=
            Some {| state := recording; mimeType := "video/webm";
                    mr_stream := [ {| track_id := 5; kind := video |};
                                   {| track_id := 6; kind := audio |} ];
                    videoBitsPerSecond := 5000000; audioBitsPerSecond := 128000;
                    timeslice := Some 1000 |};
          chunks := [chunk x01];
          streams := {| screen := Some screen_stream; webcam := Some webcam_stream;
                        combined := Some [ {| track_id := 5; kind := video |};
                                           {| track_id := 6; kind := audio |} ] |};
          capabilities := {| webCodecs := true; offscreenCanvas := true |};
          eventListeners := ∅; worker := Some 7; canvas := None;
          canvasStream := None; audioContext := Some 9; isRecording := true;
          maxChunks := 1000 |};
     host := {| live := {[1; 2; 3; 4; 5; 6]}; stopCalls := []; released := [];
                terminated := []; audioClosed := []; timers := [5000];
                acquisition := Fulfilled; invoked := []; emitted := []; app := 0 |} |}.

(** The page before anything was recorded. *)
Definition page0 : App.App :=
  {| App.appState := App.initial_state; App.elements := ∅;
     App.animationFrame := None; App.micAnalyzer := None;
     App.performanceMetrics :=
       {| App.pm_startTime := 0; App.chunkCount := 0; App.totalBytes := App.Finite 0 |};
     App.pendingBlob := None; App.hideTimers := []; App.cancelledFrames := [];
     App.closedAnalyzers := []; App.stoppedMicTracks := [] |}.

(** The page while a recording started at time 1000 runs. *)
Definition page_recording : App.App :=
  {| App.appState :=
       {| App.st_mode := "screen"; App.quality := "720p"; App.st_bitrate := 5000000;
          App.micEnabled := true; App.systemAudioEnabled := true;
          App.st_isRecording := true; App.isPaused := false; App.devices := [];
          App.selectedDevice := ""; App.startTime := Some 1000%Z; App.duration := 0;
          App.fileSize := App.Finite 0; App.droppedFrames := 0 |};
     App.elements := ∅;
     App.animationFrame := Some 1; App.micAnalyzer := None;
     App.performanceMetrics :=
       {| App.pm_startTime := 1000; App.chunkCount := 0;
          App.totalBytes := App.Finite 0 |};
     App.pendingBlob := None; App.hideTimers := []; App.cancelledFrames := [];
     App.closedAnalyzers := []; App.stoppedMicTracks := [] |}.

Definition with_page (page : App.App) (r : @Recorder App.App) (lv : gset nat)
  : @State App.App :=
  {| this := r;
     host := {| live := lv; stopCalls := []; released := []; terminated := [];
                audioClosed := []; timers := []; acquisition := Pending;
                invoked := []; emitted := []; app := page |} |}.

(** The application just constructed. *)
Definition app_fresh : @State App.App := with_page page0 constructor ∅.

(** The application recording the screen, its listeners registered,
    two chunks queued. *)
Definition app_recording : @State App.App :=
  with_page page_recording
    {| mediaRecorder :=
         Some {| state := recording; mimeType := "video/webm";
                 mr_stream := screen_stream;
                 videoBitsPerSecond := 5000000; audioBitsPerSecond := 128000;
                 timeslice := Some 1000 |};
       chunks := [chunk x01; chunk x02];
       streams := {| screen := Some screen_stream; webcam := None; combined := None |};
       capabilities := {| webCodecs := false; offscreenCanvas := false |};
       eventListeners :=
         {[ "dataavailable" := [App.on_dataavailable]; "error" := [App.on_error] ]};
       worker := None; canvas := None;
       canvasStream := None; audioContext := None; isRecording := true;
       maxChunks := 1000 |}
    {[1; 2]}.

(** Frames and ticks of the worker. *)
Definition frame (n : nat) : Compositor.VideoFrame :=
  {| Compositor.frame_id := n; Compositor.displayWidth := 1280;
     Compositor.displayHeight := 720; Compositor.timestamp := Some (Z.of_nat n) |}.

Definition tick (ms : Z) (halt : bool) (sr wr : Compositor.ReadResult) (id : nat)
  : Compositor.Tick :=
  {| Compositor.now := Compositor.num ms; Compositor.stop_message := halt;
     Compositor.s := sr; Compositor.w := wr;
     Compositor.draw_rejects := false; Compositor.composed_id := id |}.

End Scenario.

(** ** Vocabulary of the further properties *)

(** The constraints [setupStreams] hands to [getDisplayMedia] and to
    [getUserMedia], and the modes in which it calls them. *)
Definition display_constraints (config : Config) : DisplayConstraints :=
  {| dc_width := width (cfg_video config); dc_height := height (cfg_video config);
     dc_frameRate := frameRate (cfg_video config);
     dc_audio := system (cfg_audio config) |}.

Definition user_constraints (config : Config) : UserConstraints :=
  {| uc_width := width (cfg_video config); uc_height := height (cfg_video config);
     uc_frameRate := frameRate (cfg_video config);
     uc_deviceId :=
       if String.eqb (deviceId config) "" then None else Some (deviceId config);
     uc_audio := mic (cfg_audio config) |}.

Definition uses_display (config : Config) : bool :=
  String.eqb (mode config) "screen" || String.eqb (mode config) "combined".

Definition uses_webcam (config : Config) : bool :=
  String.eqb (mode config) "webcam" || String.eqb (mode config) "combined".

Section Frames.

Context {L : Type}.

(** Whatever way [m] completes, the state it leaves is related by [R]
    to the state it started from. *)
Definition keeps {A} (R : relation (@State L)) (m : M A) : Prop :=
  forall s, R s (m s).2.

(** The screen and webcam slots hold what they held. *)
Definition same_sources (s s' : @State L) : Prop :=
  screen (streams (this s')) = screen (streams (this s)) /\
  webcam (streams (this s')) = webcam (streams (this s)).

(** The queue bound and the registered listeners are what they were. *)
Definition same_settings (s s' : @State L) : Prop :=
  maxChunks (this s') = maxChunks (this s) /\
  eventListeners (this s') = eventListeners (this s).

(** The encoder and its queue are what they were. *)
Definition same_recording (s s' : @State L) : Prop :=
  mediaRecorder (this s') = mediaRecorder (this s) /\
  chunks (this s') = chunks (this s).

(** The audio both mixers put beside the video: nothing when no track
    was collected; the audio tracks of the mixing graph's destination
    when the graph could be built; the first collected track
    otherwise. *)
Definition mixed_audio (env : Env) (config : Config) (r : @Recorder L) : list Track :=
  match collect_audio config r with
  | [] => []
  | first :: _ =>
      match new_AudioContext env, mixed_tracks env with
      | Normal _, Normal out => getAudioTracks out
      | _, _ => [first]
      end
  end.

End Frames.

(** * Properties *)

Section Properties.

Context {L : Type}.

Implicit Types (s : @State L) (r : @Recorder L) (h : @Host L).

Ltac munfold :=
  unfold mbind, M_bind, mret, M_ret, get_this, get_host, modify_this,
    modify_host, lift, throw_Error, throw, tryCatch, detached in *.

(** ** [pause] and [resume] *)

Lemma pause_run s :
  pause s =
  (Normal tt,
   match mediaRecorder (this s) with
   | Some mr =>
       match state mr with
       | recording =>
           {| this := set_mediaRecorder (Some (mr_with_state paused mr)) (this s);
              host := host s |}
       | _ => s
       end
   | None => s
   end).
Proof.
  unfold pause. munfold. destruct s as [r h]; simpl.
  destruct (mediaRecorder r) as [mr|]; [|reflexivity].
  unfold MediaRecorder_pause.
  destruct (state mr) eqn:Es; try reflexivity.
Qed.

Lemma resume_run s :
  resume s =
  (Normal tt,
   match mediaRecorder (this s) with
   | Some mr =>
       match state mr with
       | paused =>
           {| this := set_mediaRecorder (Some (mr_with_state recording mr)) (this s);
              host := host s |}
       | _ => s
       end
   | None => s
   end).
Proof.
  unfold resume. munfold. destruct s as [r h]; simpl.
  destruct (mediaRecorder r) as [mr|]; [|reflexivity].
  unfold MediaRecorder_resume.
  destruct (state mr) eqn:Es; try reflexivity.
Qed.

(** C4. [pause()] and [resume()] never throw; [pause()] changes the
    state only when the encoder is recording, and then only the
    encoder's state, to paused; [resume()] only when it is paused, to
    recording; in every other state, also with no recorder (before
    [start], after [stop]), each leaves the whole state as it was. *)
Theorem pause_resume_guarded s :
  (exists s', pause s = (Normal tt, s') /\
     (gs_state (getState (this s)) = recording ->
        exists mr, mediaRecorder (this s) = Some mr /\
          s' = {| this := set_mediaRecorder (Some (mr_with_state paused mr)) (this s);
                  host := host s |} /\
          gs_state (getState (this s')) = paused) /\
     (gs_state (getState (this s)) <> recording -> s' = s)) /\
  (exists s', resume s = (Normal tt, s') /\
     (gs_state (getState (this s)) = paused ->
        exists mr, mediaRecorder (this s) = Some mr /\
          s' = {| this := set_mediaRecorder (Some (mr_with_state recording mr)) (this s);
                  host := host s |} /\
          gs_state (getState (this s')) = recording) /\
     (gs_state (getState (this s)) <> paused -> s' = s)).
Proof.
  split.
  - eexists. split; [apply pause_run|]. unfold getState; simpl.
    destruct (mediaRecorder (this s)) as [mr|] eqn:E; simpl.
    + destruct (state mr) eqn:Es; split; try congruence; intros _.
      exists mr. simpl. auto.
    + split; [discriminate | reflexivity].
  - eexists. split; [apply resume_run|]. unfold getState; simpl.
    destruct (mediaRecorder (this s)) as [mr|] eqn:E; simpl.
    + destruct (state mr) eqn:Es; split; try congruence; intros _.
      exists mr. simpl. auto.
    + split; [discriminate | reflexivity].
Qed.

(** ** Listeners *)

Lemma set_invoked_same h : set_invoked (invoked h ++ []) (app h) h = h.
Proof. destruct h; unfold set_invoked; simpl. by rewrite app_nil_r. Qed.

Lemma listeners_run data (cbs : list (@Callback L)) s :
  forEach cbs (fun cb => tryCatch (call cb data) (fun error => mret tt)) s =
  (Normal tt,
   {| this := this s;
      host := set_invoked
                (invoked (host s) ++ map (fun cb => (cb_id cb, data)) cbs)
                (foldl (fun a cb => (cb_run cb data a).2) (app (host s)) cbs)
                (host s) |}).
Proof.
  revert s. induction cbs as [|cb cbs IH]; intros [r h]; simpl.
  - munfold. by rewrite set_invoked_same.
  - unfold mbind, M_bind. unfold tryCatch at 1. unfold call at 1. simpl.
    destruct (cb_run cb data (app h)) as [[[]|e] a] eqn:E; simpl;
      try unfold mret at 1, M_ret at 1;
      rewrite IH; simpl; unfold set_invoked; simpl;
      by rewrite <- app_assoc.
Qed.

Lemma emit_run event data s : emit event data s = (Normal tt, after_emit event data s).
Proof.
  unfold emit, after_emit. unfold mbind, M_bind, modify_host, get_this.
  destruct s as [r h]; simpl.
  destruct (eventListeners r !! event) as [cbs|] eqn:E; simpl.
  - by rewrite listeners_run.
  - unfold set_invoked, set_emitted; simpl. by rewrite app_nil_r.
Qed.

Lemma on_run event cb s :
  on event cb s =
  (Normal tt,
   {| this := set_eventListeners
                (<[event := default [] (eventListeners (this s) !! event) ++ [cb]]>
                   (eventListeners (this s))) (this s);
      host := host s |}).
Proof.
  unfold on. munfold. destruct s as [r h]; simpl.
  destruct (eventListeners r !! event) as [cbs|] eqn:E; simpl.
  -
    do 2 f_equal. unfold set_eventListeners; simpl. f_equal.
    apply map_eq; intros k. destruct (decide (event = k)) as [->|Hne].
    + by rewrite lookup_alter_eq, lookup_insert_eq, E.
    + by rewrite lookup_alter_ne, lookup_insert_ne.
  -
    do 2 f_equal. unfold set_eventListeners; simpl. f_equal.
    apply map_eq; intros k. destruct (decide (event = k)) as [->|Hne].
    + by rewrite lookup_alter_eq, !lookup_insert_eq.
    + by rewrite lookup_alter_ne, !lookup_insert_ne.
Qed.

Lemma register_run event (cbs : list (@Callback L)) s :
  forEach cbs (on event) s =
  (Normal tt,
   match cbs with
   | [] => s
   | _ =>
       {| this := set_eventListeners
                    (<[event := default [] (eventListeners (this s) !! event) ++ cbs]>
                       (eventListeners (this s))) (this s);
          host := host s |}
   end).
Proof.
  revert s. induction cbs as [|cb cbs IH]; intros s; [reflexivity|].
  simpl. munfold. rewrite on_run. rewrite IH. simpl. f_equal.
  destruct cbs as [|cb' cbs]; [reflexivity|].
  f_equal. unfold set_eventListeners; simpl. f_equal.
  rewrite lookup_insert_eq. simpl. rewrite insert_insert_eq.
  by rewrite <- app_assoc.
Qed.

(** C10. Whatever listeners are registered for an event, and whichever
    of them throw, [emit(event, data)] completes normally and calls
    every one of them with [data], in the order [on] registered them;
    each runs on the application state its predecessor left, thrown
    or not. *)
Theorem emit_survives_throwing_listeners s event data (cbs : list (@Callback L)) :
  let registered := default [] (eventListeners (this s) !! event) ++ cbs in
  exists s1 s2,
    forEach cbs (on event) s = (Normal tt, s1) /\
    emit event data s1 = (Normal tt, s2) /\
    invoked (host s2) =
      invoked (host s) ++ map (fun cb => (cb_id cb, data)) registered /\
    app (host s2) =
      foldl (fun a cb => (cb_run cb data a).2) (app (host s)) registered /\
    this s2 = this s1.
Proof.
  intros registered. eexists. eexists.
  split; [apply register_run|]. split; [apply emit_run|].
  unfold after_emit, registered. destruct cbs as [|cb cbs]; simpl.
  - rewrite app_nil_r. auto.
  - rewrite lookup_insert_eq. simpl. auto.
Qed.


(** ** The chunk queue *)

Lemma ondataavailable_run e_data s :
  ondataavailable e_data s =
  (Normal tt,
   match e_data with
   | Some data =>
       if bool_decide (0 < blob_size data) then
         after_emit "dataavailable" (DBlob data)
           {| this := set_chunks (enqueue (maxChunks (this s)) (chunks (this s)) data)
                        (this s);
              host := host s |}
       else s
   | None => s
   end).
Proof.
  unfold ondataavailable. destruct e_data as [data|]; [|reflexivity].
  destruct (bool_decide (0 < blob_size data)); [|reflexivity].
  unfold mbind, M_bind, get_this, modify_this. destruct s as [r h]; simpl.
  unfold enqueue.
  destruct (bool_decide (maxChunks r <= length (chunks r))); simpl;
    by rewrite emit_run.
Qed.

(** C3. A flush whose payload is non-empty puts that payload at the
    back of the queue (after the eviction the bound asks for) and
    emits exactly one [dataavailable] event, which carries the payload
    and so its size; a flush with a missing or empty payload leaves
    the whole state as it was: no queue change, no event. *)
Theorem flush_enqueues_iff_nonempty s e_data :
  exists s', ondataavailable e_data s = (Normal tt, s') /\
    (forall data, e_data = Some data -> 0 < blob_size data ->
       chunks (this s') = enqueue (maxChunks (this s)) (chunks (this s)) data /\
       list.last (chunks (this s')) = Some data /\
       emitted (host s') = emitted (host s) ++ [("dataavailable", DBlob data)]) /\
    ((forall data, e_data = Some data -> blob_size data = 0) -> s' = s) /\
    (length (emitted (host s')) = S (length (emitted (host s))) <->
       exists data, e_data = Some data /\ 0 < blob_size data).
Proof.
  eexists. split; [apply ondataavailable_run|].
  destruct e_data as [data|].
  - destruct (bool_decide (0 < blob_size data)) eqn:E.
    + apply bool_decide_eq_true in E. split; [|split; [|split]].
      * intros d [= <-] _. simpl. unfold enqueue. by rewrite last_snoc.
      * intros H. specialize (H data eq_refl). lia.
      * intros _. eauto.
      * intros _. simpl. rewrite length_app. simpl. lia.
    + apply bool_decide_eq_false in E. split; [|split; [|split]].
      * intros d [= <-] ?. lia.
      * done.
      * intros H. lia.
      * intros (d & [= <-] & ?). lia.
  - split; [|split; [|split]].
    + intros d [=].
    + done.
    + intros H. lia.
    + intros (d & [=] & _).
Qed.

Lemma arrivals_run (payloads : list (option Blob)) s :
  exists s', forEach payloads ondataavailable s = (Normal tt, s') /\
    maxChunks (this s') = maxChunks (this s) /\
    chunks (this s') =
      foldl (enqueue (maxChunks (this s))) (chunks (this s)) (recorded payloads).
Proof.
  revert s. induction payloads as [|p ps IH]; intros s.
  - exists s. auto.
  - simpl. unfold mbind, M_bind. rewrite ondataavailable_run.
    destruct p as [data|]; simpl.
    + unfold recorded. simpl. rewrite filter_cons.
      destruct (bool_decide (0 < blob_size data)) eqn:E.
      * apply bool_decide_eq_true in E. rewrite decide_True by done.
        edestruct IH as (s' & -> & Hm & Hc). exists s'. split; [done|].
        simpl in *. auto.
      * apply bool_decide_eq_false in E. rewrite decide_False by done.
        apply IH.
    + apply IH.
Qed.

Lemma lastn_length {A} n (l : list A) : length (lastn n l) = min n (length l).
Proof. unfold lastn. rewrite length_drop. lia. Qed.

Lemma tail_drop {A} k (l : list A) : tail (drop k l) = drop (S k) l.
Proof.
  revert l. induction k as [|k IH]; intros [|x l]; simpl; try reflexivity.
  apply IH.
Qed.

Lemma enqueue_lastn max (l : list Blob) b :
  1 <= max -> enqueue max (lastn max l) b = lastn max (l ++ [b]).
Proof.
  intros Hmax. unfold enqueue. rewrite lastn_length. unfold lastn.
  rewrite length_app. simpl.
  destruct (bool_decide (max <= min max (length l))) eqn:E.
  - apply bool_decide_eq_true in E.
    replace (length l + 1 - max) with (S (length l - max)) by lia.
    rewrite drop_app_le by lia. f_equal.
    by rewrite tail_drop.
  - apply bool_decide_eq_false in E.
    replace (length l - max) with 0 by lia.
    replace (length l + 1 - max) with 0 by lia. reflexivity.
Qed.

Lemma queue_is_lastn max (q bs : list Blob) :
  1 <= max -> length q <= max ->
  foldl (enqueue max) q bs = lastn max (q ++ bs).
Proof.
  intros Hmax Hq. induction bs as [|b bs IH] using rev_ind.
  - simpl. rewrite app_nil_r. unfold lastn.
    by replace (length q - max) with 0 by lia.
  - rewrite foldl_snoc, IH, app_assoc. by apply enqueue_lastn.
Qed.

(** C1. With a positive bound and a queue within it (the constructor
    sets 1000, [setupRecorder] empties the queue), after any run of
    flushes the queue is within [maxChunks] and holds the last
    [maxChunks] of the chunks it was given, in arrival order; so once
    more than [maxChunks] non-empty chunks arrived it holds exactly
    the last [maxChunks] of them, only the oldest having been dropped. *)
Theorem chunk_queue_bounded s (payloads : list (option Blob)) :
  1 <= maxChunks (this s) ->
  length (chunks (this s)) <= maxChunks (this s) ->
  exists s', forEach payloads ondataavailable s = (Normal tt, s') /\
    maxChunks (this s') = maxChunks (this s) /\
    length (chunks (this s')) <= maxChunks (this s) /\
    chunks (this s') =
      lastn (maxChunks (this s)) (chunks (this s) ++ recorded payloads) /\
    (maxChunks (this s) < length (recorded payloads) ->
       length (chunks (this s')) = maxChunks (this s) /\
       chunks (this s') = lastn (maxChunks (this s)) (recorded payloads)).
Proof.
  intros Hmax Hq.
  destruct (arrivals_run payloads s) as (s' & Hrun & Hm & Hc).
  exists s'. rewrite queue_is_lastn in Hc by done.
  split; [done|]. split; [done|]. rewrite Hc. split; [|split; [done|]].
  - rewrite lastn_length. lia.
  - intros Hn. split; [rewrite lastn_length, length_app; lia|].
    unfold lastn. rewrite length_app.
    rewrite drop_app_ge by lia. f_equal. lia.
Qed.


(** ** Teardown *)

Lemma stop_tracks_run (ts : list Track) s :
  forEach ts Track_stop s =
  (Normal tt, {| this := this s; host := foldl Track_stopped (host s) ts |}).
Proof.
  revert s. induction ts as [|t ts IH]; intros [r h]; simpl; [reflexivity|].
  unfold mbind, M_bind. unfold Track_stop at 1, modify_host. simpl.
  by rewrite IH.
Qed.

Lemma cleanup_mediaRecorder_run s :
  cleanup_mediaRecorder s =
  (Normal tt, {| this := set_mediaRecorder None (this s); host := host s |}).
Proof.
  unfold cleanup_mediaRecorder. munfold. destruct s as [r h]. simpl.
  destruct (mediaRecorder r) as [mr|]; [|reflexivity].
  unfold MediaRecorder_stop. destruct (state mr); reflexivity.
Qed.

Lemma cleanup_streams_run s :
  cleanup_streams s =
  (Normal tt,
   {| this := set_streams no_streams (this s);
      host := foldl Track_stopped (host s)
                (default [] (screen (streams (this s))) ++
                 default [] (webcam (streams (this s))) ++
                 default [] (combined (streams (this s)))) |}).
Proof.
  unfold cleanup_streams, Streams_values.
  unfold mbind, M_bind, get_this, modify_this. destruct s as [r h]. simpl.
  rewrite !foldl_app.
  destruct (screen (streams r)), (webcam (streams r)), (combined (streams r)); simpl;
    unfold mbind, M_bind; rewrite ?stop_tracks_run; simpl;
    rewrite ?stop_tracks_run; simpl; rewrite ?stop_tracks_run; reflexivity.
Qed.

Lemma cleanup_canvasStream_run s :
  cleanup_canvasStream s =
  (Normal tt,
   {| this := set_canvasStream None (this s);
      host := foldl Track_stopped (host s) (default [] (canvasStream (this s))) |}).
Proof.
  unfold cleanup_canvasStream.
  unfold mbind, M_bind, get_this, modify_this. destruct s as [r h]. simpl.
  destruct r as [mr ch st cap ev wk cv [cs|] ac ir mx]; simpl; [|reflexivity].
  by rewrite stop_tracks_run.
Qed.

Lemma cleanup_audioContext_run s :
  cleanup_audioContext s =
  (Normal tt,
   {| this := set_audioContext None (this s);
      host := match audioContext (this s) with
              | Some ctx =>
                  if bool_decide (ctx ∈ audioClosed (host s)) then host s
                  else set_audioClosed (audioClosed (host s) ++ [ctx]) (host s)
              | None => host s
              end |}).
Proof.
  unfold cleanup_audioContext, AudioContext_close. munfold.
  destruct s as [r h]. simpl.
  destruct r as [mr ch st cap ev wk cv cs [ctx|] ir mx]; simpl; [|reflexivity].
  destruct (bool_decide (ctx ∈ audioClosed h)); reflexivity.
Qed.

Lemma cleanup_worker_run s :
  cleanup_worker s =
  (Normal tt,
   {| this := set_worker None (this s);
      host := match worker (this s) with
              | Some w => set_terminated (terminated (host s) ++ [w]) (host s)
              | None => host s
              end |}).
Proof.
  unfold cleanup_worker, Worker_terminate. munfold.
  destruct s as [r h]. simpl.
  destruct r as [mr ch st cap ev [w|] cv cs ac ir mx]; reflexivity.
Qed.

Lemma cleanup_canvas_run s :
  cleanup_canvas s =
  (Normal tt, {| this := set_canvas None (this s); host := host s |}).
Proof.
  unfold cleanup_canvas. munfold. destruct s as [r h]. simpl.
  destruct r as [mr ch st cap ev wk [c|] cs ac ir mx]; reflexivity.
Qed.

Lemma cleanup_run s : cleanup s = (Normal tt, after_cleanup s).
Proof.
  unfold cleanup, after_cleanup, stopped_by_cleanup.
  unfold mbind, M_bind. unfold modify_this at 1.
  rewrite cleanup_mediaRecorder_run, cleanup_streams_run, cleanup_canvasStream_run,
    cleanup_audioContext_run, cleanup_worker_run, cleanup_canvas_run.
  unfold modify_this. destruct s as [r h]. destruct r. simpl.
  rewrite !foldl_app. reflexivity.
Qed.


Lemma stopped_live (ts : list Track) h :
  live (foldl Track_stopped h ts) = live h ∖ list_to_set (map track_id ts).
Proof.
  revert h. induction ts as [|t ts IH]; intros h.
  - apply set_eq; intros x.
    rewrite elem_of_difference, elem_of_list_to_set, elem_of_nil. simpl. tauto.
  - change (foldl Track_stopped h (t :: ts))
      with (foldl Track_stopped (Track_stopped h t) ts).
    rewrite IH. apply set_eq; intros x.
    rewrite !elem_of_difference, !elem_of_list_to_set. simpl map.
    rewrite elem_of_cons. unfold Track_stopped.
    case_bool_decide as E; simpl;
      rewrite ?elem_of_difference, ?elem_of_singleton; naive_solver.
Qed.

Lemma stopped_other (ts : list Track) h :
  terminated (foldl Track_stopped h ts) = terminated h /\
  audioClosed (foldl Track_stopped h ts) = audioClosed h /\
  timers (foldl Track_stopped h ts) = timers h /\
  acquisition (foldl Track_stopped h ts) = acquisition h /\
  invoked (foldl Track_stopped h ts) = invoked h /\
  emitted (foldl Track_stopped h ts) = emitted h /\
  app (foldl Track_stopped h ts) = app h.
Proof.
  revert h. induction ts as [|t ts IH]; intros h; simpl; [auto 10|].
  destruct (IH (Track_stopped h t)) as (-> & -> & -> & -> & -> & -> & ->).
  unfold Track_stopped. destruct (bool_decide (track_id t ∈ live h)); simpl; auto 10.
Qed.

Lemma stopped_releases (ts : list Track) h t :
  releases (foldl Track_stopped h ts) t =
  releases h t +
  (if bool_decide (t ∈ live h /\ t ∈ map track_id ts) then 1 else 0).
Proof.
  unfold releases. revert h. induction ts as [|t0 ts IH]; intros h; simpl.
  - rewrite bool_decide_eq_false_2; [lia|]. intros [_ H]. by apply elem_of_nil in H.
  - rewrite IH. unfold Track_stopped.
    case_bool_decide as E; simpl; rewrite ?count_occ_app; simpl;
      destruct (Nat.eq_dec (track_id t0) t) as [Heq|Hne];
      repeat case_bool_decide;
      rewrite ?elem_of_cons, ?elem_of_difference, ?elem_of_singleton in *;
      try lia; exfalso; naive_solver.
Qed.

Lemma after_cleanup_live s :
  live (host (after_cleanup s)) =
  live (host s) ∖ list_to_set (held_tracks (this s)).
Proof.
  unfold after_cleanup, held_tracks. simpl.
  rewrite <- stopped_live.
  destruct (worker (this s)), (audioContext (this s)); simpl;
    try match goal with |- context [bool_decide ?P] => destruct (bool_decide P) end;
    reflexivity.
Qed.

Lemma after_cleanup_releases s t :
  releases (host (after_cleanup s)) t =
  releases (foldl Track_stopped (host s) (stopped_by_cleanup (this s))) t.
Proof.
  unfold after_cleanup, releases. simpl.
  destruct (worker (this s)), (audioContext (this s)); simpl;
    try match goal with |- context [bool_decide ?P] => destruct (bool_decide P) end;
    reflexivity.
Qed.

Lemma cleanup_to_await_run s :
  cleanup_to_await s =
  match audioContext (this s) with
  | Some ctx =>
      (Normal true,
       {| this :=
            set_canvasStream None (set_streams no_streams
              (set_mediaRecorder None (set_isRecording false (this s))));
          host :=
            let h1 := foldl Track_stopped (host s) (stopped_by_cleanup (this s)) in
            if bool_decide (ctx ∈ audioClosed h1) then h1
            else set_audioClosed (audioClosed h1 ++ [ctx]) h1 |})
  | None => (Normal false, after_cleanup s)
  end.
Proof.
  unfold cleanup_to_await, after_cleanup, stopped_by_cleanup.
  unfold mbind at 1, M_bind at 1. unfold modify_this at 1.
  unfold mbind at 1, M_bind at 1. rewrite cleanup_mediaRecorder_run.
  unfold mbind at 1, M_bind at 1. rewrite cleanup_streams_run.
  unfold mbind at 1, M_bind at 1. rewrite cleanup_canvasStream_run.
  unfold mbind at 1, M_bind at 1. unfold get_this at 1.
  destruct s as [r h]. destruct r as [mr ch st cap ev wk cv cs ac ir mx]. simpl.
  rewrite !foldl_app. destruct ac as [ctx|].
  - unfold mbind, M_bind, tryCatch, AudioContext_close.
    unfold mbind, M_bind, get_host, throw, modify_host. simpl.
    match goal with |- context [bool_decide ?P] => destruct (bool_decide P) end;
      reflexivity.
  - unfold mbind, M_bind. rewrite cleanup_worker_run, cleanup_canvas_run.
    destruct wk; reflexivity.
Qed.

Lemma cleanup_from_await_run s :
  cleanup_from_await s =
  (Normal tt,
   {| this := set_chunks [] (set_canvas None (set_worker None
                (set_audioContext None (this s))));
      host := match worker (this s) with
              | Some w => set_terminated (terminated (host s) ++ [w]) (host s)
              | None => host s
              end |}).
Proof.
  unfold cleanup_from_await.
  unfold mbind, M_bind. unfold modify_this at 1.
  rewrite cleanup_worker_run, cleanup_canvas_run. reflexivity.
Qed.

(** The two calls of [cleanup(); cleanup();] end in the state one
    awaited [cleanup()] leaves. *)
Lemma cleanup_twice_unawaited_run s :
  cleanup_twice_unawaited s = (Normal tt, after_cleanup s).
Proof.
  unfold cleanup_twice_unawaited.
  unfold mbind at 1, M_bind at 1. rewrite cleanup_to_await_run.
  destruct (audioContext (this s)) as [ctx|] eqn:Eac.
  - unfold mbind at 1, M_bind at 1. rewrite cleanup_to_await_run.
    destruct s as [r h]. destruct r as [mr ch st cap ev wk cv cs ac ir mx].
    simpl in *. subst ac. simpl.
    unfold mbind, M_bind. rewrite !cleanup_from_await_run.
    unfold after_cleanup. simpl.
    set (h1 := foldl Track_stopped h (stopped_by_cleanup _)).
    destruct (bool_decide (ctx ∈ audioClosed h1)) eqn:E1; simpl.
    + rewrite E1. destruct wk; reflexivity.
    + rewrite bool_decide_eq_true_2
        by (apply elem_of_app; right; apply elem_of_cons; by left).
      destruct wk; reflexivity.
  - unfold mbind at 1, M_bind at 1. rewrite cleanup_to_await_run. simpl.
    unfold mbind, M_bind. reflexivity.
Qed.

(** C9. [cleanup()], awaited, always completes; a second [cleanup()]
    right after it changes nothing at all (no track is stopped again,
    no worker terminated, no context closed), and two calls that are
    not awaited end in the same state.  That state has every stream
    slot null, no recorder, no worker, no canvas stream or audio
    context and an empty queue; no track the recorder held is live
    any more; and over both calls the source of every held track that
    was live was told exactly once that the track ended, the other
    tracks not at all. *)
Theorem cleanup_idempotent s :
  exists s1,
    cleanup s = (Normal tt, s1) /\
    cleanup s1 = (Normal tt, s1) /\
    cleanup_twice_unawaited s = (Normal tt, s1) /\
    torn_down (this s1) /\
    held_tracks (this s1) = [] /\
    (forall t, t ∈ held_tracks (this s) -> t ∉ live (host s1)) /\
    (forall t, t ∈ held_tracks (this s) -> t ∈ live (host s) ->
       releases (host s1) t = S (releases (host s) t)) /\
    (forall t, t ∉ held_tracks (this s) \/ t ∉ live (host s) ->
       releases (host s1) t = releases (host s) t).
Proof.
  exists (after_cleanup s).
  split; [apply cleanup_run|].
  split; [|split; [|split; [|split; [|split; [|split]]]]].
  - rewrite cleanup_run. f_equal.
  - apply cleanup_twice_unawaited_run.
  - unfold torn_down; simpl. auto 10.
  - reflexivity.
  - intros t Ht. rewrite after_cleanup_live, elem_of_difference, elem_of_list_to_set.
    tauto.
  - intros t Ht Hl. rewrite after_cleanup_releases, stopped_releases.
    fold (held_tracks (this s)).
    rewrite bool_decide_eq_true_2 by done. lia.
  - intros t Ht. rewrite after_cleanup_releases, stopped_releases.
    fold (held_tracks (this s)).
    rewrite bool_decide_eq_false_2 by tauto. lia.
Qed.


(** ** [stop] *)

Lemma handleStop_run s mr :
  mediaRecorder (this s) = Some mr ->
  handleStop s =
  (Normal (Some (new_Blob (chunks (this s))
                   (if String.eqb (mimeType mr) "" then "video/webm" else mimeType mr))),
   after_cleanup s).
Proof.
  intros Hmr. unfold handleStop.
  unfold tryCatch at 1. unfold mbind, M_bind, get_this. rewrite Hmr.
  unfold detached, tryCatch. rewrite cleanup_run. reflexivity.
Qed.

(** The queue when the recorder's [stop] event fires: the queue at the
    call, after the last flush if the recorder was still active. *)
Lemma stop_run s mr final :
  mediaRecorder (this s) = Some mr ->
  exists s',
    stop final s =
    (Normal (Some (new_Blob
       (if is_active (state mr) then chunks (this (ondataavailable final s).2)
        else chunks (this s))
       (if String.eqb (mimeType mr) "" then "video/webm" else mimeType mr))), s') /\
    torn_down (this s').
Proof.
  intros Hmr. unfold stop. unfold mbind, M_bind, get_this. rewrite Hmr.
  destruct (is_active (state mr)) eqn:Ea.
  - unfold lift, MediaRecorder_stop.
    assert (Hst : match state mr with
                  | inactive => Throw InvalidStateError
                  | _ => Normal (mr_with_state inactive mr)
                  end = Normal (mr_with_state inactive mr)).
    { destruct (state mr); [discriminate|reflexivity|reflexivity]. }
    rewrite Hst. unfold modify_this. simpl.
    rewrite !ondataavailable_run.
    destruct final as [data|]; simpl;
      [destruct (bool_decide (0 < blob_size data))|];
      (eexists; split;
       [ rewrite (handleStop_run _ (mr_with_state inactive mr)); [reflexivity|reflexivity]
       | unfold torn_down, after_cleanup; simpl; auto 10 ]).
  - eexists. split.
    + by apply handleStop_run.
    + unfold torn_down, after_cleanup; simpl. auto 10.
Qed.

(** C2. On a session with a recorder, [stop()] never throws: its
    promise resolves with a blob whose bytes are the chunks of the
    queue, concatenated in queue order, the queue being the one the
    last flush leaves when the recorder was still recording or paused.
    If the queue was empty and that flush brings nothing, the blob has
    size 0. *)
Theorem stop_concatenates_queue s mr final :
  mediaRecorder (this s) = Some mr ->
  exists blob queue s',
    stop final s = (Normal (Some blob), s') /\
    queue = (if is_active (state mr)
             then chunks (this (ondataavailable final s).2)
             else chunks (this s)) /\
    blob_bytes blob = concat (map blob_bytes queue) /\
    (chunks (this s) = [] -> recorded [final] = [] ->
       queue = [] /\ blob_size blob = 0).
Proof.
  intros Hmr. destruct (stop_run s mr final Hmr) as (s' & Hrun & _).
  eexists. eexists. exists s'. split; [exact Hrun|].
  split; [reflexivity|]. split; [reflexivity|].
  intros Hq Hf.
  assert (Hempty : (if is_active (state mr)
                    then chunks (this (ondataavailable final s).2)
                    else chunks (this s)) = []).
  { destruct (is_active (state mr)); [|exact Hq].
    rewrite ondataavailable_run. simpl.
    destruct final as [data|]; simpl; [|exact Hq].
    unfold recorded in Hf. simpl in Hf. rewrite filter_cons in Hf.
    case_bool_decide as E; [|exact Hq].
    rewrite decide_True in Hf by done. discriminate. }
  split; [exact Hempty|]. unfold blob_size. simpl. by rewrite Hempty.
Qed.


(** ** The combined stream *)

Lemma combineAudioTracks_summary env config s :
  is_Some (canvasStream (this s)) ->
  exists c s', combineAudioTracks env config s = (c, s') /\
    same_acceleration s s' /\
    canvas (this s') = canvas (this s) /\
    canvasStream (this s') = canvasStream (this s) /\
    (c = Normal tt -> is_Some (combined (streams (this s')))).
Proof.
  intros [cs Hcs]. unfold combineAudioTracks, same_acceleration.
  unfold mbind at 1, M_bind at 1. unfold get_this at 1. destruct s as [r h]. simpl in *.
  destruct (collect_audio config r) as [|a rest] eqn:Eau.
  - unfold modify_this. simpl. eexists _, _. split; [reflexivity|]. simpl.
    rewrite Hcs. repeat split; eauto.
  - unfold canvasStream_getVideoTracks.
    unfold tryCatch, mbind, M_bind, lift, modify_this, acquire, modify_host, get_this.
    simpl.
    destruct (new_AudioContext env) as [ctx|e]; simpl.
    + destruct (mixed_tracks env) as [out|e]; simpl; rewrite Hcs;
        (eexists _, _; split; [reflexivity|]; simpl; repeat split; eauto).
    + rewrite Hcs. eexists _, _. split; [reflexivity|]. simpl. repeat split; eauto.
Qed.

Lemma canvas_path_summary env config s :
  exists c s', createCombinedStreamCanvas env config s = (c, s') /\
    same_acceleration s s' /\
    canvas (this s') = Some (canvas_for config) /\
    (c = Normal tt ->
       is_Some (combined (streams (this s'))) /\
       canvasStream (this s') =
         Some (captureStream env (frameRate (cfg_video config)))).
Proof.
  unfold createCombinedStreamCanvas.
  unfold mbind, M_bind, modify_this, lift, acquire, modify_host.
  destruct s as [r h]. simpl.
  destruct (canvas_ready env) as [[]|e]; simpl.
  - match goal with |- context [combineAudioTracks env config ?s0] =>
      destruct (combineAudioTracks_summary env config s0)
        as (c & s' & Hrun & Hsame & Hcv & Hcs & Hok); [simpl; eauto|]
    end.
    rewrite Hrun. exists c, s'. split; [by destruct c as [[]|]|].
    unfold same_acceleration in *. simpl in *.
    destruct Hsame as (-> & -> & -> & ->). rewrite Hcv, Hcs. auto.
  - eexists _, _. split; [reflexivity|]. unfold same_acceleration. simpl.
    repeat split; auto; discriminate.
Qed.

Lemma combineAudioWithVideoTrack_summary env videoTrack config s :
  exists stream s',
    combineAudioWithVideoTrack env videoTrack config s = (Normal stream, s') /\
    same_acceleration s s' /\
    streams (this s') = streams (this s) /\
    videoTrack ∈ stream.
Proof.
  unfold combineAudioWithVideoTrack, same_acceleration.
  unfold mbind, M_bind, get_this. destruct s as [r h]. simpl.
  destruct (collect_audio config r) as [|a rest] eqn:Eau.
  - eexists _, _. split; [reflexivity|]. simpl. repeat split; auto.
    apply elem_of_cons; by left.
  - unfold tryCatch, mbind, M_bind, lift, modify_this, acquire, modify_host. simpl.
    destruct (new_AudioContext env) as [ctx|e]; simpl.
    + destruct (mixed_tracks env) as [out|e]; simpl;
        (eexists _, _; split; [reflexivity|]; simpl; repeat split; auto;
         apply elem_of_cons; by left).
    + eexists _, _. split; [reflexivity|]. simpl. repeat split; auto.
      apply elem_of_cons; by left.
Qed.


Lemma fallbackToCanvas_run env config s w :
  worker (this s) = Some w ->
  fallbackToCanvas env config s =
  createCombinedStreamCanvas env config (worker_terminated w s).
Proof.
  intros Hw. unfold fallbackToCanvas.
  unfold mbind at 1, M_bind at 1. unfold tryCatch.
  unfold mbind, M_bind, get_this. rewrite Hw. reflexivity.
Qed.

Lemma onError_run env config msg s w :
  worker (this s) = Some w ->
  onError env config msg s =
  match createCombinedStreamCanvas env config (worker_terminated w s) with
  | (Normal _, s2) => resolve s2
  | (Throw e, s2) => reject e s2
  end.
Proof.
  intros Hw. unfold onError, tryCatch. unfold mbind, M_bind.
  rewrite (fallbackToCanvas_run env config s w Hw).
  destruct (createCombinedStreamCanvas env config (worker_terminated w s))
    as [[[]|e] s2]; reflexivity.
Qed.




(** ** Codec negotiation and the rollback of [start] *)

Lemma selectMimeType_first supported (pre post : list string) z :
  (forall x, x ∈ pre -> supported x = false) ->
  supported z = true ->
  selectMimeType supported (pre ++ z :: post) = Some z.
Proof.
  intros Hpre Hz. induction pre as [|p pre IH]; simpl.
  - by rewrite Hz.
  - rewrite (Hpre p) by (apply elem_of_cons; by left).
    apply IH. intros x Hx. apply Hpre, elem_of_cons. by right.
Qed.

Lemma selectMimeType_none supported (candidates : list string) :
  (forall x, x ∈ candidates -> supported x = false) ->
  selectMimeType supported candidates = None.
Proof.
  intros H. induction candidates as [|p l IH]; simpl; [reflexivity|].
  rewrite (H p) by (apply elem_of_cons; by left).
  apply IH. intros x Hx. apply H, elem_of_cons. by right.
Qed.

Lemma canvas_then_settle env config s :
  acquisition (host s) = Pending ->
  exists s',
    tryCatch (createCombinedStreamCanvas env config ;; resolve) reject s =
      (Normal tt, s') /\
    (acquisition (host s') = Fulfilled -> is_Some (combined (streams (this s')))).
Proof.
  intros Hacq. unfold tryCatch. unfold mbind, M_bind.
  destruct (canvas_path_summary env config s) as (c & s2 & Hrun & Hsame & _ & Hok).
  rewrite Hrun. destruct Hsame as (_ & _ & _ & Hsa).
  destruct c as [[]|e]; unfold resolve, reject, modify_host; rewrite Hsa, Hacq.
  - eexists. split; [reflexivity|]. simpl. intros _. by apply Hok.
  - eexists. split; [reflexivity|]. simpl. discriminate.
Qed.

Lemma onError_settle env config msg s :
  acquisition (host s) = Pending ->
  exists s',
    onError env config msg s = (Normal tt, s') /\
    (acquisition (host s') = Fulfilled -> is_Some (combined (streams (this s')))).
Proof.
  intros Hacq. unfold onError, fallbackToCanvas.
  unfold tryCatch at 1. unfold mbind at 1, M_bind at 1.
  unfold mbind at 1, M_bind at 1. unfold tryCatch at 1.
  unfold mbind at 1, M_bind at 1. unfold get_this.
  assert (Hstep : exists s0,
    (match worker (this s) with
     | Some w => Worker_terminate w ;; modify_this (set_worker None)
     | None => mret ()
     end) s = (Normal tt, s0) /\ acquisition (host s0) = Pending).
  { destruct (worker (this s)) as [w|].
    - eexists. split; [reflexivity|]. exact Hacq.
    - eexists. split; [reflexivity|]. exact Hacq. }
  destruct Hstep as (s0 & -> & Hacq0).
  destruct (canvas_path_summary env config s0) as (c & s2 & Hrun & Hsame & _ & Hok).
  rewrite Hrun. destruct Hsame as (_ & _ & _ & Hsa).
  destruct c as [[]|e]; unfold resolve, reject, modify_host; rewrite Hsa, Hacq0.
  - eexists. split; [reflexivity|]. simpl. intros _. by apply Hok.
  - eexists. split; [reflexivity|]. simpl. discriminate.
Qed.

Lemma webCodecs_init_settle env config s :
  exists s0,
    webCodecs_init env config s = (Normal tt, s0) /\
    (acquisition (host s0) = Fulfilled -> is_Some (combined (streams (this s0)))).
Proof.
  unfold webCodecs_init.
  unfold mbind at 1, M_bind at 1. unfold modify_host at 1.
  unfold tryCatch at 1.
  match goal with |- context [match ?body ?s0 with _ => _ end] =>
    destruct (body s0) as [[[]|e] s1] eqn:Ebody
  end.
  - eexists. split; [reflexivity|].
    revert Ebody. unfold mbind, M_bind, lift, modify_this, get_this, throw,
      acquire, modify_host. simpl.
    destruct (new_Worker env); simpl; [|discriminate].
    destruct (screen (streams (this s))); [|discriminate].
    destruct (webcam (streams (this s))); [|discriminate].
    destruct (getVideoTracks l); [discriminate|].
    destruct (getVideoTracks l0); [discriminate|].
    destruct (new_Processors env); simpl; [|discriminate].
    intros [= <-]. simpl. discriminate.
  - apply canvas_then_settle.
    revert Ebody. unfold mbind, M_bind, lift, modify_this, get_this, throw,
      acquire, modify_host. simpl.
    destruct (new_Worker env); simpl; [|by intros [= _ <-]].
    destruct (screen (streams (this s))); [|by intros [= _ <-]].
    destruct (webcam (streams (this s))); [|by intros [= _ <-]].
    destruct (getVideoTracks l); [by intros [= _ <-]|].
    destruct (getVideoTracks l0); [by intros [= _ <-]|].
    destruct (new_Processors env); simpl; [discriminate|by intros [= _ <-]].
Qed.

Lemma worker_ready_settle env config s :
  exists s',
    worker_onmessage env config Ready s = (Normal tt, s') /\
    is_Some (combined (streams (this s'))).
Proof.
  unfold worker_onmessage, tryCatch. unfold mbind, M_bind.
  destruct (combineAudioWithVideoTrack_summary env (generator env) config s)
    as (stream & s' & Hrun & _ & _ & _).
  rewrite Hrun. unfold modify_this, resolve, modify_host. simpl.
  eexists. split; [reflexivity|]. simpl. eauto.
Qed.

Lemma webCodecs_path_stream env reply config s s' :
  createCombinedStreamWebCodecs env reply config s = (Normal tt, s') ->
  is_Some (combined (streams (this s'))).
Proof.
  unfold createCombinedStreamWebCodecs.
  unfold mbind at 1, M_bind at 1.
  destruct (webCodecs_init_settle env config s) as (s0 & -> & Hgood0).
  unfold mbind at 1, M_bind at 1. unfold mbind at 1, M_bind at 1.
  unfold get_host at 1.
  assert (Hev : exists s1,
    (match acquisition (host s0) with
     | Pending =>
         match reply with
         | Silent => worker_timeout env config
         | _ => worker_onmessage env config reply
         end
     | _ => mret ()
     end) s0 = (Normal tt, s1) /\
    (acquisition (host s1) = Fulfilled -> is_Some (combined (streams (this s1))))).
  { destruct (acquisition (host s0)) eqn:Hacq.
    - destruct reply as [|data|].
      + destruct (worker_ready_settle env config s0) as (s1 & Hrun & Hsome).
        exists s1. split; [exact Hrun|]. intros _. exact Hsome.
      + by apply onError_settle.
      + unfold worker_timeout. unfold mbind, M_bind, get_this.
        destruct (combined (streams (this s0))) as [st|] eqn:Hco.
        * exists s0. split; [reflexivity|]. intros _. rewrite Hco. eauto.
        * by apply onError_settle.
    - exists s0. split; [reflexivity|]. rewrite Hacq. exact Hgood0.
    - exists s0. split; [reflexivity|]. rewrite Hacq. exact Hgood0. }
  destruct Hev as (s1 & -> & Hgood1).
  unfold await_acquisition, mbind, M_bind, get_host.
  destruct (acquisition (host s1)) eqn:Hacq; simpl.
  - discriminate.
  - intros [= <-]. by apply Hgood1.
  - discriminate.
Qed.

Lemma createCombinedStream_stream env reply config s s' :
  createCombinedStream env reply config s = (Normal tt, s') ->
  is_Some (combined (streams (this s'))).
Proof.
  unfold createCombinedStream. unfold mbind, M_bind, get_this.
  destruct (webCodecs (capabilities (this s)) && offscreenCanvas (capabilities (this s))).
  - apply webCodecs_path_stream.
  - destruct (canvas_path_summary env config s) as (c & s2 & -> & _ & _ & Hok).
    intros [= -> <-]. by apply Hok.
Qed.


Lemma selectMimeType_find supported (candidates : list string) :
  selectMimeType supported candidates = List.find supported candidates.
Proof.
  induction candidates as [|m l IH]; simpl; [reflexivity|].
  destruct (supported m); [reflexivity|exact IH].
Qed.

(** The stream [setupRecorder] records, by mode. *)
Lemma setupStreams_stream env reply config s s1 :
  setupStreams env reply config s = (Normal tt, s1) ->
  (mode config = "screen" -> is_Some (screen (streams (this s1)))) /\
  (mode config = "webcam" -> is_Some (webcam (streams (this s1)))) /\
  (mode config = "combined" -> is_Some (combined (streams (this s1)))).
Proof.
  unfold setupStreams, tryCatch.
  match goal with |- context [match ?body s with _ => _ end] =>
    destruct (body s) as [[[]|e] s1'] eqn:Ebody
  end; [|discriminate].
  intros [= <-]. revert Ebody.
  split; [|split]; intros Hm; rewrite Hm in Ebody; simpl in Ebody; revert Ebody;
    unfold mbind, M_bind, lift, acquire, modify_host, modify_this, throw.
  - destruct (getDisplayMedia env _) as [st|e]; simpl; [|discriminate].
    destruct (getVideoTracks st); simpl; [discriminate|].
    intros [= <-]. simpl. eauto.
  - destruct (getUserMedia env _) as [st|e]; simpl; [|discriminate].
    intros [= <-]. simpl. eauto.
  - destruct (getDisplayMedia env _) as [st|e]; simpl; [|discriminate].
    destruct (getVideoTracks st); simpl; [discriminate|].
    destruct (getUserMedia env _) as [st'|e]; simpl; [|discriminate].
    match goal with |- context [createCombinedStream env reply config ?s0] =>
      destruct (createCombinedStream env reply config s0) as [[[]|e] s2] eqn:Ec
    end; [|discriminate].
    intros [= <-]. by apply createCombinedStream_stream in Ec.
Qed.


Lemma find_in_mimeTypes supported m :
  List.find supported mimeTypes = Some m -> String.eqb m "" = false.
Proof.
  unfold mimeTypes. simpl.
  repeat match goal with
         | |- context [if supported ?x then _ else _] => destruct (supported x)
         end; intros [= <-]; reflexivity.
Qed.

Lemma setupRecorder_run env config s st :
  (mode config = "screen" /\ screen (streams (this s)) = Some st) \/
  (mode config = "webcam" /\ webcam (streams (this s)) = Some st) \/
  (mode config = "combined" /\ combined (streams (this s)) = Some st) ->
  setupRecorder env config s =
  match List.find (isTypeSupported env) mimeTypes with
  | Some m =>
      (Normal tt,
       {| this := set_chunks []
                    (set_mediaRecorder (Some
                       {| state := inactive; mimeType := m; mr_stream := st;
                          videoBitsPerSecond := bitrate_video (bitrate config);
                          audioBitsPerSecond := bitrate_audio (bitrate config);
                          timeslice := None |}) (this s));
          host := host s |})
  | None => (Throw {| message := "No supported video format found" |}, s)
  end.
Proof.
  intros Hmode. unfold setupRecorder.
  unfold mbind at 1, M_bind at 1. unfold get_this at 1.
  unfold mbind at 1, M_bind at 1.
  assert (Hsel :
    (if String.eqb (mode config) "screen" then mret (screen (streams (this s)))
     else if String.eqb (mode config) "webcam" then mret (webcam (streams (this s)))
     else if String.eqb (mode config) "combined" then mret (combined (streams (this s)))
     else throw_Error ("Unknown recording mode: " +:+ mode config)) s
    = (Normal (Some st), s)).
  { destruct Hmode as [[-> <-]|[[-> <-]|[-> <-]]]; reflexivity. }
  rewrite Hsel. rewrite selectMimeType_find.
  destruct (List.find (isTypeSupported env) mimeTypes) as [m|] eqn:Ef; [|reflexivity].
  rewrite (find_in_mimeTypes _ _ Ef). reflexivity.
Qed.

(** C5. The negotiation loop returns the first entry of its list
    that the host supports, whatever the list.  When the streams of a
    known mode were set up, [start] then either records with the first
    supported entry of the preference list, or, none being supported,
    throws "Failed to start recording: No supported video format
    found" after a teardown that leaves no recorder, no stream and
    none of the tracks held at that point live. *)
Theorem negotiation_or_rollback env reply config s s1 :
  mode config = "screen" \/ mode config = "webcam" \/ mode config = "combined" ->
  setupStreams env reply config s = (Normal tt, s1) ->
  (forall supported candidates,
     selectMimeType supported candidates = List.find supported candidates) /\
  match List.find (isTypeSupported env) mimeTypes with
  | Some m =>
      exists s2 mr,
        start env reply config s = (Normal tt, s2) /\
        mediaRecorder (this s2) = Some mr /\
        mimeType mr = m /\ state mr = recording /\ timeslice mr = Some 1000 /\
        isRecording (this s2) = true /\ chunks (this s2) = []
  | None =>
      exists s2,
        start env reply config s =
          (Throw {| message :=
                      "Failed to start recording: No supported video format found" |},
           s2) /\
        torn_down (this s2) /\
        held_tracks (this s2) = [] /\
        (forall t, t ∈ held_tracks (this s1) -> t ∉ live (host s2))
  end.
Proof.
  intros Hmode Hsetup. split; [apply selectMimeType_find|].
  destruct (setupStreams_stream env reply config s s1 Hsetup) as (Hsc & Hwc & Hco).
  assert (Hst : exists st,
    (mode config = "screen" /\ screen (streams (this s1)) = Some st) \/
    (mode config = "webcam" /\ webcam (streams (this s1)) = Some st) \/
    (mode config = "combined" /\ combined (streams (this s1)) = Some st)).
  { destruct Hmode as [Hm|[Hm|Hm]].
    - destruct (Hsc Hm) as [st Hs]. exists st. auto.
    - destruct (Hwc Hm) as [st Hs]. exists st. auto.
    - destruct (Hco Hm) as [st Hs]. exists st. auto. }
  destruct Hst as [st Hst].
  pose proof (setupRecorder_run env config s1 st Hst) as Hrec.
  destruct (List.find (isTypeSupported env) mimeTypes) as [m|] eqn:Ef;
    unfold start; unfold tryCatch at 1;
    unfold mbind at 1, M_bind at 1; rewrite Hsetup;
    unfold mbind at 1, M_bind at 1; rewrite Hrec.
  - unfold mbind, M_bind, get_this, lift, modify_this. simpl.
    eexists _, _. split; [reflexivity|]. simpl. auto 10.
  - unfold mbind, M_bind. rewrite cleanup_run. unfold throw_Error, throw.
    eexists. split; [reflexivity|].
    split; [unfold torn_down; simpl; auto 10|]. split; [reflexivity|].
    intros t Ht. rewrite after_cleanup_live, elem_of_difference, elem_of_list_to_set.
    tauto.
Qed.

End Properties.

(** ** The two compositors *)

Module CompositorFacts.

Import Compositor.

Local Open Scope Qc_scope.

Lemma num_this z : Qcanon.this (num z) = inject_Z z.
Proof. reflexivity. Qed.

Lemma Math_floor_num z : Math_floor (num z) = num z.
Proof. unfold Math_floor. rewrite num_this. by rewrite Qfloor_Z. Qed.

Lemma num_le a b : (a <= b)%Z -> num a ≤ num b.
Proof. intros H. unfold Qcle. rewrite !num_this. by rewrite <- Zle_Qle. Qed.

Lemma Math_floor_le x : Math_floor x ≤ x.
Proof. unfold Math_floor, Qcle. rewrite num_this. apply Qfloor_le. Qed.

Lemma Math_floor_mono x y : x ≤ y -> Math_floor x ≤ Math_floor y.
Proof.
  intros H. unfold Math_floor. apply num_le. by apply Qfloor_resp_le.
Qed.

(** Rounding down commutes with the cap at 200. *)
Lemma Math_min_floor x :
  Math_min (num 200) (Math_floor x) = Math_floor (Math_min (num 200) x).
Proof.
  unfold Math_min.
  destruct (decide (num 200 ≤ x)) as [Hx|Hx].
  - rewrite Math_floor_num. rewrite decide_True; [reflexivity|].
    rewrite <- (Math_floor_num 200). by apply Math_floor_mono.
  - rewrite decide_False; [reflexivity|].
    intros H. apply Hx. etrans; [exact H|]. apply Math_floor_le.
Qed.

Lemma drawFrame_picture streams video sv wv :
  is_Some (screen streams) \/ is_Some (webcam streams) ->
  (0 < videoWidth sv)%Z -> (0 < videoHeight sv)%Z ->
  (0 < videoWidth wv)%Z -> (0 < videoHeight wv)%Z ->
  drawFrame streams video sv wv =
  picture (num (width video)) (num (height video))
    (software_pipWidth (width video))
    (software_pipHeight (width video) (videoWidth wv) (videoHeight wv)).
Proof.
  intros Hs H1 H2 H3 H4. unfold drawFrame.
  rewrite !bool_decide_eq_true_2 by done. simpl.
  destruct (screen streams), (webcam streams); try reflexivity.
  destruct Hs as [[? [=]]|[? [=]]].
Qed.

Lemma compose_picture W H sf wf :
  compose W H sf wf =
  picture (num W) (num H)
    (Math_floor (software_pipWidth W))
    (Math_floor (Math_floor (software_pipWidth W) *
                 num (displayHeight wf) / num (displayWidth wf))).
Proof.
  unfold compose, picture, software_pipWidth. by rewrite Math_min_floor.
Qed.

(** C7, as the code has it.  With pictures of positive size on both
    inputs, the software compositor draws [picture] with an inset of
    width min(200, 0.2 W) and height that width times the secondary
    picture's height over its width; the accelerated compositor draws
    the same [picture] with that width rounded down and the height
    computed from the rounded width and rounded down again.  The two
    drawings are identical whenever the software inset's width and
    height are whole numbers. *)
Theorem inset_geometry_up_to_rounding streams video sv wv sf wf :
  is_Some (screen streams) \/ is_Some (webcam streams) ->
  (0 < videoWidth sv)%Z -> (0 < videoHeight sv)%Z ->
  (0 < videoWidth wv)%Z -> (0 < videoHeight wv)%Z ->
  displayWidth wf = videoWidth wv ->
  displayHeight wf = videoHeight wv ->
  let W := width video in
  let H := height video in
  let pipWidth := software_pipWidth W in
  let pipHeight := software_pipHeight W (videoWidth wv) (videoHeight wv) in
  drawFrame streams video sv wv = picture (num W) (num H) pipWidth pipHeight /\
  compose W H sf wf =
    picture (num W) (num H) (Math_floor pipWidth)
      (Math_floor (Math_floor pipWidth * num (videoHeight wv) / num (videoWidth wv))) /\
  (Math_floor pipWidth = pipWidth -> Math_floor pipHeight = pipHeight ->
   compose W H sf wf = drawFrame streams video sv wv).
Proof.
  intros Hs H1 H2 H3 H4 Hdw Hdh W H pipWidth pipHeight.
  pose proof (drawFrame_picture streams video sv wv Hs H1 H2 H3 H4) as Hd.
  pose proof (compose_picture W H sf wf) as Hc. rewrite Hdw, Hdh in Hc.
  split; [exact Hd|]. split; [exact Hc|].
  intros Hw Hh. rewrite Hd, Hc. fold pipWidth. rewrite Hw.
  unfold pipHeight, software_pipHeight in *. fold pipWidth in Hh |- *.
  by rewrite Hh.
Qed.

(** C7 fails as stated: on a 1280 by 720 canvas with a 1280 by 720
    webcam picture the software inset is 200 by 112.5 and the
    accelerated one 200 by 112. *)
Lemma inset_differs_for_hd_webcam :
  compose 1280 720
    {| frame_id := 1; displayWidth := 1280; displayHeight := 720; timestamp := Some 0%Z |}
    {| frame_id := 2; displayWidth := 1280; displayHeight := 720; timestamp := Some 0%Z |}
  <>
  drawFrame {| screen := Some []; webcam := Some []; combined := None |}
    {| width := 1280; height := 720; frameRate := 30 |}
    {| videoWidth := 1280; videoHeight := 720 |}
    {| videoWidth := 1280; videoHeight := 720 |}.
Proof.
  intros H.
  apply (f_equal (fun l => match l !! 5%nat with
                           | Some (drawImage _ _ _ _ dh) => Qcanon.this dh
                           | _ => 0%Q
                           end)) in H.
  vm_compute in H. discriminate.
Qed.

Lemma inset_geometry_witness :
  compose 1280 720
    {| frame_id := 1; displayWidth := 1280; displayHeight := 720; timestamp := Some 0%Z |}
    {| frame_id := 2; displayWidth := 640; displayHeight := 480; timestamp := Some 0%Z |}
  =
  drawFrame {| screen := Some []; webcam := Some []; combined := None |}
    {| width := 1280; height := 720; frameRate := 30 |}
    {| videoWidth := 1280; videoHeight := 720 |}
    {| videoWidth := 640; videoHeight := 480 |}.
Proof.
  destruct (inset_geometry_up_to_rounding
    {| screen := Some []; webcam := Some []; combined := None |}
    {| width := 1280; height := 720; frameRate := 30 |}
    {| videoWidth := 1280; videoHeight := 720 |}
    {| videoWidth := 640; videoHeight := 480 |}
    {| frame_id := 1; displayWidth := 1280; displayHeight := 720; timestamp := Some 0%Z |}
    {| frame_id := 2; displayWidth := 640; displayHeight := 480; timestamp := Some 0%Z |})
    as (_ & _ & Hsame);
    [left; simpl; eauto | simpl; lia | simpl; lia | simpl; lia | simpl; lia
    | reflexivity | reflexivity | ].
  apply Hsame; apply Qc_is_canon; reflexivity.
Defined.

(** *** Frame buffers of the compose loop *)

Local Close Scope Qc_scope.

Lemma live_buffers_cons i j f o :
  live_buffers i ((j, f) :: o) =
  (if decide (j = i) then 1 else 0) + live_buffers i o.
Proof.
  unfold live_buffers. rewrite filter_cons. simpl.
  destruct (decide (j = i)); reflexivity.
Qed.

Lemma live_buffers_app i l o :
  live_buffers i (l ++ o) = live_buffers i l + live_buffers i o.
Proof. unfold live_buffers. by rewrite list.filter_app, length_app. Qed.

Lemma live_buffers_filter i (P : Input * nat -> Prop) `{!forall p, Decision (P p)} o :
  live_buffers i (filter P o) <= live_buffers i o.
Proof.
  induction o as [|[j f] o IH]; [reflexivity|].
  rewrite filter_cons. destruct (decide (P (j, f))).
  - rewrite !live_buffers_cons. lia.
  - rewrite live_buffers_cons. lia.
Qed.

Lemma live_buffers_closing i kept o :
  live_buffers i (closing kept o) <= live_buffers i o.
Proof. destruct kept; simpl; [apply live_buffers_filter|reflexivity]. Qed.

Lemma closing_app kept l o : closing kept (l ++ o) = closing kept l ++ closing kept o.
Proof. destruct kept; simpl; [apply list.filter_app|reflexivity]. Qed.

Lemma closing_subset kept o p : p ∈ closing kept o -> p ∈ o.
Proof.
  destruct kept; simpl; [|done]. rewrite list_elem_of_filter. tauto.
Qed.

Lemma live_buffers_none i o :
  (forall f, (i, f) ∉ o) -> live_buffers i o = 0.
Proof.
  intros H. induction o as [|[j f] o IH]; [reflexivity|].
  rewrite live_buffers_cons, IH.
  - destruct (decide (j = i)) as [->|]; [|reflexivity].
    exfalso. apply (H f), elem_of_cons. by left.
  - intros f' Hf. apply (H f'), elem_of_cons. by right.
Qed.

(** Closing the kept frame closes every buffer of its input that was
    open at the head of the loop. *)
Lemma closing_kept i kept o :
  kept_only i kept o -> live_buffers i (closing kept o) = 0.
Proof.
  intros Hk. apply live_buffers_none. intros f Hf.
  destruct (Hk f (closing_subset _ _ _ Hf)) as (v & -> & Hv).
  simpl in Hf. apply list_elem_of_filter in Hf as [Hne _]. simpl in Hne. congruence.
Qed.

Lemma closing_within i kept l o n :
  kept_only i kept o -> live_buffers i l <= n ->
  live_buffers i (closing kept (l ++ o)) <= n.
Proof.
  intros Hk Hl. rewrite closing_app, live_buffers_app, (closing_kept i kept o Hk).
  pose proof (live_buffers_closing i kept l). lia.
Qed.

Lemma kept_only_subset i kept o o' :
  (forall p, p ∈ o' -> p ∈ o) -> kept_only i kept o -> kept_only i kept o'.
Proof. intros Hsub Hk f Hf. apply Hk, Hsub, Hf. Qed.

Lemma kept_only_new i kept nv l o :
  (forall f, (i, f) ∈ l -> f = frame_id nv) ->
  kept_only i kept o ->
  kept_only i (Some nv) (closing kept (l ++ o)).
Proof.
  intros Hl Hk f Hf. exists nv. split; [reflexivity|].
  pose proof (closing_subset _ _ _ Hf) as Hin.
  apply elem_of_app in Hin as [Hin|Hin].
  - symmetry. by apply Hl.
  - destruct (Hk f Hin) as (v & -> & Hv).
    simpl in Hf. apply list_elem_of_filter in Hf as [Hne _]. simpl in Hne. congruence.
Qed.

Lemma within_weaken a b c a' b' c' o :
  a <= a' -> b <= b' -> c <= c' -> within a b c o -> within a' b' c' o.
Proof. unfold within. lia. Qed.

Lemma within_cons a b c i f o :
  within a b c o ->
  within (a + if decide (i = FromScreen) then 1 else 0)
         (b + if decide (i = FromWebcam) then 1 else 0)
         (c + if decide (i = Composed) then 1 else 0) ((i, f) :: o).
Proof.
  unfold within. rewrite !live_buffers_cons. intros (? & ? & ?).
  repeat split; lia.
Qed.

(** The buffers in a pass that read two frames, one list per step. *)
Lemma composite_buffers sf wf sv wv cid o :
  within 1 1 0 o ->
  kept_only FromScreen sf o ->
  kept_only FromWebcam wf o ->
  let x2 := (FromWebcam, frame_id wv) :: (FromScreen, frame_id sv) :: o in
  let x3 := closing sf x2 in
  let x4 := closing wf x3 in
  let x5 := (Composed, cid) :: x4 in
  let x6 := filter (fun p => p.2 ≠ cid) x5 in
  within 2 2 0 x2 /\ within 1 2 0 x3 /\ within 1 1 0 x4 /\ within 1 1 1 x5 /\
  within 1 1 0 x6 /\
  kept_only FromScreen (Some sv) x6 /\ kept_only FromWebcam (Some wv) x6.
Proof.
  intros Ho Hks Hkw x2 x3 x4 x5 x6.
  pose proof Ho as (Hs & Hw & Hc).
  assert (H2 : within 2 2 0 x2).
  { unfold x2. apply (within_cons 2 1 0 FromWebcam), (within_cons 1 1 0 FromScreen), Ho. }
  assert (H3 : within 1 2 0 x3).
  { destruct H2 as (_ & H2w & H2c). split; [|split].
    - apply (closing_within FromScreen sf [_; _] o 1 Hks).
      rewrite !live_buffers_cons. simpl. reflexivity.
    - etrans; [apply live_buffers_closing|exact H2w].
    - etrans; [apply live_buffers_closing|exact H2c]. }
  assert (H4 : within 1 1 0 x4).
  { destruct H3 as (H3s & _ & H3c). split; [|split].
    - etrans; [apply live_buffers_closing|exact H3s].
    - unfold x4, x3, x2.
      change ((FromWebcam, frame_id wv) :: (FromScreen, frame_id sv) :: o)
        with ([(FromWebcam, frame_id wv); (FromScreen, frame_id sv)] ++ o).
      rewrite closing_app. apply closing_within.
      + eapply kept_only_subset; [|exact Hkw]. apply closing_subset.
      + etrans; [apply live_buffers_closing|].
        rewrite !live_buffers_cons. simpl. reflexivity.
    - etrans; [apply live_buffers_closing|exact H3c]. }
  assert (H5 : within 1 1 1 x5).
  { apply (within_cons 1 1 0 Composed), H4. }
  assert (Hk3s : kept_only FromScreen (Some sv) x3).
  { apply (kept_only_new FromScreen sf sv [_; _] o); [|exact Hks].
    intros f Hf. rewrite !elem_of_cons in Hf.
    destruct Hf as [[=]|[[= ->]|Hf]]; [reflexivity|by apply elem_of_nil in Hf]. }
  assert (Hk4w : kept_only FromWebcam (Some wv) x4).
  { unfold x4, x3, x2.
    change ((FromWebcam, frame_id wv) :: (FromScreen, frame_id sv) :: o)
      with ([(FromWebcam, frame_id wv); (FromScreen, frame_id sv)] ++ o).
    rewrite closing_app. apply kept_only_new.
    - intros f Hf. apply closing_subset in Hf. rewrite !elem_of_cons in Hf.
      destruct Hf as [[= ->]|[[=]|Hf]]; [reflexivity|by apply elem_of_nil in Hf].
    - eapply kept_only_subset; [|exact Hkw]. apply closing_subset. }
  assert (Hsub : forall i f, i <> Composed -> (i, f) ∈ x6 -> (i, f) ∈ x4).
  { intros i f Hi Hf. unfold x6, x5 in Hf.
    apply list_elem_of_filter in Hf as [_ Hf].
    apply elem_of_cons in Hf as [[= -> _]|Hf]; [done|exact Hf]. }
  split; [exact H2|]. split; [exact H3|]. split; [exact H4|]. split; [exact H5|].
  split; [|split].
  - destruct H4 as (H4s & H4w & H4c). unfold x6, x5.
    rewrite filter_cons_False by (simpl; intros Hne; by apply Hne).
    split; [|split]; (etrans; [apply live_buffers_filter|assumption]).
  - intros f Hf. apply Hsub in Hf; [|done].
    apply Hk3s. by apply (closing_subset wf).
  - intros f Hf. apply Hsub in Hf; [|done]. by apply Hk4w.
Qed.

Lemma composite_run t sv wv k :
  let x3 := closing (screenFrame k) (open k) in
  let x4 := closing (webcamFrame k) x3 in
  let x5 := (Composed, composed_id t) :: x4 in
  let x6 := filter (fun p => p.2 ≠ composed_id t) x5 in
  let r := composite t sv wv k in
  (r.1 = Continue -> draw_rejects t = false /\ writer_closed k = false) /\
  open r.2 = (if draw_rejects t then x4 else if writer_closed k then x5 else x6) /\
  screenFrame r.2 = Some sv /\ webcamFrame r.2 = Some wv /\
  (forall P : list (Input * nat) -> Prop,
     Forall P (history k) -> P x3 -> P x4 -> P x5 -> P x6 ->
     Forall P (history r.2)).
Proof.
  destruct k as [run last cs rate sf wf wc wr o hs]. unfold composite.
  destruct sf, wf, wc, (draw_rejects t); simpl;
    (split; [intros; (discriminate || auto)|]);
    repeat split; intros P Hh H3 H4 H5 H6;
    rewrite ?Forall_app; repeat split; auto; repeat constructor; auto.
Qed.

Lemma at_head_bounded k : at_head k -> bounded k.
Proof.
  intros (Hh & Ho & _). split; [exact Hh|].
  eapply within_weaken; [| | |exact Ho]; lia.
Qed.

Lemma read_frames_bounded t k :
  at_head k ->
  bounded (read_frames t k).2 /\
  ((read_frames t k).1 = Continue -> at_head (read_frames t k).2).
Proof.
  intros Hk. pose proof Hk as (Hh & Ho & Hks & Hkw).
  unfold read_frames.
  destruct (s t) as [|sv], (w t) as [|wv]; simpl.
  - split; [by apply at_head_bounded|discriminate].
  - split; [|discriminate]. split; simpl.
    + rewrite Forall_app. split; [exact Hh|]. apply Forall_singleton.
      eapply within_weaken; [| | |apply (within_cons 1 1 0 FromWebcam), Ho];
        repeat case_decide; first [lia | discriminate].
    + eapply within_weaken; [| | |apply (within_cons 1 1 0 FromWebcam), Ho];
        repeat case_decide; first [lia | discriminate].
  - split; [|discriminate]. split; simpl.
    + rewrite Forall_app. split; [exact Hh|]. apply Forall_singleton.
      eapply within_weaken; [| | |apply (within_cons 1 1 0 FromScreen), Ho];
        repeat case_decide; first [lia | discriminate].
    + eapply within_weaken; [| | |apply (within_cons 1 1 0 FromScreen), Ho];
        repeat case_decide; first [lia | discriminate].
  - set (k2 := opened FromWebcam (frame_id wv) (opened FromScreen (frame_id sv) k)).
    destruct (composite_buffers (screenFrame k) (webcamFrame k) sv wv (composed_id t)
                (open k) Ho Hks Hkw) as (H2 & H3 & H4 & H5 & H6 & Hs6 & Hw6).
    destruct (composite_run t sv wv k2) as (Hout & Hopen & Hsf & Hwf & Hhist).
    fold k2.
    assert (Hh2 : Forall (within 2 2 1) (history k2)).
    { unfold k2. simpl. rewrite !Forall_app. split; [split; [exact Hh|]|].
      - apply Forall_singleton.
        eapply within_weaken; [| | |apply (within_cons 1 1 0 FromScreen), Ho];
          repeat case_decide; first [lia | discriminate].
      - apply Forall_singleton. eapply within_weaken; [| | |exact H2]; lia. }
    assert (Hall : Forall (within 2 2 1) (history (composite t sv wv k2).2)).
    { apply Hhist; [exact Hh2| | | |].
      - eapply within_weaken; [| | |exact H3]; lia.
      - eapply within_weaken; [| | |exact H4]; lia.
      - eapply within_weaken; [| | |exact H5]; lia.
      - eapply within_weaken; [| | |exact H6]; lia. }
    split.
    + split; [exact Hall|]. rewrite Hopen.
      destruct (draw_rejects t); [|destruct (writer_closed k2)].
      * eapply within_weaken; [| | |exact H4]; lia.
      * eapply within_weaken; [| | |exact H5]; lia.
      * eapply within_weaken; [| | |exact H6]; lia.
    + intros Hc. destruct (Hout Hc) as [Hd Hwc].
      split; [exact Hall|]. rewrite Hopen, Hsf, Hwf, Hd, Hwc. auto.
Qed.

Lemma pass_bounded t k :
  at_head k ->
  bounded (pass t k).2 /\ ((pass t k).1 = Continue -> at_head (pass t k).2).
Proof.
  intros Hk. unfold pass.
  assert (Hk0 : at_head (if stop_message t then stop k else k)).
  { destruct (stop_message t); [|exact Hk]. exact Hk. }
  case_bool_decide.
  - split; [by apply at_head_bounded|]. intros _. exact Hk0.
  - by apply read_frames_bounded.
Qed.

Lemma close_if_bounded kept k : bounded k -> bounded (close_if kept k).
Proof.
  intros (Hh & Ho). destruct kept as [v|]; [|by split].
  assert (Hf : within 2 2 1 (filter (fun p => p.2 ≠ frame_id v) (open k))).
  { destruct Ho as (? & ? & ?). split; [|split];
      (etrans; [apply live_buffers_filter|assumption]). }
  split; simpl; [|exact Hf].
  rewrite Forall_app. split; [exact Hh|]. by apply Forall_singleton.
Qed.

Lemma after_loop_bounded k : bounded k -> bounded (after_loop k).
Proof.
  intros Hk. unfold after_loop.
  pose proof (close_if_bounded (webcamFrame (close_if (screenFrame k) k)) _
                (close_if_bounded (screenFrame k) k Hk)) as Hb.
  exact Hb.
Qed.

Lemma composeLoop_bounded ticks k :
  at_head k ->
  bounded (composeLoop ticks k).2 /\
  ((composeLoop ticks k).1 = Suspended -> at_head (composeLoop ticks k).2).
Proof.
  revert k. induction ticks as [|t ticks IH]; intros k Hk; simpl.
  - destruct (isRunning k); simpl.
    + split; [by apply at_head_bounded|by intros _].
    + split; [by apply after_loop_bounded, at_head_bounded|discriminate].
  - destruct (isRunning k); simpl.
    + destruct (pass_bounded t k Hk) as [Hb Hc].
      destruct (pass t k) as [[] k']; simpl in *.
      * apply IH. by apply Hc.
      * split; [by apply after_loop_bounded|discriminate].
      * split; [exact Hb|discriminate].
    + split; [by apply after_loop_bounded, at_head_bounded|discriminate].
Qed.

Lemma init_at_head W H rate : at_head (init W H rate).
Proof.
  unfold at_head, init, within, kept_only. simpl. repeat split; auto.
  - intros f Hf. by apply elem_of_nil in Hf.
  - intros f Hf. by apply elem_of_nil in Hf.
Qed.

(** C8, as the code has it.  However the host feeds the loop, at
    every point at most two frame buffers per input are open (the one
    kept from the pass before and the one just read) and at most one
    composed frame; whenever the loop is back at its head waiting for
    the host, at most one buffer per input is open, it is the frame
    the loop keeps, and no composed frame is open. *)
Theorem frame_buffers_bounded ticks W H rate :
  let r := composeLoop ticks (init W H rate) in
  Forall (within 2 2 1) (history r.2) /\
  within 2 2 1 (open r.2) /\
  (r.1 = Suspended ->
     within 1 1 0 (open r.2) /\
     kept_only FromScreen (screenFrame r.2) (open r.2) /\
     kept_only FromWebcam (webcamFrame r.2) (open r.2)).
Proof.
  intros r.
  destruct (composeLoop_bounded ticks (init W H rate) (init_at_head W H rate))
    as [[Hh Ho] Hs].
  split; [exact Hh|]. split; [exact Ho|].
  intros Hr. destruct (Hs Hr) as (_ & H1 & H2 & H3). auto.
Qed.

(** C8 fails as stated: in the second pass, between the read and the
    [close] of the frame kept from the first pass, two screen frames
    are open. *)
Lemma two_screen_buffers_open :
  let frame n :=
    {| frame_id := n; displayWidth := 1280; displayHeight := 720;
       timestamp := Some (Z.of_nat n) |} in
  let r :=
    composeLoop
      [ {| now := num 100; stop_message := false;
           s := value (frame 1); w := value (frame 2);
           draw_rejects := false; composed_id := 3 |};
        {| now := num 200; stop_message := false;
           s := value (frame 4); w := value (frame 5);
           draw_rejects := false; composed_id := 6 |} ]
      (init 1280 720 30) in
  ~ Forall (fun o => live_buffers FromScreen o <= 1 /\ live_buffers FromWebcam o <= 1)
      (history r.2).
Proof.
  intros frame r Hall.
  assert (Hin : [(FromScreen, 4); (FromWebcam, 2); (FromScreen, 1)] ∈ history r.2).
  { apply list_elem_of_lookup. exists 4%nat. vm_compute. reflexivity. }
  rewrite list.Forall_forall in Hall. apply Hall in Hin as [Hs _].
  vm_compute in Hs. lia.
Qed.
(** When one reader ends while the other still delivers, the frame
    delivered with the end of stream stays open after the loop. *)
Example frame_left_open_at_end_of_stream :
  let frame n :=
    {| frame_id := n; displayWidth := 1280; displayHeight := 720;
       timestamp := Some (Z.of_nat n) |} in
  let r :=
    composeLoop
      [ {| now := num 100; stop_message := false;
           s := value (frame 1); w := value (frame 2);
           draw_rejects := false; composed_id := 3 |};
        {| now := num 200; stop_message := false;
           s := value (frame 4); w := done;
           draw_rejects := false; composed_id := 6 |} ]
      (init 1280 720 30) in
  r.1 = Finished /\ open r.2 = [(FromScreen, 4)].
Proof. vm_compute. split; reflexivity. Qed.

(** C8 on the same two passes: afterwards the loop waits at its
    head with one buffer per input open. *)
Lemma frame_buffers_bounded_witness :
  let frame n :=
    {| frame_id := n; displayWidth := 1280; displayHeight := 720;
       timestamp := Some (Z.of_nat n) |} in
  let r :=
    composeLoop
      [ {| now := num 100; stop_message := false;
           s := value (frame 1); w := value (frame 2);
           draw_rejects := false; composed_id := 3 |};
        {| now := num 200; stop_message := false;
           s := value (frame 4); w := value (frame 5);
           draw_rejects := false; composed_id := 6 |} ]
      (init 1280 720 30) in
  r.1 = Suspended /\ within 1 1 0 (open r.2) /\
  open r.2 = [(FromWebcam, 5); (FromScreen, 4)].
Proof.
  intros frame r.
  destruct (frame_buffers_bounded
              [ {| now := num 100; stop_message := false;
                   s := value (frame 1); w := value (frame 2);
                   draw_rejects := false; composed_id := 3 |};
                {| now := num 200; stop_message := false;
                   s := value (frame 4); w := value (frame 5);
                   draw_rejects := false; composed_id := 6 |} ]
              1280 720 30) as (_ & _ & Hhead).
  fold r in Hhead.
  assert (Hr : r.1 = Suspended) by (vm_compute; reflexivity).
  split; [exact Hr|]. split; [by destruct (Hhead Hr) as [? _]|].
  vm_compute. reflexivity.
Defined.

End CompositorFacts.

(** ** The properties on the sample session *)

Module SampleFacts.

Import Sample.

(** C1 on a queue of capacity two that receives three chunks, a
    missing payload and an empty one: the last two chunks remain. *)
Lemma chunk_queue_bounded_witness :
  exists s',
    forEach [Some (chunk x01); None; Some (chunk x02); Some empty_chunk; Some (chunk x03)]
      ondataavailable small_queue = (Normal tt, s') /\
    chunks (this s') = [chunk x02; chunk x03].
Proof.
  destruct (chunk_queue_bounded small_queue
              [Some (chunk x01); None; Some (chunk x02); Some empty_chunk;
               Some (chunk x03)])
    as (s' & Hrun & _ & _ & _ & Hlast); [simpl; lia|simpl; lia|].
  exists s'. split; [exact Hrun|].
  destruct Hlast as [_ ->]; [vm_compute; lia|reflexivity].
Defined.

(** C2 on a recording session with two chunks queued and a third
    delivered by the last flush. *)
Lemma stop_concatenates_queue_witness :
  exists blob s',
    stop (Some (chunk x03)) recording_session = (Normal (Some blob), s') /\
    blob_bytes blob = [x01; x02; x03].
Proof.
  destruct (stop_concatenates_queue recording_session
              {| state := recording; mimeType := "video/webm";
                 mr_stream := screen_stream;
                 videoBitsPerSecond := 5000000; audioBitsPerSecond := 128000;
                 timeslice := Some 1000 |}
              (Some (chunk x03)) eq_refl)
    as (blob & queue & s' & Hrun & Hq & Hbytes & _).
  exists blob, s'. split; [exact Hrun|].
  rewrite Hbytes, Hq. reflexivity.
Defined.

(** C5 on a host that supports no format: [start] in screen mode
    fails after the rollback, and the granted tracks 1 and 2 are no
    longer live. *)
Lemma negotiation_or_rollback_witness :
  exists s2,
    start no_codec Silent hd_screen fresh =
      (Throw {| message :=
                  "Failed to start recording: No supported video format found" |},
       s2) /\
    (1 ∉ live (host s2)) /\ (2 ∉ live (host s2)).
Proof.
  destruct (negotiation_or_rollback no_codec Silent hd_screen fresh
              (setupStreams no_codec Silent hd_screen fresh).2
              (or_introl eq_refl) eq_refl)
    as [_ (s2 & Hrun & _ & _ & Hlive)].
  exists s2. split; [exact Hrun|].
  split; apply Hlive; apply list_elem_of_In; vm_compute; auto.
Defined.


(** The negotiation on hosts that support only the last entry of the
    preference list, and only the second and third. *)
Example only_last_supported :
  selectMimeType (String.eqb "video/webm") mimeTypes = Some "video/webm".
Proof. reflexivity. Qed.

Example second_before_third :
  selectMimeType
    (fun m => String.eqb m "video/webm;codecs=vp8,opus" ||
              String.eqb m "video/webm;codecs=h264,opus") mimeTypes
  = Some "video/webm;codecs=vp8,opus".
Proof. reflexivity. Qed.

(** C3 on the recording session: an empty payload changes nothing,
    a non-empty one is queued and announced. *)
Lemma flush_enqueues_iff_nonempty_witness :
  ondataavailable (Some empty_chunk) recording_session = (Normal tt, recording_session) /\
  exists s',
    ondataavailable (Some (chunk x03)) recording_session = (Normal tt, s') /\
    chunks (this s') = [chunk x01; chunk x02; chunk x03] /\
    emitted (host s') = [("dataavailable", DBlob (chunk x03))].
Proof.
  split.
  - destruct (flush_enqueues_iff_nonempty recording_session (Some empty_chunk))
      as (s' & Hrun & _ & Hsame & _).
    rewrite Hrun, Hsame; [reflexivity|]. by intros data [= <-].
  - destruct (flush_enqueues_iff_nonempty recording_session (Some (chunk x03)))
      as (s' & Hrun & Hin & _).
    destruct (Hin (chunk x03) eq_refl) as (Hq & _ & He); [vm_compute; lia|].
    exists s'. split; [exact Hrun|]. rewrite Hq, He. split; reflexivity.
Defined.

(** C4 on the recording session: [pause] pauses it, [resume] leaves
    it as it is. *)
Lemma pause_resume_guarded_witness :
  (exists s', pause recording_session = (Normal tt, s') /\
     gs_state (getState (this s')) = paused) /\
  resume recording_session = (Normal tt, recording_session) /\
  pause fresh = (Normal tt, fresh).
Proof.
  destruct (pause_resume_guarded recording_session)
    as [(s1 & Hp & Hrec & _) (s2 & Hr & _ & Hoff)].
  destruct (pause_resume_guarded fresh) as [(s3 & Hp3 & _ & Hoff3) _].
  split; [|split].
  - destruct (Hrec eq_refl) as (mr & _ & _ & Hst). eauto.
  - rewrite Hr, Hoff; [reflexivity|discriminate].
  - rewrite Hp3, Hoff3; [reflexivity|discriminate].
Defined.

(** C9 on the recording session: tracks 1 and 2 end, each released
    once, and a second [cleanup] changes nothing. *)
Lemma cleanup_idempotent_witness :
  exists s1,
    cleanup recording_session = (Normal tt, s1) /\
    cleanup s1 = (Normal tt, s1) /\
    (1 ∉ live (host s1)) /\ (2 ∉ live (host s1)) /\
    releases (host s1) 1 = 1 /\ releases (host s1) 2 = 1.
Proof.
  destruct (cleanup_idempotent recording_session)
    as (s1 & H1 & H2 & _ & _ & _ & Hlive & Hrel & _).
  exists s1. split; [exact H1|]. split; [exact H2|].
  assert (Hin1 : 1 ∈ held_tracks (this recording_session))
    by (apply list_elem_of_In; vm_compute; auto).
  assert (Hin2 : 2 ∈ held_tracks (this recording_session))
    by (apply list_elem_of_In; vm_compute; auto).
  assert (Hl1 : 1 ∈ live (host recording_session))
    by (simpl; rewrite elem_of_union, !elem_of_singleton; auto).
  assert (Hl2 : 2 ∈ live (host recording_session))
    by (simpl; rewrite elem_of_union, !elem_of_singleton; auto).
  split; [by apply Hlive|]. split; [by apply Hlive|].
  split; [by rewrite (Hrel 1 Hin1 Hl1)|by rewrite (Hrel 2 Hin2 Hl2)].
Defined.

(** C10 on a fresh recorder: the first listener throws, the second
    is still called, and [emit] completes. *)
Lemma emit_survives_throwing_listeners_witness :
  exists s1 s2,
    forEach [throwing; counting] (on "dataavailable") fresh = (Normal tt, s1) /\
    emit "dataavailable" (DBlob (chunk x01)) s1 = (Normal tt, s2) /\
    invoked (host s2) = [(1, DBlob (chunk x01)); (2, DBlob (chunk x01))] /\
    app (host s2) = 1.
Proof.
  destruct (emit_survives_throwing_listeners fresh "dataavailable"
              (DBlob (chunk x01)) [throwing; counting])
    as (s1 & s2 & H1 & H2 & Hi & Ha & _).
  exists s1, s2. split; [exact H1|]. split; [exact H2|].
  rewrite Hi, Ha. split; reflexivity.
Defined.

End SampleFacts.

(** * Further properties of the code *)

Section Coverage.

Context {L : Type}.

Implicit Types (s : @State L) (r : @Recorder L) (h : @Host L).

Ltac munfold :=
  unfold mbind, M_bind, mret, M_ret, get_this, get_host, modify_this,
    modify_host, lift, throw_Error, throw, tryCatch, detached in *.

(** ** [pause] and [resume] together *)

(** X1. Pausing a recording session and resuming it gives back the
    very state it had, and so does resuming a paused session and
    pausing it again; pausing twice is pausing once, resuming twice is
    resuming once. *)
Theorem pause_resume_round_trip s :
  (gs_state (getState (this s)) = recording ->
     (pause ;; resume) s = (Normal tt, s)) /\
  (gs_state (getState (this s)) = paused ->
     (resume ;; pause) s = (Normal tt, s)) /\
  (pause ;; pause) s = pause s /\
  (resume ;; resume) s = resume s.
Proof.
  unfold mbind, M_bind. rewrite !pause_run, !resume_run. unfold getState; simpl.
  destruct s as [r h]. destruct r as [mr ch st cap ev wk cv cs ac ir mx]. simpl.
  destruct mr as [[[] mt ms vb ab ts]|]; simpl;
    repeat split; intros; try discriminate; reflexivity.
Qed.


(** ** [stop] in every state *)

Lemma after_emit_this event data s : this (after_emit event data s) = this s.
Proof. reflexivity. Qed.

Lemma after_emit_live event data s :
  live (host (after_emit event data s)) = live (host s).
Proof. reflexivity. Qed.

Lemma ondataavailable_frame e_data s :
  mediaRecorder (this (ondataavailable e_data s).2) = mediaRecorder (this s) /\
  streams (this (ondataavailable e_data s).2) = streams (this s) /\
  canvasStream (this (ondataavailable e_data s).2) = canvasStream (this s) /\
  maxChunks (this (ondataavailable e_data s).2) = maxChunks (this s) /\
  eventListeners (this (ondataavailable e_data s).2) = eventListeners (this s) /\
  live (host (ondataavailable e_data s).2) = live (host s).
Proof.
  rewrite ondataavailable_run. simpl.
  destruct e_data as [data|]; [|auto 10].
  destruct (bool_decide (0 < blob_size data)); auto 10.
Qed.

(** X2. [stop()], its final flush and the recorder's stop event taken
    together, never rejects: without a recorder it resolves with null
    and changes nothing; with one it resolves with a blob and leaves
    the recorder torn down, none of the tracks it held live.  A second
    [stop()] then resolves with null and changes nothing. *)
Theorem stop_in_every_state s final final' :
  exists res s1,
    stop final s = (Normal res, s1) /\
    (mediaRecorder (this s) = None -> res = None /\ s1 = s) /\
    (is_Some (mediaRecorder (this s)) ->
       is_Some res /\ torn_down (this s1) /\
       forall t, t ∈ held_tracks (this s) -> t ∉ live (host s1)) /\
    stop final' s1 = (Normal None, s1).
Proof.
  destruct (mediaRecorder (this s)) as [mr|] eqn:Emr.
  - assert (Hrun : exists s1, stop final s =
              (Normal (Some (new_Blob
                 (if is_active (state mr) then chunks (this (ondataavailable final s).2)
                  else chunks (this s))
                 (if String.eqb (mimeType mr) "" then "video/webm" else mimeType mr))), s1) /\
              torn_down (this s1) /\
              forall t, t ∈ held_tracks (this s) -> t ∉ live (host s1)).
    { unfold stop. unfold mbind, M_bind, get_this. rewrite Emr.
      destruct (is_active (state mr)) eqn:Ea.
      - unfold lift, MediaRecorder_stop.
        assert (Hst : match state mr with
                      | inactive => Throw InvalidStateError
                      | _ => Normal (mr_with_state inactive mr)
                      end = Normal (mr_with_state inactive mr)).
        { destruct (state mr); [discriminate|reflexivity|reflexivity]. }
        rewrite Hst. unfold modify_this. simpl.
        set (s0 := {| this := set_mediaRecorder (Some (mr_with_state inactive mr)) (this s);
                      host := host s |}).
        destruct (ondataavailable_frame final s0) as (Hmr & Hstr & Hcs & _ & _ & Hlive).
        pose proof (ondataavailable_run final s0) as Hrun0.
        destruct (ondataavailable final s0) as [c0 s0'] eqn:E0.
        injection Hrun0 as -> Hs0'. simpl in Hmr, Hstr, Hcs, Hlive.
        rewrite (handleStop_run s0' (mr_with_state inactive mr)) by exact Hmr.
        eexists. split; [|split].
        + f_equal. f_equal. f_equal.
          rewrite !ondataavailable_run in *. simpl.
          rewrite Hs0'. destruct final as [data|]; simpl; [|reflexivity].
          destruct (bool_decide (0 < blob_size data)); reflexivity.
        + unfold torn_down, after_cleanup; simpl. auto 10.
        + intros t Ht. rewrite after_cleanup_live, elem_of_difference, elem_of_list_to_set.
          intros [_ Hn]. apply Hn. unfold held_tracks, stopped_by_cleanup in *.
          rewrite Hstr, Hcs. exact Ht.
      - rewrite (handleStop_run s mr Emr). eexists. split; [reflexivity|]. split.
        + unfold torn_down, after_cleanup; simpl. auto 10.
        + intros t Ht. rewrite after_cleanup_live, elem_of_difference, elem_of_list_to_set.
          tauto. }
    destruct Hrun as (s1 & Hrun & Htd & Hlive).
    eexists _, s1. split; [exact Hrun|]. split; [discriminate|]. split; [eauto|].
    unfold stop. unfold mbind, M_bind, get_this.
    destruct Htd as (_ & -> & _). reflexivity.
  - exists None, s. split; [|split; [|split]].
    + unfold stop. unfold mbind, M_bind, get_this. by rewrite Emr.
    + auto.
    + intros [? [=]].
    + unfold stop. unfold mbind, M_bind, get_this. by rewrite Emr.
Qed.

(** ** [getState] *)

Lemma totalSize_from a (l : list Blob) :
  foldl (fun sum chunk => sum + blob_size chunk) a l =
  a + length (concat (map blob_bytes l)).
Proof.
  revert a. induction l as [|b l IH]; intros a; simpl; [lia|].
  rewrite IH, length_app. unfold blob_size. lia.
Qed.

Lemma recorded_nothing final s :
  recorded [final] = [] -> ondataavailable final s = (Normal tt, s).
Proof.
  intros Hf. rewrite ondataavailable_run.
  destruct final as [data|]; [|reflexivity].
  unfold recorded in Hf. simpl in Hf. rewrite filter_cons in Hf.
  case_bool_decide as E; [|reflexivity].
  rewrite decide_True in Hf by done. discriminate.
Qed.

(** X3. The [totalSize] that [getState()] reports is the size of the
    blob assembled from the queue, and [chunksCount] its length: when
    the final flush brings nothing, [stop()] resolves with a blob of
    exactly the size reported just before, and afterwards [getState()]
    reports an inactive recorder with no chunk and size 0. *)
Theorem getState_reports_artifact_size s mr final :
  mediaRecorder (this s) = Some mr ->
  recorded [final] = [] ->
  exists blob s',
    stop final s = (Normal (Some blob), s') /\
    blob_size blob = totalSize (getState (this s)) /\
    chunksCount (getState (this s)) = length (chunks (this s)) /\
    getState (this s') =
      {| gs_isRecording := false; gs_state := inactive;
         chunksCount := 0; totalSize := 0 |}.
Proof.
  intros Hmr Hf. destruct (stop_run s mr final Hmr) as (s' & Hrun & Htd).
  eexists _, s'. split; [exact Hrun|]. split; [|split; [reflexivity|]].
  - rewrite (recorded_nothing final s Hf). simpl.
    unfold blob_size at 1. simpl. rewrite totalSize_from.
    destruct (is_active (state mr)); reflexivity.
  - destruct Htd as (Hir & Hm & _ & _ & _ & _ & _ & Hch).
    unfold getState. by rewrite Hir, Hm, Hch.
Qed.

(** ** Listeners of different events *)

(** X4. [emit(event)] reaches only the listeners registered under
    that very name: listeners that [on] registered for another event
    are not called, and with no listener under the name nobody is
    called and the application's state stays as it is. *)
Theorem emit_reaches_only_its_event s other event data (cbs : list (@Callback L)) :
  other <> event ->
  exists s1 s2,
    forEach cbs (on other) s = (Normal tt, s1) /\
    emit event data s1 = (Normal tt, s2) /\
    invoked (host s2) =
      invoked (host s) ++
      map (fun cb => (cb_id cb, data)) (default [] (eventListeners (this s) !! event)) /\
    (eventListeners (this s) !! event = None ->
       invoked (host s2) = invoked (host s) /\ app (host s2) = app (host s)).
Proof.
  intros Hne. eexists _, _.
  split; [apply register_run|]. split; [apply emit_run|].
  assert (Hl : eventListeners (this match cbs with
                 | [] => s
                 | _ :: _ =>
                     {| this := set_eventListeners
                          (<[other:=default [] (eventListeners (this s) !! other) ++ cbs]>
                             (eventListeners (this s))) (this s);
                        host := host s |}
                 end) !! event = eventListeners (this s) !! event).
  { destruct cbs; [reflexivity|]. simpl. by rewrite lookup_insert_ne. }
  unfold after_emit. simpl. rewrite Hl.
  assert (Hh : host match cbs with
                 | [] => s
                 | _ :: _ =>
                     {| this := set_eventListeners
                          (<[other:=default [] (eventListeners (this s) !! other) ++ cbs]>
                             (eventListeners (this s))) (this s);
                        host := host s |}
                 end = host s) by (by destruct cbs).
  rewrite Hh. split; [reflexivity|].
  intros ->. simpl. by rewrite app_nil_r.
Qed.

(** ** What the stream builders leave alone *)

Section Keeps.

Context (R : relation (@State L)) `{!PreOrder R}.

Lemma keeps_ret {A} (a : A) : keeps R (mret a).
Proof. intros s. simpl. reflexivity. Qed.

Lemma keeps_throw {A} e : keeps R (@throw L A e).
Proof. intros s. simpl. reflexivity. Qed.

Lemma keeps_throw_Error {A} msg : keeps R (@throw_Error L A msg).
Proof. intros s. simpl. reflexivity. Qed.

Lemma keeps_lift {A} (c : Completion A) : keeps R (lift c).
Proof. intros s. simpl. reflexivity. Qed.

Lemma keeps_get_this : keeps R get_this.
Proof. intros s. simpl. reflexivity. Qed.

Lemma keeps_get_host : keeps R get_host.
Proof. intros s. simpl. reflexivity. Qed.

Lemma keeps_bind {A B} (m : M A) (f : A -> M B) :
  keeps R m -> (forall a, keeps R (f a)) -> keeps R (m ≫= f).
Proof.
  intros Hm Hf s. unfold mbind, M_bind. specialize (Hm s).
  destruct (m s) as [[a|e] s1]; simpl in *; [|exact Hm].
  etrans; [exact Hm|apply Hf].
Qed.

Lemma keeps_tryCatch {A} (body : M A) handler :
  keeps R body -> (forall e, keeps R (handler e)) -> keeps R (tryCatch body handler).
Proof.
  intros Hb Hh s. unfold tryCatch. specialize (Hb s).
  destruct (body s) as [[a|e] s1]; simpl in *; [exact Hb|].
  etrans; [exact Hb|apply Hh].
Qed.

Lemma keeps_forEach {X} (xs : list X) (f : X -> M unit) :
  (forall x, keeps R (f x)) -> keeps R (forEach xs f).
Proof.
  intros Hf. induction xs as [|x xs IH]; simpl; [apply keeps_ret|].
  apply keeps_bind; [apply Hf|intros _; exact IH].
Qed.

Lemma keeps_modify_this f :
  (forall s, R s {| this := f (this s); host := host s |}) -> keeps R (modify_this f).
Proof. intros H s. apply H. Qed.

Lemma keeps_modify_host f :
  (forall s, R s {| this := this s; host := f (host s) |}) -> keeps R (modify_host f).
Proof. intros H s. apply H. Qed.

End Keeps.

#[local] Instance same_sources_preorder : PreOrder (@same_sources L).
Proof.
  split.
  - intros s. by split.
  - intros s1 s2 s3 [H1 H2] [H3 H4]. split; congruence.
Qed.

Create HintDb keeps.

Ltac keeps_step :=
  lazymatch goal with
  | |- PreOrder _ => apply _
  | |- keeps _ (mret _) => apply keeps_ret
  | |- keeps _ (throw _) => apply keeps_throw
  | |- keeps _ (throw_Error _) => apply keeps_throw_Error
  | |- keeps _ (lift _) => apply keeps_lift
  | |- keeps _ get_this => apply keeps_get_this
  | |- keeps _ get_host => apply keeps_get_host
  | |- keeps _ (_ ≫= _) => apply keeps_bind; [..|intros ?]
  | |- keeps _ (tryCatch _ _) => apply keeps_tryCatch; [..|intros ?]
  | |- keeps _ (forEach _ _) => apply keeps_forEach; [..|intros ?]
  | |- keeps _ (modify_this _) =>
      apply keeps_modify_this; [..|intros ?; split; reflexivity]
  | |- keeps _ (modify_host _) =>
      apply keeps_modify_host; [..|intros ?; split; reflexivity]
  | |- keeps _ (let _ := _ in _) => cbv zeta
  | |- keeps _ (match ?x with _ => _ end) => destruct x
  | |- keeps _ _ => solve [auto with keeps]
  end.

Ltac keeps_steps := repeat keeps_step.

Lemma combineAudioTracks_sources env config :
  keeps (L:=L) same_sources (combineAudioTracks env config).
Proof. unfold combineAudioTracks, canvasStream_getVideoTracks, acquire. keeps_steps. Qed.

Lemma combineAudioWithVideoTrack_sources env t config :
  keeps (L:=L) same_sources (combineAudioWithVideoTrack env t config).
Proof. unfold combineAudioWithVideoTrack, acquire. keeps_steps. Qed.

#[local] Hint Resolve combineAudioTracks_sources combineAudioWithVideoTrack_sources : keeps.

Lemma createCombinedStreamCanvas_sources env config :
  keeps (L:=L) same_sources (createCombinedStreamCanvas env config).
Proof. unfold createCombinedStreamCanvas, acquire. keeps_steps. Qed.

#[local] Hint Resolve createCombinedStreamCanvas_sources : keeps.

Lemma onError_sources env config msg : keeps (L:=L) same_sources (onError env config msg).
Proof.
  unfold onError, fallbackToCanvas, Worker_terminate, resolve, reject. keeps_steps.
Qed.

#[local] Hint Resolve onError_sources : keeps.

Lemma createCombinedStream_sources env reply config :
  keeps (L:=L) same_sources (createCombinedStream env reply config).
Proof.
  unfold createCombinedStream, createCombinedStreamWebCodecs, webCodecs_init,
    worker_timeout, worker_onmessage, await_acquisition, acquire, resolve, reject.
  keeps_steps.
Qed.

(** ** Every way [start] can end *)

#[local] Instance same_settings_preorder : PreOrder (@same_settings L).
Proof.
  split.
  - intros s. by split.
  - intros s1 s2 s3 [H1 H2] [H3 H4]. split; congruence.
Qed.

Lemma setupStreams_unfold env reply config :
  setupStreams (L:=L) env reply config =
  tryCatch
    ((if uses_display config then
        st ← lift (getDisplayMedia env (display_constraints config));
        acquire st ;;
        modify_this (fun r => set_streams (set_screen (Some st) (streams r)) r) ;;
        match getVideoTracks st with
        | _ :: _ => mret tt
        | [] => throw TypeError
        end
      else mret tt) ;;
     (if uses_webcam config then
        st ← lift (getUserMedia env (user_constraints config));
        acquire st ;;
        modify_this (fun r => set_streams (set_webcam (Some st) (streams r)) r)
      else mret tt) ;;
     (if String.eqb (mode config) "combined" then createCombinedStream env reply config
      else mret tt))
    (fun error => throw_Error ("Stream setup failed: " +:+ message error)).
Proof. reflexivity. Qed.

Lemma setupStreams_sources env reply config s :
  (forall st, uses_display config = true ->
     getDisplayMedia env (display_constraints config) = Normal st ->
     screen (streams (this (setupStreams env reply config s).2)) = Some st) /\
  (forall st, uses_webcam config = true ->
     (uses_display config = true ->
      exists sc, getDisplayMedia env (display_constraints config) = Normal sc /\
                 getVideoTracks sc <> []) ->
     getUserMedia env (user_constraints config) = Normal st ->
     webcam (streams (this (setupStreams env reply config s).2)) = Some st).
Proof.
  rewrite setupStreams_unfold.
  assert (Hc : forall s0,
    same_sources s0
      ((if String.eqb (mode config) "combined"
        then createCombinedStream env reply config else mret tt) s0).2).
  { intros s0. destruct (String.eqb (mode config) "combined").
    - apply createCombinedStream_sources.
    - by split. }
  split.
  - intros st Hd Hg. rewrite Hd.
    unfold tryCatch, mbind, M_bind, lift, acquire, modify_host, modify_this, throw,
      throw_Error. rewrite Hg. simpl.
    destruct (getVideoTracks st) as [|v vs]; simpl; [reflexivity|].
    destruct (uses_webcam config); simpl.
    + destruct (getUserMedia env (user_constraints config)) as [wc|e]; simpl;
        [|reflexivity].
      match goal with |- context [(if ?b then ?m else ?n) ?s0] =>
        specialize (Hc s0); destruct ((if b then m else n) s0) as [[[]|e] s2]
      end; simpl in *; destruct Hc as [Hc _]; exact Hc.
    + match goal with |- context [(if ?b then ?m else ?n) ?s0] =>
        specialize (Hc s0); destruct ((if b then m else n) s0) as [[[]|e] s2]
      end; simpl in *; destruct Hc as [Hc _]; exact Hc.
  - intros st Hw Hd Hg. rewrite Hw.
    unfold tryCatch, mbind, M_bind, lift, acquire, modify_host, modify_this, throw,
      throw_Error. rewrite Hg.
    destruct (uses_display config); simpl.
    + destruct Hd as (sc & -> & Hv); [reflexivity|]. simpl.
      destruct (getVideoTracks sc) as [|v vs]; [done|]. simpl.
      match goal with |- context [(if ?b then ?m else ?n) ?s0] =>
        specialize (Hc s0); destruct ((if b then m else n) s0) as [[[]|e] s2]
      end; simpl in *; destruct Hc as [_ Hc]; exact Hc.
    + match goal with |- context [(if ?b then ?m else ?n) ?s0] =>
        specialize (Hc s0); destruct ((if b then m else n) s0) as [[[]|e] s2]
      end; simpl in *; destruct Hc as [_ Hc]; exact Hc.
Qed.

Lemma start_settings env reply config :
  keeps (L:=L) same_settings (start env reply config).
Proof.
  unfold start, setupStreams, createCombinedStream, createCombinedStreamWebCodecs,
    webCodecs_init, worker_timeout, worker_onmessage, await_acquisition, onError,
    fallbackToCanvas, createCombinedStreamCanvas, combineAudioTracks,
    combineAudioWithVideoTrack, canvasStream_getVideoTracks, setupRecorder,
    cleanup, cleanup_mediaRecorder, cleanup_streams, cleanup_canvasStream,
    cleanup_audioContext, cleanup_worker, cleanup_canvas, Track_stop,
    AudioContext_close, Worker_terminate, acquire, resolve, reject.
  keeps_steps.
Qed.

Lemma setupRecorder_cases env config s :
  (exists e, setupRecorder env config s = (Throw e, s)) \/
  (exists st m,
     List.find (isTypeSupported env) mimeTypes = Some m /\
     ((mode config = "screen" /\ screen (streams (this s)) = Some st) \/
      (mode config = "webcam" /\ webcam (streams (this s)) = Some st) \/
      (mode config = "combined" /\ combined (streams (this s)) = Some st)) /\
     setupRecorder env config s =
       (Normal tt,
        {| this := set_chunks []
                     (set_mediaRecorder (Some
                        {| state := inactive; mimeType := m; mr_stream := st;
                           videoBitsPerSecond := bitrate_video (bitrate config);
                           audioBitsPerSecond := bitrate_audio (bitrate config);
                           timeslice := None |}) (this s));
           host := host s |})).
Proof.
  assert (Hsel :
    (exists st,
       (mode config = "screen" /\ screen (streams (this s)) = Some st) \/
       (mode config = "webcam" /\ webcam (streams (this s)) = Some st) \/
       (mode config = "combined" /\ combined (streams (this s)) = Some st)) \/
    (exists e, setupRecorder env config s = (Throw e, s))).
  { unfold setupRecorder, mbind, M_bind, get_this, throw_Error, throw.
    destruct (String.eqb (mode config) "screen") eqn:E1.
    { apply String.eqb_eq in E1. simpl.
      destruct (screen (streams (this s))) as [st|]; eauto 10. }
    destruct (String.eqb (mode config) "webcam") eqn:E2.
    { apply String.eqb_eq in E2. simpl.
      destruct (webcam (streams (this s))) as [st|]; eauto 10. }
    destruct (String.eqb (mode config) "combined") eqn:E3.
    { apply String.eqb_eq in E3. simpl.
      destruct (combined (streams (this s))) as [st|]; eauto 10. }
    simpl. eauto. }
  destruct Hsel as [[st Hst]|He]; [|by left].
  pose proof (setupRecorder_run env config s st Hst) as Hrun.
  destruct (List.find (isTypeSupported env) mimeTypes) as [m|] eqn:Ef.
  - right. eauto 10.
  - left. eauto.
Qed.

(** What a [start] that returns leaves. *)
Lemma start_returns env reply config s s1 :
  start env reply config s = (Normal tt, s1) ->
  isRecording (this s1) = true /\ chunks (this s1) = [] /\
  exists mr,
    mediaRecorder (this s1) = Some mr /\
    state mr = recording /\ timeslice mr = Some 1000 /\
    List.find (isTypeSupported env) mimeTypes = Some (mimeType mr) /\
    ((mode config = "screen" /\ screen (streams (this s1)) = Some (mr_stream mr)) \/
     (mode config = "webcam" /\ webcam (streams (this s1)) = Some (mr_stream mr)) \/
     (mode config = "combined" /\
      combined (streams (this s1)) = Some (mr_stream mr))).
Proof.
  unfold start. unfold tryCatch at 1. unfold mbind at 1, M_bind at 1.
  destruct (setupStreams env reply config s) as [[[]|e1] s0] eqn:E1.
  - unfold mbind at 1, M_bind at 1.
    destruct (setupRecorder_cases env config s0) as [[e He]|(st & m & Hf & Hm & Hr)].
    + rewrite He. unfold mbind, M_bind. rewrite cleanup_run. discriminate.
    + rewrite Hr. unfold mbind, M_bind, get_this, lift, modify_this. simpl.
      intros [= <-]. simpl. split; [reflexivity|]. split; [reflexivity|].
      eexists. split; [reflexivity|]. simpl. auto 10.
  - unfold mbind, M_bind. rewrite cleanup_run. discriminate.
Qed.

(** A track of the screen or webcam slot is not live after [cleanup]. *)
Lemma released_by_cleanup s (st : MediaStream) t :
  screen (streams (this s)) = Some st \/ webcam (streams (this s)) = Some st ->
  t ∈ st -> track_id t ∉ live (host (after_cleanup s)).
Proof.
  intros Hst Ht. rewrite after_cleanup_live, elem_of_difference, elem_of_list_to_set.
  intros [_ Hn]. apply Hn. unfold held_tracks, stopped_by_cleanup.
  apply list_elem_of_fmap. exists t. split; [reflexivity|].
  rewrite !elem_of_app. destruct Hst as [-> | ->]; simpl; auto.
Qed.

(** X5. [start] is all or nothing, whatever the browser answers.  It
    keeps the queue bound and the listeners.  When it returns, the
    recorder is recording, in one-second slices, the stream of the
    configured mode with the first supported entry of the preference
    list, on an empty queue.  When it throws, the message starts with
    "Failed to start recording: ", the recorder is torn down, and no
    track of a stream the browser granted during the call is live:
    neither of the display stream, nor of the webcam stream (asked
    for only once the display stream, if any, was there with a video
    track). *)
Theorem start_records_or_rolls_back env reply config s :
  let '(c, s') := start env reply config s in
  same_settings s s' /\
  match c with
  | Normal _ =>
      isRecording (this s') = true /\ chunks (this s') = [] /\
      exists mr,
        mediaRecorder (this s') = Some mr /\
        state mr = recording /\ timeslice mr = Some 1000 /\
        List.find (isTypeSupported env) mimeTypes = Some (mimeType mr) /\
        ((mode config = "screen" /\ screen (streams (this s')) = Some (mr_stream mr)) \/
         (mode config = "webcam" /\ webcam (streams (this s')) = Some (mr_stream mr)) \/
         (mode config = "combined" /\
          combined (streams (this s')) = Some (mr_stream mr)))
  | Throw e =>
      (exists reason, message e = "Failed to start recording: " +:+ reason) /\
      torn_down (this s') /\
      (forall st, uses_display config = true ->
         getDisplayMedia env (display_constraints config) = Normal st ->
         forall t, t ∈ st -> track_id t ∉ live (host s')) /\
      (forall st, uses_webcam config = true ->
         (uses_display config = true ->
          exists sc, getDisplayMedia env (display_constraints config) = Normal sc /\
                     getVideoTracks sc <> []) ->
         getUserMedia env (user_constraints config) = Normal st ->
         forall t, t ∈ st -> track_id t ∉ live (host s'))
  end.
Proof.
  pose proof (start_settings env reply config s) as Hset.
  destruct (setupStreams_sources env reply config s) as [Hd Hw].
  destruct (start env reply config s) as [[[]|e] s'] eqn:Es; simpl in Hset;
    (split; [exact Hset|]); clear Hset.
  { by apply (start_returns env reply config s). }
  assert (Hcatch : exists e0 s0,
    same_sources (setupStreams env reply config s).2 s0 /\
    e = {| message := "Failed to start recording: " +:+ message e0 |} /\
    s' = after_cleanup s0).
  { revert Es. unfold start. unfold tryCatch at 1. unfold mbind at 1, M_bind at 1.
    destruct (setupStreams env reply config s) as [[[]|e1] s1] eqn:E1.
    - unfold mbind at 1, M_bind at 1.
      destruct (setupRecorder_cases env config s1) as [[e2 He]|(st & m & _ & _ & Hr)].
      + rewrite He. unfold mbind, M_bind. rewrite cleanup_run.
        intros [= <- <-]. exists e2, s1. by repeat split.
      + rewrite Hr. unfold mbind, M_bind, get_this, lift, modify_this. simpl.
        discriminate.
    - unfold mbind, M_bind. rewrite cleanup_run.
      intros [= <- <-]. exists e1, s1. by repeat split. }
  destruct Hcatch as (e0 & s0 & [Hsc Hwc] & -> & ->).
  split; [eauto|]. split; [unfold torn_down; simpl; auto 10|]. split.
  - intros sc H1 H2 t Ht. eapply released_by_cleanup; [left|exact Ht].
    rewrite Hsc. by apply Hd.
  - intros wc H1 H2 H3 t Ht. eapply released_by_cleanup; [right|exact Ht].
    rewrite Hwc. by apply Hw.
Qed.

(** ** A whole session *)

Lemma arrivals_frame (payloads : list (option Blob)) s :
  mediaRecorder (this (forEach payloads ondataavailable s).2) = mediaRecorder (this s) /\
  emitted (host (forEach payloads ondataavailable s).2) =
    emitted (host s) ++ map (fun b => ("dataavailable", DBlob b)) (recorded payloads).
Proof.
  revert s. induction payloads as [|p ps IH]; intros s.
  - simpl. by rewrite app_nil_r.
  - simpl. unfold mbind, M_bind. rewrite ondataavailable_run.
    destruct p as [data|]; simpl; [|apply IH].
    unfold recorded. simpl. rewrite filter_cons.
    destruct (bool_decide (0 < blob_size data)) eqn:E.
    + apply bool_decide_eq_true in E. rewrite decide_True by done.
      destruct (IH (after_emit "dataavailable" (DBlob data)
                      {| this := set_chunks
                                   (enqueue (maxChunks (this s)) (chunks (this s)) data)
                                   (this s);
                         host := host s |})) as [-> ->].
      simpl. by rewrite <- app_assoc.
    + apply bool_decide_eq_false in E. rewrite decide_False by done. apply IH.
Qed.

Lemma recorded_app (l1 l2 : list (option Blob)) :
  recorded (l1 ++ l2) = recorded l1 ++ recorded l2.
Proof. unfold recorded. by rewrite omap_app, list.filter_app. Qed.

Lemma forEach_app {X} (xs ys : list X) (f : X -> M (L:=L) unit) s s1 :
  forEach xs f s = (Normal tt, s1) ->
  forEach (xs ++ ys) f s = forEach ys f s1.
Proof.
  revert s. induction xs as [|x xs IH]; intros s; simpl.
  - by intros [= ->].
  - unfold mbind, M_bind. destruct (f x s) as [[[]|e] s0]; [apply IH|discriminate].
Qed.

(** X6. A session from [start] to [stop].  After a [start] that
    returned, any run of flushes and a [stop()] whose final flush is
    [final] resolve with a blob tagged with the first supported entry
    of the preference list, whose bytes are the last [maxChunks]
    non-empty payloads of the session, concatenated in arrival order;
    one [dataavailable] event was emitted for every non-empty payload,
    evicted or not; and [getState()] is back to an inactive recorder
    with no chunk. *)
Theorem session_yields_last_chunks env reply config s s1
    (payloads : list (option Blob)) final :
  1 <= maxChunks (this s) ->
  start env reply config s = (Normal tt, s1) ->
  exists s2 blob s3,
    forEach payloads ondataavailable s1 = (Normal tt, s2) /\
    stop final s2 = (Normal (Some blob), s3) /\
    blob_bytes blob =
      concat (map blob_bytes
                (lastn (maxChunks (this s)) (recorded (payloads ++ [final])))) /\
    List.find (isTypeSupported env) mimeTypes = Some (blob_type blob) /\
    emitted (host s3) =
      emitted (host s1) ++
      map (fun b => ("dataavailable", DBlob b)) (recorded (payloads ++ [final])) /\
    getState (this s3) =
      {| gs_isRecording := false; gs_state := inactive;
         chunksCount := 0; totalSize := 0 |}.
Proof.
  intros Hmax Hstart.
  destruct (start_settings env reply config s) as [Hmx _]. rewrite Hstart in Hmx.
  simpl in Hmx.
  destruct (start_returns env reply config s s1 Hstart)
    as (_ & Hch & mr & Hmr & Hst & _ & Hf & _).
  destruct (arrivals_run (payloads ++ [final]) s1) as (s2' & Hall & _ & Hq).
  destruct (arrivals_run payloads s1) as (s2 & Hrun & Hmx2 & _).
  destruct (arrivals_frame payloads s1) as [Hmr2 _].
  destruct (arrivals_frame (payloads ++ [final]) s1) as [_ Hem].
  rewrite Hrun in Hmr2. simpl in Hmr2. rewrite Hmr in Hmr2.
  rewrite Hall in Hem. simpl in Hem.
  rewrite (forEach_app _ _ _ _ _ Hrun) in Hall. simpl in Hall.
  unfold mbind, M_bind in Hall.
  destruct (ondataavailable final s2) as [c2 s2''] eqn:Efin.
  pose proof (ondataavailable_run final s2) as Hfin. rewrite Efin in Hfin.
  injection Hfin as -> Hs2''. injection Hall as Hall.
  rewrite Hch, Hmx in Hq. rewrite queue_is_lastn in Hq by (simpl; lia).
  simpl in Hq.
  set (s0 := {| this := set_mediaRecorder (Some (mr_with_state inactive mr)) (this s2);
                host := host s2 |}).
  pose proof (ondataavailable_run final s0) as Hrun0.
  assert (Hstop : stop final s2 = handleStop (ondataavailable final s0).2).
  { unfold stop, mbind, M_bind, get_this. rewrite Hmr2.
    unfold is_active, lift, MediaRecorder_stop. rewrite Hst. unfold modify_this.
    fold s0. by rewrite Hrun0. }
  destruct (ondataavailable final s0) as [c0 s0'] eqn:E0.
  injection Hrun0 as -> Hs0'. simpl in Hstop.
  assert (Hrel : chunks (this s0') = chunks (this s2') /\
                 emitted (host s0') = emitted (host s2') /\
                 mediaRecorder (this s0') = Some (mr_with_state inactive mr)).
  { rewrite Hs0', <- Hall, Hs2''. destruct final as [data|]; [|done].
    destruct (bool_decide (0 < blob_size data)); done. }
  destruct Hrel as (Hc & He & Hm0).
  rewrite (handleStop_run s0' (mr_with_state inactive mr) Hm0) in Hstop.
  eexists _, _, _. split; [exact Hrun|]. split; [exact Hstop|].
  cbn [blob_bytes blob_type new_Blob mimeType mr_with_state].
  rewrite (find_in_mimeTypes _ _ Hf), Hc, Hq.
  split; [reflexivity|]. split; [exact Hf|]. split; [|reflexivity].
  rewrite <- Hem, <- He. unfold after_cleanup. simpl.
  destruct (stopped_other (stopped_by_cleanup (this s0')) (host s0'))
    as (_ & _ & _ & _ & _ & Hemi & _).
  destruct (worker (this s0')), (audioContext (this s0')); simpl;
    try match goal with |- context [bool_decide ?P] => destruct (bool_decide P) end;
    simpl; exact Hemi.
Qed.

(** ** Audio beside the composed video *)

Lemma collect_audio_origin config r t :
  t ∈ collect_audio config r ->
  kind t = audio /\
  ((mic (cfg_audio config) = true /\
    exists st, webcam (streams r) = Some st /\ t ∈ st) \/
   (system (cfg_audio config) = true /\
    exists st, screen (streams r) = Some st /\ t ∈ st)).
Proof.
  unfold collect_audio, getAudioTracks. rewrite elem_of_app. intros [H|H].
  - destruct (mic (cfg_audio config)); [|by apply elem_of_nil in H].
    destruct (webcam (streams r)) as [st|]; [|by apply elem_of_nil in H].
    apply list_elem_of_filter in H as [Hk Hin]. split; [exact Hk|]. left. eauto.
  - destruct (system (cfg_audio config)); [|by apply elem_of_nil in H].
    destruct (screen (streams r)) as [st|]; [|by apply elem_of_nil in H].
    apply list_elem_of_filter in H as [Hk Hin]. split; [exact Hk|]. right. eauto.
Qed.

(** X7. Audio never stops a composition.  Without both acceleration
    capabilities, and the canvas ready, [createCombinedStream] returns
    with the canvas stream captured at the configured frame rate and,
    as combined stream, that very stream when no audio track was
    collected, else its video tracks followed by the mixed audio: the
    destination tracks of the mixing graph, or, when the graph could
    not be built, the first collected track alone; no worker, timer or
    promise is touched.  [combineAudioWithVideoTrack] always returns
    the video track it was given followed by the same audio.  Every
    collected track is an audio track of the webcam stream with the
    microphone enabled, or of the screen stream with system audio
    enabled. *)
Theorem audio_mixing_is_best_effort env reply config s :
  (webCodecs (capabilities (this s)) && offscreenCanvas (capabilities (this s)) = false ->
   canvas_ready env = Normal tt ->
   exists s',
     createCombinedStream env reply config s = (Normal tt, s') /\
     canvasStream (this s') = Some (captureStream env (frameRate (cfg_video config))) /\
     combined (streams (this s')) =
       Some (match collect_audio config (this s) with
             | [] => captureStream env (frameRate (cfg_video config))
             | _ :: _ =>
                 getVideoTracks (captureStream env (frameRate (cfg_video config))) ++
                 mixed_audio env config (this s)
             end) /\
     same_sources s s' /\ same_acceleration s s') /\
  (forall videoTrack, exists s',
     combineAudioWithVideoTrack env videoTrack config s =
       (Normal (videoTrack :: mixed_audio env config (this s)), s') /\
     streams (this s') = streams (this s)) /\
  (forall t, t ∈ collect_audio config (this s) ->
     kind t = audio /\
     ((mic (cfg_audio config) = true /\
       exists st, webcam (streams (this s)) = Some st /\ t ∈ st) \/
      (system (cfg_audio config) = true /\
       exists st, screen (streams (this s)) = Some st /\ t ∈ st))).
Proof.
  split; [|split; [|intros t; apply collect_audio_origin]].
  - intros Hcap Hready.
    unfold createCombinedStream. unfold mbind at 1, M_bind at 1. unfold get_this at 1.
    rewrite Hcap. unfold createCombinedStreamCanvas, combineAudioTracks,
      canvasStream_getVideoTracks, mixed_audio, same_sources, same_acceleration.
    unfold mbind, M_bind, modify_this, lift, acquire, modify_host, get_this, tryCatch.
    rewrite Hready. destruct s as [r h]. simpl.
    assert (Hc : collect_audio config
                   (set_canvasStream (Some (captureStream env (frameRate (cfg_video config))))
                      (set_canvas (Some {| canvas_width := width (cfg_video config);
                                           canvas_height := height (cfg_video config) |}) r))
                 = collect_audio config r) by reflexivity.
    rewrite Hc. destruct (collect_audio config r) as [|a rest]; simpl.
    + eexists. split; [reflexivity|]. simpl. auto 10.
    + destruct (new_AudioContext env) as [ctx|e]; simpl;
        [destruct (mixed_tracks env) as [out|e]; simpl|];
        (eexists; split; [reflexivity|]; simpl; auto 10).
  - intros v. unfold combineAudioWithVideoTrack, mixed_audio.
    unfold mbind, M_bind, get_this. destruct s as [r h]. simpl.
    destruct (collect_audio config r) as [|a rest]; simpl.
    + eexists. split; reflexivity.
    + unfold tryCatch, mbind, M_bind, lift, modify_this, acquire, modify_host. simpl.
      destruct (new_AudioContext env) as [ctx|e]; simpl;
        [destruct (mixed_tracks env) as [out|e]; simpl|];
        (eexists; split; reflexivity).
Qed.

(** ** What a failed [start] reports *)

(** X8. A failed [start] names its cause.  An unknown mode asks the
    browser for nothing and is reported as "Failed to start
    recording: Unknown recording mode: " followed by the mode.  A
    display request the browser turns down is reported with the
    browser's message behind "Failed to start recording: Stream setup
    failed: "; so is a webcam request turned down, whether asked
    first or after a display stream was granted.  In the first two
    cases the state left is the one [cleanup] makes of the state at
    the call. *)
Theorem start_reports_the_cause env reply config s :
  (uses_display config = false -> uses_webcam config = false ->
   start env reply config s =
     (Throw {| message := "Failed to start recording: Unknown recording mode: "
                          +:+ mode config |},
      after_cleanup s)) /\
  (forall e, uses_display config = true ->
     getDisplayMedia env (display_constraints config) = Throw e ->
     start env reply config s =
       (Throw {| message := "Failed to start recording: Stream setup failed: "
                            +:+ message e |},
        after_cleanup s)) /\
  (forall e, uses_webcam config = true ->
     (uses_display config = true ->
      exists sc, getDisplayMedia env (display_constraints config) = Normal sc /\
                 getVideoTracks sc <> []) ->
     getUserMedia env (user_constraints config) = Throw e ->
     exists s',
       start env reply config s =
         (Throw {| message := "Failed to start recording: Stream setup failed: "
                              +:+ message e |}, s') /\
       torn_down (this s')).
Proof.
  split; [|split].
  - intros Hd Hw.
    assert (Hs : String.eqb (mode config) "screen" = false /\
                 String.eqb (mode config) "webcam" = false /\
                 String.eqb (mode config) "combined" = false).
    { unfold uses_display, uses_webcam in *.
      apply orb_false_iff in Hd as [? ?]. apply orb_false_iff in Hw as [? ?]. auto. }
    destruct Hs as (H1 & H2 & H3).
    unfold start. rewrite setupStreams_unfold, Hd, Hw, H3. unfold setupRecorder.
    rewrite H1, H2, H3.
    unfold tryCatch, mbind, M_bind, get_this, throw_Error, throw. simpl.
    rewrite cleanup_run. reflexivity.
  - intros e Hd Hg.
    unfold start. rewrite setupStreams_unfold, Hd.
    unfold tryCatch, mbind, M_bind, lift, throw_Error, throw. rewrite Hg. simpl.
    rewrite cleanup_run. reflexivity.
  - intros e Hw Hd Hg.
    unfold start. rewrite setupStreams_unfold, Hw.
    unfold tryCatch, mbind, M_bind, lift, throw_Error, throw, acquire, modify_host,
      modify_this.
    rewrite Hg. destruct (uses_display config).
    + destruct Hd as (sc & -> & Hv); [reflexivity|]. simpl.
      destruct (getVideoTracks sc) as [|v vs]; [done|]. simpl.
      rewrite cleanup_run. eexists. split; [reflexivity|].
      unfold torn_down. simpl. auto 10.
    + simpl. rewrite cleanup_run. eexists. split; [reflexivity|].
      unfold torn_down. simpl. auto 10.
Qed.

(** ** Teardown between [stop()] and the recorder's stop event *)

Lemma stop_call_events final s :
  stop final s =
  (c ← stop_call;
   match c with
   | Settled result => mret result
   | Awaiting => stop_events final
   end) s.
Proof.
  unfold stop, stop_call, stop_events. unfold mbind, M_bind, get_this.
  destruct (mediaRecorder (this s)) as [mr|]; [|reflexivity].
  destruct (is_active (state mr)).
  - unfold lift. destruct (MediaRecorder_stop mr) as [mr'|e]; reflexivity.
  - destruct (handleStop s) as [[b|e] s']; reflexivity.
Qed.

(** X9. [stop()] is the call followed by the recorder's events.  When
    [cleanup()] runs between the two, on a recorder that was recording
    or paused, the promise of [stop()] is rejected with the error of
    reading [mimeType] of null: no blob is made, whatever the queue held
    and the final flush brings; the recorder is left torn down, none
    of the tracks it held live. *)
Theorem cleanup_before_stop_event_rejects s mr final :
  mediaRecorder (this s) = Some mr ->
  is_active (state mr) = true ->
  (stop_call ;; stop_events final) s = stop final s /\
  exists s',
    (stop_call ;; cleanup ;; stop_events final) s = (Throw TypeError, s') /\
    torn_down (this s') /\
    forall t, t ∈ held_tracks (this s) -> t ∉ live (host s').
Proof.
  intros Hmr Hact. split.
  - rewrite stop_call_events. unfold stop_call, mbind, M_bind, get_this.
    rewrite Hmr, Hact. unfold lift, MediaRecorder_stop.
    destruct (state mr); [discriminate|reflexivity|reflexivity].
  - unfold stop_call, stop_events. unfold mbind, M_bind, get_this.
    rewrite Hmr, Hact. unfold lift, MediaRecorder_stop.
    assert (Hst : match state mr with
                  | inactive => Throw InvalidStateError
                  | _ => Normal (mr_with_state inactive mr)
                  end = Normal (mr_with_state inactive mr)).
    { destruct (state mr); [discriminate|reflexivity|reflexivity]. }
    rewrite Hst. unfold modify_this. simpl. rewrite cleanup_run.
    set (s0 := {| this := set_mediaRecorder (Some (mr_with_state inactive mr)) (this s);
                  host := host s |}).
    assert (Hheld : held_tracks (this s0) = held_tracks (this s)) by reflexivity.
    destruct (ondataavailable_frame final (after_cleanup s0))
      as (Hm & Hstr & Hcs & _ & _ & Hlive).
    pose proof (ondataavailable_run final (after_cleanup s0)) as Hrun.
    destruct (ondataavailable final (after_cleanup s0)) as [c1 s1] eqn:E1.
    injection Hrun as -> Hs1. clear Hs1 E1. simpl in Hm, Hstr, Hcs.
    change (live (host s1) = live (host (after_cleanup s0))) in Hlive.
    unfold handleStop, tryCatch, mbind, M_bind, get_this. rewrite Hm.
    unfold throw, detached, tryCatch. rewrite cleanup_run.
    eexists. split; [reflexivity|]. split; [unfold torn_down; simpl; auto 10|].
    intros t Ht. rewrite after_cleanup_live, Hlive, after_cleanup_live, Hheld.
    rewrite !elem_of_difference, elem_of_list_to_set. tauto.
Qed.

(** ** Errors reported to the listeners *)

(** X10. An error of the encoder and the end of the screen share are
    only told to the listeners of [error]: one event is emitted, with
    the message "Recording error: " and the encoder's message (or
    "Unknown error" when it has none), or "Screen sharing was stopped";
    the recorder itself is left exactly as it was, still recording
    with its queue and its tracks, and with no listener registered
    nothing else changes either. *)
Theorem errors_only_notify error_message s :
  let reported :=
    DError {| message :=
                "Recording error: " +:+
                match error_message with
                | Some m => if String.eqb m "" then "Unknown error" else m
                | None => "Unknown error"
                end |} in
  let ended := DError {| message := "Screen sharing was stopped" |} in
  onerror error_message s = (Normal tt, after_emit "error" reported s) /\
  screen_ended s = (Normal tt, after_emit "error" ended s) /\
  (forall data,
     this (after_emit "error" data s) = this s /\
     live (host (after_emit "error" data s)) = live (host s) /\
     emitted (host (after_emit "error" data s)) = emitted (host s) ++ [("error", data)] /\
     (eventListeners (this s) !! "error" = None ->
      invoked (host (after_emit "error" data s)) = invoked (host s) /\
      app (host (after_emit "error" data s)) = app (host s))).
Proof.
  simpl. split; [apply emit_run|]. split; [apply emit_run|].
  intros data. split; [reflexivity|]. split; [reflexivity|]. split; [reflexivity|].
  intros Hnone. unfold after_emit. rewrite Hnone. simpl. by rewrite app_nil_r.
Qed.

(** ** Messages of the worker after it was ready *)

#[local] Instance same_recording_preorder : PreOrder (@same_recording L).
Proof.
  split.
  - intros s. by split.
  - intros s1 s2 s3 [H1 H2] [H3 H4]. split; congruence.
Qed.

Lemma worker_onmessage_recording env config msg :
  keeps (L:=L) same_recording (worker_onmessage env config msg).
Proof.
  unfold worker_onmessage, onError, fallbackToCanvas, createCombinedStreamCanvas,
    combineAudioTracks, combineAudioWithVideoTrack, canvasStream_getVideoTracks,
    Worker_terminate, acquire, resolve, reject.
  keeps_steps.
Qed.

(** X11. Once the worker was ready and the recorder records the
    combined stream built on its generator, the safety timer finds
    that stream and does nothing.  An [error] message of the worker,
    though, still runs the fallback: the worker is terminated and the
    combined stream replaced by one on the canvas stream, while the
    encoder, its stream and its queue stay what they were; the promise,
    already fulfilled, stays so. *)
Theorem worker_error_after_ready env config s w mr data :
  worker (this s) = Some w ->
  is_Some (combined (streams (this s))) ->
  mediaRecorder (this s) = Some mr ->
  acquisition (host s) = Fulfilled ->
  canvas_ready env = Normal tt ->
  worker_timeout env config s = (Normal tt, s) /\
  exists s',
    worker_onmessage env config (Failed data) s = (Normal tt, s') /\
    terminated (host s') = terminated (host s) ++ [w] /\
    worker (this s') = None /\
    canvasStream (this s') = Some (captureStream env (frameRate (cfg_video config))) /\
    combined (streams (this s')) =
      Some (match collect_audio config (this s) with
            | [] => captureStream env (frameRate (cfg_video config))
            | _ :: _ =>
                getVideoTracks (captureStream env (frameRate (cfg_video config))) ++
                mixed_audio env config (this s)
            end) /\
    mediaRecorder (this s') = Some mr /\
    chunks (this s') = chunks (this s) /\
    acquisition (host s') = Fulfilled.
Proof.
  intros Hw [st Hco] Hmr Hacq Hready. split.
  - unfold worker_timeout, mbind, M_bind, get_this. by rewrite Hco.
  - destruct (worker_onmessage_recording env config (Failed data) s) as [Hm Hch].
    rewrite Hmr in Hm. revert Hm Hch.
    change (worker_onmessage env config (Failed data) s)
      with (onError env config data s).
    rewrite (onError_run env config data s w Hw).
    unfold createCombinedStreamCanvas, combineAudioTracks,
      canvasStream_getVideoTracks, mixed_audio.
    unfold mbind, M_bind, modify_this, lift, acquire, modify_host, get_this, tryCatch.
    rewrite Hready. destruct s as [r h]. simpl in *.
    assert (Hc : collect_audio config
                   (set_canvasStream (Some (captureStream env (frameRate (cfg_video config))))
                      (set_canvas (Some {| canvas_width := width (cfg_video config);
                                           canvas_height := height (cfg_video config) |})
                         (set_worker None r)))
                 = collect_audio config r) by reflexivity.
    rewrite Hc. destruct (collect_audio config r) as [|a rest]; simpl.
    + unfold resolve, modify_host. simpl. rewrite Hacq. intros Hm Hch.
      eexists. split; [reflexivity|]. simpl. auto 10.
    + destruct (new_AudioContext env) as [ctx|e]; simpl;
        [destruct (mixed_tracks env) as [out|e]; simpl|];
        unfold resolve, modify_host; simpl; rewrite Hacq; intros Hm Hch;
        (eexists; split; [reflexivity|]; simpl; auto 10).
Qed.

End Coverage.

(** ** The worker's loop, further *)

Module CompositorCoverage.

Import Compositor CompositorFacts Loop.

Local Open Scope Qc_scope.

(** *** Running on *)

Lemma composeLoop_app pre post k k1 :
  composeLoop pre k = (Suspended, k1) ->
  composeLoop (pre ++ post) k = composeLoop post k1 /\ isRunning k1 = true.
Proof.
  revert k. induction pre as [|t pre IH]; intros k; simpl.
  - destruct (isRunning k) eqn:Er; [|discriminate].
    intros [= <-]. split; [|exact Er]. destruct post; simpl; by rewrite Er.
  - destruct (isRunning k) eqn:Er; [|discriminate].
    destruct (pass t k) as [[] k']; [apply IH|discriminate|discriminate].
Qed.

Lemma after_loop_frame k :
  writer_closed (after_loop k) = true /\ written (after_loop k) = written k /\
  isRunning (after_loop k) = isRunning k.
Proof.
  unfold after_loop.
  destruct (screenFrame k) as [sv|]; simpl;
    destruct (webcamFrame k) as [wv|]; simpl; auto.
Qed.

Lemma stopped_loop ticks k :
  isRunning k = false -> composeLoop ticks k = (Finished, after_loop k).
Proof. intros Hr. destruct ticks; simpl; by rewrite Hr. Qed.

Lemma read_frames_closed t k :
  writer_closed k = true ->
  (read_frames t k).1 <> Continue /\
  isRunning (read_frames t k).2 = isRunning k /\
  writer_closed (read_frames t k).2 = true /\
  written (read_frames t k).2 = written k.
Proof.
  intros Hc. destruct k as [run last cs rate sf wf wc wr o hs]. simpl in Hc. subst wc.
  unfold read_frames, composite.
  destruct (s t) as [|sv], (w t) as [|wv], sf, wf; simpl; try by repeat split.
  all: destruct (draw_rejects t); simpl; by repeat split.
Qed.

(** X12. A [stop] message ends the loop for good.  Whatever the
    passes before did and whatever the host offers afterwards, once a
    [stop] message was handled [composeLoop] is over: the run has
    finished or was rejected, the writer is closed, and no frame was
    written beyond those written before the message. *)
Theorem stop_message_ends_loop pre t post k k1 :
  composeLoop pre k = (Suspended, k1) ->
  stop_message t = true ->
  let r := composeLoop (pre ++ t :: post) k in
  r.1 <> Suspended /\ isRunning r.2 = false /\ writer_closed r.2 = true /\
  written r.2 = written k1.
Proof.
  intros Hpre Hstop r. unfold r.
  destruct (composeLoop_app pre (t :: post) k k1 Hpre) as [-> Hrun].
  simpl. rewrite Hrun. unfold pass. rewrite Hstop.
  case_bool_decide as Hgate.
  - rewrite stopped_loop by reflexivity.
    destruct (after_loop_frame (stop k1)) as (Hw & Hwr & Hr).
    cbn [fst snd]. rewrite Hw, Hwr, Hr. by repeat split.
  - destruct (read_frames_closed t (stop k1) eq_refl) as (Ho & Hr & Hw & Hwr).
    destruct (read_frames t (stop k1)) as [[] k2]; cbn [fst snd] in *; [done| |].
    + destruct (after_loop_frame k2) as (Hw' & Hwr' & Hr').
      rewrite Hw', Hwr', Hr', Hr, Hwr. by repeat split.
    + rewrite Hr, Hw, Hwr. by repeat split.
Qed.

(** *** The buffers left when the loop is over *)

Lemma after_loop_open k :
  open (after_loop k) = closing (webcamFrame k) (closing (screenFrame k) (open k)).
Proof.
  unfold after_loop.
  destruct (screenFrame k) as [sv|]; simpl; destruct (webcamFrame k) as [wv|]; reflexivity.
Qed.

Lemma closing_length kept o : (length (closing kept o) <= length o)%nat.
Proof. destruct kept; simpl; [apply length_filter|reflexivity]. Qed.

(** At the head of the loop every open buffer is a kept frame, so
    closing the kept frames closes them all. *)
Lemma closing_at_head k :
  at_head k -> closing (webcamFrame k) (closing (screenFrame k) (open k)) = [].
Proof.
  intros (_ & (_ & _ & Hc) & Hks & Hkw).
  apply list.elem_of_nil_inv. intros [i f] Hin.
  pose proof (closing_subset _ _ _ Hin) as Hin1.
  pose proof (closing_subset _ _ _ Hin1) as Hin0.
  destruct i.
  - destruct (Hks f Hin0) as (v & Hv & Hid). rewrite Hv in Hin1. simpl in Hin1.
    apply list_elem_of_filter in Hin1 as [Hne _]. simpl in Hne. congruence.
  - destruct (Hkw f Hin0) as (v & Hv & Hid). rewrite Hv in Hin. simpl in Hin.
    apply list_elem_of_filter in Hin as [Hne _]. simpl in Hne. congruence.
  - assert (Hpos : (0 < live_buffers Composed (open k))%nat); [|lia].
    unfold live_buffers.
    assert (Hf : (Composed, f) ∈ filter (fun p : Input * nat => p.1 = Composed) (open k)).
    { apply list_elem_of_filter. by split. }
    destruct (filter (fun p : Input * nat => p.1 = Composed) (open k));
      [by apply elem_of_nil in Hf|simpl; lia].
Qed.

Lemma stop_at_head k : at_head k -> at_head (stop k).
Proof. intros H. exact H. Qed.

(** A pass that leaves the loop read an end of stream; it kept the
    frames it had and opened at most the one frame the other reader
    delivered. *)
Lemma pass_break t k k' :
  pass t k = (Break, k') ->
  screenFrame k' = screenFrame k /\ webcamFrame k' = webcamFrame k /\
  ((ends_together t /\ open k' = open k) \/
   (~ ends_together t /\ exists p, open k' = p :: open k)).
Proof.
  unfold pass. case_bool_decide; [discriminate|].
  unfold read_frames, ends_together.
  destruct (s t) as [|sv], (w t) as [|wv]; simpl.
  - intros [= <-]. split; [by destruct (stop_message t)|].
    split; [by destruct (stop_message t)|]. left.
    split; [done|by destruct (stop_message t)].
  - intros [= <-]. split; [by destruct (stop_message t)|].
    split; [by destruct (stop_message t)|]. right.
    split; [intros [Hd _]; by specialize (Hd eq_refl)|].
    eexists. by destruct (stop_message t).
  - intros [= <-]. split; [by destruct (stop_message t)|].
    split; [by destruct (stop_message t)|]. right.
    split; [intros [_ Hd]; by specialize (Hd eq_refl)|].
    eexists. by destruct (stop_message t).
  - unfold composite.
    repeat match goal with
           | |- context [if ?b then _ else _] => destruct b
           end; discriminate.
Qed.

Lemma composeLoop_finished ticks k k' :
  at_head k ->
  composeLoop ticks k = (Finished, k') ->
  writer_closed k' = true /\
  (length (open k') <= 1)%nat /\
  (Forall ends_together ticks -> open k' = []).
Proof.
  revert k. induction ticks as [|t ticks IH]; intros k Hk; simpl.
  - destruct (isRunning k); [discriminate|]. intros [= <-].
    split; [apply after_loop_frame|].
    rewrite after_loop_open, closing_at_head by done. simpl. split; [lia|done].
  - destruct (isRunning k).
    + destruct (pass_bounded t k Hk) as [_ Hc].
      destruct (pass t k) as [[] k1] eqn:Ep; [|intros [= <-]|discriminate].
      * intros Hrun. destruct (IH k1 (Hc eq_refl) Hrun) as (H1 & H2 & H3).
        split; [exact H1|]. split; [exact H2|].
        intros Hall. apply H3. by inversion Hall.
      * destruct (pass_break t k k1 Ep) as (Hs & Hw & Hopen).
        split; [apply after_loop_frame|]. rewrite after_loop_open, Hs, Hw.
        destruct Hopen as [[He ->]|[He [p ->]]].
        -- rewrite closing_at_head by done. simpl. split; [lia|done].
        -- change (p :: open k) with ([p] ++ open k).
           rewrite !closing_app, closing_at_head, app_nil_r by done. split.
           ++ etrans; [apply closing_length|]. etrans; [apply closing_length|done].
           ++ intros Hall. inversion Hall; subst. contradiction.
    + intros [= <-]. split; [apply after_loop_frame|].
      rewrite after_loop_open, closing_at_head by done. simpl. split; [lia|done].
Qed.

(** X13. When [composeLoop] finishes, by a [stop] message or by the
    end of a stream, the writer is closed and at most one frame buffer
    is left open: the frame that one reader delivered together with
    the other reader's end of stream, which nobody closes.  When on
    every pass both readers end together or neither does, no buffer is
    left open. *)
Theorem finished_loop_releases ticks W H rate k :
  composeLoop ticks (init W H rate) = (Finished, k) ->
  writer_closed k = true /\
  (length (open k) <= 1)%nat /\
  (Forall ends_together ticks -> open k = []).
Proof. apply composeLoop_finished, init_at_head. Qed.

(** *** What is written *)

(** What one pass adds to [written], on a canvas of [W] by [H]. *)
Lemma pass_written W H t k :
  canvas_size k = (W, H) ->
  canvas_size (pass t k).2 = (W, H) /\
  (written (pass t k).2 = written k \/
   exists o, output W H t = Some o /\ written (pass t k).2 = written k ++ [o]).
Proof.
  intros Hcs. destruct k as [run last cs rate sf wf wc wr o hs]. simpl in Hcs. subst cs.
  unfold pass, read_frames, composite, output.
  destruct (stop_message t); simpl;
    (case_bool_decide; simpl; [by auto|]);
    destruct (s t) as [|sv], (w t) as [|wv]; simpl; auto;
    destruct sf, wf, (draw_rejects t), wc; simpl; eauto.
Qed.

Lemma after_loop_canvas k : canvas_size (after_loop k) = canvas_size k.
Proof.
  unfold after_loop.
  destruct (screenFrame k) as [sv|]; simpl; destruct (webcamFrame k) as [wv|]; reflexivity.
Qed.

Lemma composeLoop_written W H ticks k :
  canvas_size k = (W, H) ->
  exists more,
    written (composeLoop ticks k).2 = written k ++ more /\
    sublist more (omap (output W H) ticks).
Proof.
  revert k. induction ticks as [|t ticks IH]; intros k Hcs; simpl.
  - exists []. rewrite app_nil_r. split; [|constructor].
    destruct (isRunning k); simpl; [reflexivity|apply after_loop_frame].
  - destruct (isRunning k); simpl.
    + destruct (pass_written W H t k Hcs) as [Hcs' Hw].
      assert (Hstep : exists one,
        written (pass t k).2 = written k ++ one /\
        sublist one (match output W H t with Some o => [o] | None => [] end)).
      { destruct Hw as [Hw|(o & Ho & Hw)].
        - exists []. rewrite app_nil_r. split; [exact Hw|apply sublist_nil_l].
        - exists [o]. rewrite Ho. split; [exact Hw|reflexivity]. }
      destruct Hstep as (one & Hone & Hsub).
      assert (Hcons : forall more, sublist more (omap (output W H) ticks) ->
                sublist (one ++ more)
                  (match output W H t with
                   | Some y => y :: omap (output W H) ticks
                   | None => omap (output W H) ticks
                   end)).
      { intros more Hm. destruct (output W H t) as [o|].
        - change (o :: omap (output W H) ticks) with ([o] ++ omap (output W H) ticks).
          by apply sublist_app.
        - apply sublist_nil_r in Hsub as ->. exact Hm. }
      destruct (pass t k) as [[] k1]; cbn [fst snd] in *.
      * destruct (IH k1 Hcs') as (more & Hmore & Hsm).
        exists (one ++ more). rewrite Hmore, Hone, app_assoc. split; [reflexivity|].
        by apply Hcons.
      * exists (one ++ []). destruct (after_loop_frame k1) as (_ & -> & _).
        rewrite Hone, app_nil_r. split; [reflexivity|].
        rewrite <- (app_nil_r one) at 1. apply Hcons, sublist_nil_l.
      * exists (one ++ []). rewrite Hone, app_nil_r. split; [reflexivity|].
        rewrite <- (app_nil_r one) at 1. apply Hcons, sublist_nil_l.
    + exists []. rewrite app_nil_r. split; [apply after_loop_frame|apply sublist_nil_l].
Qed.

(** X14. The worker writes frames in the order it read them, each at
    most once: whatever the host does, the frames written are, in
    order, among the outputs of the passes, the output of a pass being
    the drawing of the two frames it read under the screen frame's
    timestamp (or the clock in microseconds when it has none); a pass
    that read an end of stream has none. *)
Theorem written_in_reading_order ticks W H rate :
  sublist (written (composeLoop ticks (init W H rate)).2) (omap (output W H) ticks).
Proof.
  destruct (composeLoop_written W H ticks (init W H rate) eq_refl) as (more & Hw & Hs).
  rewrite Hw. exact Hs.
Qed.

(** *** The output rate *)

Lemma num_plus a b : num (a + b) = num a + num b.
Proof.
  apply Qc_is_canon. unfold num. simpl.
  rewrite !Qred_correct, inject_Z_plus. reflexivity.
Qed.

Lemma num_succ (n : nat) : num (Z.of_nat (S n)) = num (Z.of_nat n) + 1.
Proof. rewrite Nat2Z.inj_succ. unfold Z.succ. by rewrite num_plus. Qed.

Lemma read_frames_clock t k :
  config_frameRate (read_frames t k).2 = config_frameRate k /\
  ((written (read_frames t k).2 = written k /\
    lastFrameTime (read_frames t k).2 = lastFrameTime k) \/
   (length (written (read_frames t k).2) = S (length (written k)) /\
    lastFrameTime (read_frames t k).2 = now t)).
Proof.
  destruct k as [run last cs rate sf wf wc wr o hs].
  unfold read_frames, composite.
  destruct (s t) as [|sv], (w t) as [|wv]; simpl; auto;
    destruct sf, wf, (draw_rejects t), wc; simpl; auto;
    (split; [reflexivity|]); right; rewrite length_app; simpl;
    (split; [lia|reflexivity]).
Qed.

Lemma pass_paced t k : paced k -> paced (pass t k).2.
Proof.
  unfold paced, pass. intros Hp.
  set (k0 := if stop_message t then stop k else k).
  assert (H0 : targetFrameTime k0 = targetFrameTime k /\
               written k0 = written k /\ lastFrameTime k0 = lastFrameTime k)
    by (unfold k0; by destruct (stop_message t)).
  destruct H0 as (Hc & Hw & Hl).
  destruct (bool_decide (now t - lastFrameTime k0 < targetFrameTime k0)) eqn:Hg;
    cbn [snd]; [by rewrite Hc, Hw, Hl|].
  apply bool_decide_eq_false in Hg. rewrite Hc, Hl in Hg.
  destruct (read_frames_clock t k0) as [Hc' [[Hw' Hl']|[Hw' Hl']]];
    unfold targetFrameTime in *; rewrite Hc', Hc.
  - by rewrite Hw', Hl', Hw, Hl.
  - rewrite Hw', Hl', Hw, num_succ.
    apply Qcnot_lt_le in Hg.
    set (T := num 1000 / num (if bool_decide (config_frameRate k = 0%Z)
                              then 30%Z else config_frameRate k)) in *.
    replace ((num (Z.of_nat (length (written k))) + 1) * T)
      with (num (Z.of_nat (length (written k))) * T + T) by ring.
    replace (now t) with (lastFrameTime k + (now t - lastFrameTime k)) by ring.
    by apply Qcplus_le_compat.
Qed.

Lemma after_loop_paced k : paced k -> paced (after_loop k).
Proof.
  unfold paced, after_loop, targetFrameTime.
  destruct (screenFrame k) as [sv|]; simpl; destruct (webcamFrame k) as [wv|]; simpl; auto.
Qed.

Lemma composeLoop_paced ticks k : paced k -> paced (composeLoop ticks k).2.
Proof.
  revert k. induction ticks as [|t ticks IH]; intros k Hk; simpl.
  - destruct (isRunning k); simpl; [exact Hk|by apply after_loop_paced].
  - destruct (isRunning k); simpl; [|by apply after_loop_paced].
    pose proof (pass_paced t k Hk) as Hp.
    destruct (pass t k) as [[] k1]; simpl in *.
    + by apply IH.
    + by apply after_loop_paced.
    + exact Hp.
Qed.

Lemma pass_clock t k :
  config_frameRate (pass t k).2 = config_frameRate k /\
  ((written (pass t k).2 = written k /\ lastFrameTime (pass t k).2 = lastFrameTime k) \/
   lastFrameTime (pass t k).2 = now t).
Proof.
  unfold pass.
  set (k0 := if stop_message t then stop k else k).
  assert (H0 : config_frameRate k0 = config_frameRate k /\
               written k0 = written k /\ lastFrameTime k0 = lastFrameTime k)
    by (unfold k0; by destruct (stop_message t)).
  destruct H0 as (Hc & Hw & Hl).
  destruct (bool_decide (now t - lastFrameTime k0 < targetFrameTime k0));
    cbn [snd]; [auto|].
  destruct (read_frames_clock t k0) as [Hc' [[Hw' Hl']|[_ Hl']]];
    rewrite Hc', Hc, Hl'; [rewrite Hw'|]; auto.
Qed.

Lemma after_loop_clock k :
  config_frameRate (after_loop k) = config_frameRate k /\
  written (after_loop k) = written k /\
  lastFrameTime (after_loop k) = lastFrameTime k.
Proof.
  unfold after_loop.
  destruct (screenFrame k) as [sv|]; simpl; destruct (webcamFrame k) as [wv|]; auto.
Qed.

Lemma composeLoop_clock ticks k :
  config_frameRate (composeLoop ticks k).2 = config_frameRate k /\
  ((written (composeLoop ticks k).2 = written k /\
    lastFrameTime (composeLoop ticks k).2 = lastFrameTime k) \/
   exists t, t ∈ ticks /\ lastFrameTime (composeLoop ticks k).2 = now t).
Proof.
  revert k. induction ticks as [|t ticks IH]; intros k; simpl.
  - destruct (isRunning k); cbn [snd]; [auto|].
    destruct (after_loop_clock k) as (-> & -> & ->). auto.
  - destruct (isRunning k); cbn [snd];
      [|destruct (after_loop_clock k) as (-> & -> & ->); auto].
    destruct (pass_clock t k) as [Hc Hl].
    assert (Hnow : (written (pass t k).2 = written k /\
                    lastFrameTime (pass t k).2 = lastFrameTime k) \/
                   exists t', t' ∈ t :: ticks /\ lastFrameTime (pass t k).2 = now t').
    { destruct Hl as [Hl|Hl]; [by left|]. right. exists t. split; [|exact Hl].
      apply elem_of_cons. by left. }
    destruct (pass t k) as [[] k1]; cbn [fst snd] in *.
    + destruct (IH k1) as [Hc1 Hl1]. rewrite Hc1, Hc. split; [reflexivity|].
      destruct Hl1 as [[-> ->]|(t' & Hin & ->)]; [exact Hnow|].
      right. exists t'. split; [|reflexivity]. apply elem_of_cons. by right.
    + destruct (after_loop_clock k1) as (-> & -> & ->). auto.
    + auto.
Qed.

(** X15. The worker never writes faster than the configured frame
    rate: the frames written so far, spaced one frame time (1000 ms
    over the frame rate, 30 when none is configured) apart, fit before
    the clock reading at which the last frame was written; that
    reading is the clock of one of the passes, or still 0 with nothing
    written. *)
Theorem output_rate_capped ticks W H rate :
  let k := (composeLoop ticks (init W H rate)).2 in
  let frameTime := num 1000 / num (if bool_decide (rate = 0%Z) then 30%Z else rate) in
  targetFrameTime k = frameTime /\
  num (Z.of_nat (length (written k))) * frameTime ≤ lastFrameTime k /\
  ((written k = [] /\ lastFrameTime k = 0) \/
   exists t, t ∈ ticks /\ lastFrameTime k = now t).
Proof.
  intros k frameTime.
  destruct (composeLoop_clock ticks (init W H rate)) as [Hc Hl].
  assert (Ht : targetFrameTime k = frameTime).
  { unfold targetFrameTime, k. by rewrite Hc. }
  assert (Hp : paced k).
  { apply composeLoop_paced. unfold paced.
    change (written (init W H rate)) with (@nil (Z * list DrawCmd)).
    change (lastFrameTime (init W H rate)) with (Q2Qc 0).
    assert (Hz : num (Z.of_nat (length (@nil (Z * list DrawCmd)))) = 0)
      by (apply Qc_is_canon; reflexivity).
    rewrite Hz. replace (0 * targetFrameTime (init W H rate)) with 0 by ring. done. }
  unfold paced in Hp. rewrite Ht in Hp.
  split; [exact Ht|]. split; [exact Hp|].
  destruct Hl as [Hl|Hl]; [by left|by right].
Qed.

(** *** The inset in whole pixels *)

Lemma num_opp a : num (- a) = - num a.
Proof.
  apply Qc_is_canon. unfold num. simpl.
  rewrite !Qred_correct, inject_Z_opp. reflexivity.
Qed.

Lemma num_minus a b : num (a - b) = num a - num b.
Proof. unfold Z.sub, Qcminus. by rewrite num_plus, num_opp. Qed.

Lemma num_mult a b : num (a * b) = num a * num b.
Proof.
  apply Qc_is_canon. unfold num. simpl.
  rewrite !Qred_correct, inject_Z_mult. reflexivity.
Qed.

Lemma Math_floor_div a b : Math_floor (num a / num b) = num (a / b).
Proof.
  unfold Math_floor. f_equal. rewrite Zdiv_Qdiv. apply Qfloor_comp.
  unfold Qcdiv, Qcmult, Qcinv. simpl. rewrite !Qred_correct. reflexivity.
Qed.

Lemma fifth W : num W * Q2Qc (1 # 5) = num W / num 5.
Proof. apply Qc_is_canon. reflexivity. Qed.

Lemma Math_min_num a b : Math_min (num a) (num b) = num (Z.min a b).
Proof.
  unfold Math_min. destruct (decide (num a ≤ num b)) as [Hle|Hgt].
  - unfold Qcle in Hle. rewrite !num_this, <- Zle_Qle in Hle.
    by rewrite Z.min_l.
  - rewrite Z.min_r; [reflexivity|].
    destruct (Z.le_gt_cases b a) as [Hba|Hab]; [exact Hba|].
    exfalso. apply Hgt, num_le. lia.
Qed.

(** X16. The inset of the accelerated compositor in whole pixels.  For
    a webcam frame of positive width, [composeLoop] draws: black over
    the canvas, the screen frame over the whole canvas, and the webcam
    frame mirrored in a box [min(200, W div 5)] wide and that width
    times the frame's height, divided (rounding down) by its width,
    high, whose right and bottom edges are 20 pixels from the canvas's,
    with a white border of width 2 on the box. *)
Theorem inset_in_whole_pixels W H sf wf :
  (0 < displayWidth wf)%Z ->
  let pipW := Z.min 200 (W / 5) in
  let pipH := (pipW * displayHeight wf / displayWidth wf)%Z in
  compose W H sf wf =
  [fillStyle "#000"; fillRect 0 0 (num W) (num H);
   drawImage Primary 0 0 (num W) (num H);
   save; scale (- 1) 1;
   drawImage Secondary (num (- (W - 20))) (num (H - 20 - pipH)) (num pipW) (num pipH);
   restore;
   strokeStyle "#fff"; lineWidth 2;
   strokeRect (num (W - 20 - pipW)) (num (H - 20 - pipH)) (num pipW) (num pipH)].
Proof.
  intros Hdw pipW pipH. unfold compose.
  rewrite fifth, Math_floor_div, Math_min_num. fold pipW.
  rewrite <- num_mult, Math_floor_div. fold pipH.
  rewrite !num_minus, num_opp, !num_minus.
  replace (- (num W - num pipW - num 20) - num pipW) with (- (num W - num 20)) by ring.
  replace (num H - num pipH - num 20) with (num H - num 20 - num pipH) by ring.
  replace (num W - num pipW - num 20) with (num W - num 20 - num pipW) by ring.
  reflexivity.
Qed.

End CompositorCoverage.

(** ** The application controller *)

Module AppFacts.

Import App.

Implicit Types (s : @State App) (a : App).

(** *** The size the page shows and the size of the artifact *)

(** The bytes of a run of chunks. *)
Lemma count_chunks_run (bs : list Blob) a n :
  totalBytes (performanceMetrics a) = Finite n ->
  let a' := foldl (fun a b => count_chunk (DBlob b) a) a bs in
  chunkCount (performanceMetrics a') = chunkCount (performanceMetrics a) + length bs /\
  totalBytes (performanceMetrics a') = Finite (n + sum_list (map blob_size bs)) /\
  (bs <> [] -> fileSize (appState a') = Finite (n + sum_list (map blob_size bs))).
Proof.
  revert a n. induction bs as [|b bs IH]; intros a n Hn; simpl.
  - rewrite !Nat.add_0_r. split; [reflexivity|]. split; [exact Hn|]. by intros [].
  - destruct (IH (count_chunk (DBlob b) a) (n + blob_size b)) as (Hc & Ht & Hf).
    { simpl. by rewrite Hn. }
    simpl in Hc. rewrite Hc, Ht. split; [lia|]. split; [f_equal; lia|].
    intros _. destruct bs as [|b' bs].
    + simpl. rewrite Hn. simpl. f_equal. lia.
    + rewrite Hf by done. f_equal. lia.
Qed.

Lemma arrivals_counted (payloads : list (option Blob)) s :
  eventListeners (this s) !! "dataavailable" = Some [on_dataavailable] ->
  app (host (forEach payloads ondataavailable s).2) =
    foldl (fun a b => count_chunk (DBlob b) a) (app (host s)) (recorded payloads).
Proof.
  revert s. induction payloads as [|p ps IH]; intros s Hl; [reflexivity|].
  simpl. unfold mbind, M_bind. rewrite ondataavailable_run.
  destruct p as [data|]; simpl; [|by apply IH].
  unfold recorded. simpl. rewrite filter_cons.
  destruct (bool_decide (0 < blob_size data)) eqn:E.
  - apply bool_decide_eq_true in E. rewrite decide_True by done.
    rewrite IH by exact Hl. simpl. unfold after_emit. simpl. rewrite Hl. reflexivity.
  - apply bool_decide_eq_false in E. rewrite decide_False by done. by apply IH.
Qed.

Lemma sum_sizes (l : list Blob) :
  length (concat (map blob_bytes l)) = sum_list (map blob_size l).
Proof.
  induction l as [|b l IH]; [reflexivity|].
  simpl. rewrite length_app, IH. reflexivity.
Qed.

Lemma sum_list_drop n (l : list nat) : sum_list (drop n l) <= sum_list l.
Proof.
  revert n. induction l as [|x l IH]; intros [|n]; simpl; try lia.
  specialize (IH n). lia.
Qed.

(** X17. The file size on the page counts every chunk, the artifact
    only those still queued.  With the listeners that
    [setupPerformanceMonitoring] registers, the counters at zero and
    the queue empty, after any run of flushes [chunkCount] is the
    number of non-empty payloads and [totalBytes], which is also the
    file size shown, the sum of their sizes; the [totalSize] that
    [getState()] reports, the size of the artifact to come, is at most
    that, and equal to it as long as no chunk was evicted. *)
Theorem fileSize_counts_every_chunk s (payloads : list (option Blob)) :
  eventListeners (this s) !! "dataavailable" = None ->
  chunkCount (performanceMetrics (app (host s))) = 0 ->
  totalBytes (performanceMetrics (app (host s))) = Finite 0 ->
  fileSize (appState (app (host s))) = Finite 0 ->
  chunks (this s) = [] ->
  1 <= maxChunks (this s) ->
  exists s1 s2,
    setupPerformanceMonitoring s = (Normal tt, s1) /\
    forEach payloads ondataavailable s1 = (Normal tt, s2) /\
    chunkCount (performanceMetrics (app (host s2))) = length (recorded payloads) /\
    totalBytes (performanceMetrics (app (host s2))) =
      Finite (sum_list (map blob_size (recorded payloads))) /\
    fileSize (appState (app (host s2))) =
      Finite (sum_list (map blob_size (recorded payloads))) /\
    totalSize (getState (this s2)) <= sum_list (map blob_size (recorded payloads)) /\
    (length (recorded payloads) <= maxChunks (this s) ->
     totalSize (getState (this s2)) = sum_list (map blob_size (recorded payloads))).
Proof.
  intros Hnone Hc0 Ht0 Hf0 Hch Hmax.
  assert (Hsetup : exists s1,
    setupPerformanceMonitoring s = (Normal tt, s1) /\
    eventListeners (this s1) !! "dataavailable" = Some [on_dataavailable] /\
    chunks (this s1) = chunks (this s) /\ maxChunks (this s1) = maxChunks (this s) /\
    host s1 = host s).
  { unfold setupPerformanceMonitoring. unfold mbind, M_bind. rewrite !on_run.
    eexists. split; [reflexivity|]. simpl.
    rewrite lookup_insert_ne by done. rewrite lookup_insert_eq, Hnone. auto. }
  destruct Hsetup as (s1 & Hs1 & Hl & Hch1 & Hmx1 & Hh1).
  destruct (arrivals_run payloads s1) as (s2 & Hrun & _ & Hq).
  pose proof (arrivals_counted payloads s1 Hl) as Happ.
  rewrite Hrun in Happ. simpl in Happ. rewrite Hh1 in Happ.
  rewrite Hch1, Hch, Hmx1 in Hq. rewrite queue_is_lastn in Hq by (simpl; lia).
  simpl in Hq.
  destruct (count_chunks_run (recorded payloads) (app (host s)) 0 Ht0) as (Hc & Ht & Hf).
  rewrite <- Happ in Hc, Ht, Hf. simpl in Ht, Hf. rewrite Hc0 in Hc. simpl in Hc.
  exists s1, s2. split; [exact Hs1|]. split; [exact Hrun|]. split; [exact Hc|].
  split; [exact Ht|]. split.
  - destruct (recorded payloads) as [|b bs] eqn:Er; [|by apply Hf].
    rewrite Happ. simpl. exact Hf0.
  - unfold getState. simpl. rewrite totalSize_from, sum_sizes, Hq. simpl.
    unfold lastn. rewrite <- skipn_map. split.
    + apply sum_list_drop.
    + intros Hle. replace (length (recorded payloads) - maxChunks (this s)) with 0 by lia.
      reflexivity.
Qed.

(** *** Errors of the recorder, as the page takes them *)

Ltac page_lookup :=
  repeat (rewrite lookup_insert_ne by discriminate); rewrite lookup_insert_eq.

(** Reduction of the controller's record updates, the page's map
    left alone. *)
Ltac page_fields :=
  cbn [appState elements animationFrame micAnalyzer performanceMetrics pendingBlob
       hideTimers cancelledFrames closedAnalyzers stoppedMicTracks
       set_appState set_elements set_animationFrame set_micAnalyzer
       set_performanceMetrics set_pendingBlob set_hideTimers write
       st_mode quality st_bitrate micEnabled systemAudioEnabled st_isRecording
       isPaused devices selectedDevice startTime duration fileSize droppedFrames
       set_isPaused set_duration set_fileSize
       negb orb andb foldl String.append].

(** What [updateUI] writes for a page that is not recording, and
    what it leaves alone. *)
Lemma updateUI_idle webcam a :
  st_isRecording (appState a) = false ->
  let a' := updateUI webcam a in
  a' = updateUI false a /\
  appState a' = appState a /\ animationFrame a' = animationFrame a /\
  micAnalyzer a' = micAnalyzer a /\ pendingBlob a' = pendingBlob a /\
  elements a' !! "statusText.textContent" = Some (VString "Ready") /\
  elements a' !! "startBtn.disabled" = Some (VBool false) /\
  elements a' !! "stopBtn.disabled" = Some (VBool true) /\
  elements a' !! "pauseBtn.disabled" = Some (VBool true) /\
  (forall key,
     key ∈ ["previewVideo.srcObject"; "errorText.textContent";
            "errorMessage.style.display"; "saveDialog.style.display";
            "filenameInput.value"] ->
     elements a' !! key = elements a !! key).
Proof.
  intros Hrec. unfold updateUI. cbv zeta. rewrite Hrec. page_fields.
  split; [reflexivity|]. split; [reflexivity|]. split; [reflexivity|].
  split; [reflexivity|]. split; [reflexivity|].
  split; [by page_lookup|]. split; [by page_lookup|].
  split; [by page_lookup|]. split; [by page_lookup|].
  intros key Hkey. rewrite !elem_of_cons in Hkey.
  destruct Hkey as [->|[->|[->|[->|[->|Hkey]]]]];
    [| | | | |by apply elem_of_nil in Hkey];
    by repeat (rewrite lookup_insert_ne by discriminate).
Qed.

Lemma resetRecording_page webcam a :
  let a' := resetRecording webcam a in
  a' = resetRecording false a /\
  st_isRecording (appState a') = false /\ isPaused (appState a') = false /\
  startTime (appState a') = None /\ duration (appState a') = 0%Z /\
  fileSize (appState a') = Finite 0 /\
  animationFrame a' = None /\ micAnalyzer a' = None /\
  pendingBlob a' = pendingBlob a /\
  elements a' !! "statusText.textContent" = Some (VString "Ready") /\
  elements a' !! "startBtn.disabled" = Some (VBool false) /\
  elements a' !! "stopBtn.disabled" = Some (VBool true) /\
  elements a' !! "pauseBtn.disabled" = Some (VBool true) /\
  elements a' !! "previewVideo.srcObject" = Some (VStream None) /\
  (forall key,
     key ∈ ["errorText.textContent"; "errorMessage.style.display";
            "saveDialog.style.display"; "filenameInput.value"] ->
     elements a' !! key = elements a !! key).
Proof.
  unfold resetRecording. cbv zeta.
  match goal with |- context [updateUI webcam ?x] => set (pre := x) end.
  assert (Hpre :
    st_isRecording (appState pre) = false /\ isPaused (appState pre) = false /\
    startTime (appState pre) = None /\ duration (appState pre) = 0%Z /\
    fileSize (appState pre) = Finite 0 /\
    animationFrame pre = None /\ micAnalyzer pre = None /\
    pendingBlob pre = pendingBlob a /\
    elements pre !! "previewVideo.srcObject" = Some (VStream None) /\
    (forall key,
       key ∈ ["errorText.textContent"; "errorMessage.style.display";
              "saveDialog.style.display"; "filenameInput.value"] ->
       elements pre !! key = elements a !! key)).
  { unfold pre. page_fields. destruct (animationFrame a) as [id|] eqn:Ea; page_fields;
      destruct (micAnalyzer a) as [[ctx st]|] eqn:Em; page_fields;
      rewrite ?Ea, ?Em;
      (split; [reflexivity|]); (split; [reflexivity|]); (split; [reflexivity|]);
      (split; [reflexivity|]); (split; [reflexivity|]); (split; [reflexivity|]);
      (split; [reflexivity|]); (split; [reflexivity|]);
      (split; [by page_lookup|]);
      intros key Hkey; rewrite !elem_of_cons in Hkey;
      (destruct Hkey as [->|[->|[->|[->|Hkey]]]];
       [| | | |by apply elem_of_nil in Hkey]);
      by repeat (rewrite lookup_insert_ne by discriminate). }
  clearbody pre.
  destruct Hpre as (H1 & H2 & H3 & H4 & H5 & H6 & H7 & H8 & H9 & H10).
  destruct (updateUI_idle webcam pre H1)
    as (U0 & U1 & U2 & U3 & U4 & U5 & U6 & U7 & U8 & U9).
  cbv zeta in *. rewrite U1, U2, U3, U4.
  split; [exact U0|]. split; [exact H1|]. split; [exact H2|]. split; [exact H3|].
  split; [exact H4|]. split; [exact H5|]. split; [exact H6|]. split; [exact H7|].
  split; [exact H8|]. split; [exact U5|]. split; [exact U6|]. split; [exact U7|].
  split; [exact U8|]. split.
  - rewrite U9; [exact H9|]. apply elem_of_cons. by left.
  - intros key Hkey. rewrite U9; [by apply H10|]. apply elem_of_cons. by right.
Qed.

(** X18. When the screen share ends or the encoder fails, the page
    goes back to "Ready" while the recorder goes on.  With the [error]
    listener of [setupPerformanceMonitoring], either event shows its
    message in the error box and resets the page: not recording, not
    paused, Start enabled, Stop and Pause disabled, preview cleared.
    The recorder is not told: its encoder, queue, streams and
    [isRecording] are what they were, and every track that was live
    still is. *)
Theorem error_resets_page_not_recorder s trigger msg :
  eventListeners (this s) !! "error" = Some [on_error] ->
  (trigger = screen_ended /\ msg = "Screen sharing was stopped") \/
  (exists m, trigger = onerror m /\
     msg = "Recording error: " +:+
           match m with
           | Some m => if String.eqb m "" then "Unknown error" else m
           | None => "Unknown error"
           end) ->
  exists s',
    trigger s = (Normal tt, s') /\
    this s' = this s /\ live (host s') = live (host s) /\
    let page := app (host s') in
    elements page !! "errorText.textContent" = Some (VString msg) /\
    elements page !! "errorMessage.style.display" = Some (VString "block") /\
    st_isRecording (appState page) = false /\ isPaused (appState page) = false /\
    elements page !! "statusText.textContent" = Some (VString "Ready") /\
    elements page !! "startBtn.disabled" = Some (VBool false) /\
    elements page !! "stopBtn.disabled" = Some (VBool true) /\
    elements page !! "pauseBtn.disabled" = Some (VBool true) /\
    elements page !! "previewVideo.srcObject" = Some (VStream None).
Proof.
  intros Hl Htr.
  assert (Hrun : trigger s = (Normal tt, after_emit "error" (DError {| message := msg |}) s)).
  { destruct Htr as [[-> ->]|(m & -> & ->)]; apply emit_run. }
  eexists. split; [exact Hrun|]. split; [reflexivity|]. split; [reflexivity|].
  assert (Hpage : app (host (after_emit "error" (DError {| message := msg |}) s)) =
                  resetRecording false (showError msg (app (host s)))).
  { unfold after_emit. rewrite Hl. reflexivity. }
  cbv zeta. rewrite Hpage.
  destruct (resetRecording_page false (showError msg (app (host s))))
    as (_ & H1 & H2 & _ & _ & _ & _ & _ & _ & H3 & H4 & H5 & H6 & H7 & H8).
  cbv zeta in *.
  rewrite (H8 "errorText.textContent"), (H8 "errorMessage.style.display")
    by (rewrite !elem_of_cons; auto).
  unfold showError. page_fields.
  split; [by page_lookup|]. split; [by page_lookup|]. auto 10.
Qed.


(** *** Stopping from the page *)

Lemma stop_resolves s final :
  exists res s1,
    stop final s = (Normal res, s1) /\
    (mediaRecorder (this s) = None -> res = None) /\
    (forall mr, mediaRecorder (this s) = Some mr ->
       res = Some (new_Blob
         (if is_active (state mr) then chunks (this (ondataavailable final s).2)
          else chunks (this s))
         (if String.eqb (mimeType mr) "" then "video/webm" else mimeType mr))).
Proof.
  destruct (mediaRecorder (this s)) as [mr|] eqn:Emr.
  - destruct (stop_run s mr final Emr) as (s1 & Hrun & _).
    eexists _, s1. split; [exact Hrun|]. split; [discriminate|].
    by intros mr' [= <-].
  - exists None, s. split; [|split; [done|discriminate]].
    unfold stop, mbind, M_bind, get_this. by rewrite Emr.
Qed.

Lemma stopRecording_run s final iso res s1 :
  stop final s = (Normal res, s1) ->
  exists s',
    stopRecording final iso s = (Normal tt, s') /\ this s' = this s1 /\
    app (host s') =
      let reset :=
        resetRecording (bool_decide (is_Some (webcam (streams (this s1)))))
          (app (host s1)) in
      match res with
      | Some b =>
          if bool_decide (0 < blob_size b) then showSaveDialog b iso reset
          else showError "Recording failed - no data captured" reset
      | None => showError "Recording failed - no data captured" reset
      end.
Proof.
  intros Hstop. unfold stopRecording, tryCatch.
  unfold mbind at 1, M_bind at 1. rewrite Hstop.
  unfold has_webcam, modify_app, mbind, M_bind, get_this, modify_host, mret, M_ret.
  cbv zeta. cbn [this host app set_invoked].
  destruct res as [b|]; [destruct (bool_decide (0 < blob_size b))|];
    cbn [this host app set_invoked];
    (eexists; split; [reflexivity|]; split; reflexivity).
Qed.

(** X19. [stopRecording()] never fails, and there is always either a
    save dialog or a message.  Whatever [stop()] resolves with, the
    page is reset; a blob of positive size opens the save dialog
    under the name "recordly-", the time of day with dashes, ".webm",
    and is kept as the pending blob; an empty blob or none shows
    "Recording failed - no data captured" in the error box instead.
    The latter is what happens when nothing was queued and the final
    flush brings nothing. *)
Theorem stopRecording_saves_or_reports s final iso :
  exists res s1 s',
    stop final s = (Normal res, s1) /\
    stopRecording final iso s = (Normal tt, s') /\
    this s' = this s1 /\
    st_isRecording (appState (app (host s'))) = false /\
    (forall blob, res = Some blob -> 0 < blob_size blob ->
       pendingBlob (app (host s')) = Some blob /\
       elements (app (host s')) !! "saveDialog.style.display" = Some (VString "flex") /\
       elements (app (host s')) !! "filenameInput.value" =
         Some (VString ("recordly-" +:+
                        String.substring 0 (String.length (dashed iso) - 5) (dashed iso) +:+
                        ".webm")) /\
       elements (app (host s')) !! "errorText.textContent" =
         elements (app (host s1)) !! "errorText.textContent") /\
    ((res = None \/ exists blob, res = Some blob /\ blob_size blob = 0) ->
       pendingBlob (app (host s')) = pendingBlob (app (host s1)) /\
       elements (app (host s')) !! "saveDialog.style.display" =
         elements (app (host s1)) !! "saveDialog.style.display" /\
       elements (app (host s')) !! "errorText.textContent" =
         Some (VString "Recording failed - no data captured") /\
       elements (app (host s')) !! "errorMessage.style.display" =
         Some (VString "block")) /\
    (chunks (this s) = [] -> recorded [final] = [] ->
       res = None \/ exists blob, res = Some blob /\ blob_size blob = 0).
Proof.
  destruct (stop_resolves s final) as (res & s1 & Hstop & Hnone & Hsome).
  exists res, s1.
  destruct (stopRecording_run s final iso res s1 Hstop) as (s' & Hrun & Hthis & Happ).
  destruct (resetRecording_page (bool_decide (is_Some (webcam (streams (this s1)))))
              (app (host s1)))
    as (_ & H1 & _ & _ & _ & _ & _ & _ & Hpb & _ & _ & _ & _ & _ & Hkeep).
  cbv zeta in *.
  pose proof (Hkeep "errorText.textContent") as Het.
  pose proof (Hkeep "saveDialog.style.display") as Hsd.
  rewrite !elem_of_cons in Het, Hsd. specialize (Het ltac:(auto)).
  specialize (Hsd ltac:(auto)). clear Hkeep.
  revert Happ H1 Hpb Het Hsd.
  generalize (resetRecording (bool_decide (is_Some (webcam (streams (this s1)))))
                (app (host s1))).
  intros reset Happ H1 Hpb Het Hsd.
  exists s'. split; [exact Hstop|]. split; [exact Hrun|]. split; [exact Hthis|].
  rewrite Happ. split; [|split; [|split]].
  - destruct res as [b|]; [destruct (bool_decide (0 < blob_size b))|];
      unfold showSaveDialog, showError; page_fields; exact H1.
  - intros blob -> Hpos. rewrite bool_decide_eq_true_2 by exact Hpos.
    unfold showSaveDialog. cbv zeta. page_fields. split; [reflexivity|].
    split; [by page_lookup|]. split; [by page_lookup|].
    repeat (rewrite lookup_insert_ne by discriminate). exact Het.
  - intros Hempty.
    assert (Hshow : match res with
                    | Some b =>
                        if bool_decide (0 < blob_size b) then showSaveDialog b iso reset
                        else showError "Recording failed - no data captured" reset
                    | None => showError "Recording failed - no data captured" reset
                    end = showError "Recording failed - no data captured" reset).
    { destruct Hempty as [->|(b & -> & Hz)]; [reflexivity|].
      rewrite bool_decide_eq_false_2 by lia. reflexivity. }
    rewrite Hshow. unfold showError. cbv zeta. page_fields. split; [exact Hpb|].
    split; [repeat (rewrite lookup_insert_ne by discriminate); exact Hsd|].
    split; by page_lookup.
  - intros Hch Hfin. destruct (mediaRecorder (this s)) as [mr|] eqn:Emr.
    + right. eexists. split; [by apply Hsome|].
      rewrite (recorded_nothing final s Hfin). simpl. rewrite Hch.
      by destruct (is_active (state mr)).
    + left. by apply Hnone.
Qed.

(** *** The duration on the page *)

Lemma updateUI_frame webcam a :
  appState (updateUI webcam a) = appState a /\
  animationFrame (updateUI webcam a) = animationFrame a /\
  cancelledFrames (updateUI webcam a) = cancelledFrames a /\
  elements (updateUI webcam a) !! "statusText.textContent" =
    Some (VString (if st_isRecording (appState a)
                   then if isPaused (appState a) then "Paused" else "Recording"
                   else "Ready")) /\
  elements (updateUI webcam a) !! "durationDisplay.textContent" =
    elements a !! "durationDisplay.textContent".
Proof.
  unfold updateUI. cbv zeta.
  destruct (st_isRecording (appState a)); page_fields;
    (split; [reflexivity|]); (split; [reflexivity|]); (split; [reflexivity|]);
    (split; [by page_lookup|]);
    by repeat (rewrite lookup_insert_ne by discriminate).
Qed.

Lemma pauseRecording_run s :
  exists s',
    pauseRecording s = (Normal tt, s') /\ this s' = this (pause s).2 /\
    app (host s') =
      updateUI (bool_decide (is_Some (webcam (streams (this s)))))
        (set_appState (set_isPaused true (appState (app (host s)))) (app (host s))).
Proof.
  unfold pauseRecording, tryCatch. unfold mbind at 1, M_bind at 1.
  pose proof (pause_run s) as Hp.
  assert (Hframe : host (pause s).2 = host s /\
                   streams (this (pause s).2) = streams (this s)).
  { rewrite Hp. cbn [snd]. destruct (mediaRecorder (this s)) as [mr|]; [|done].
    by destruct (state mr). }
  destruct (pause s) as [c s1]. injection Hp as -> _. cbn [snd] in Hframe.
  destruct Hframe as [Hh Hs].
  unfold has_webcam, modify_app, mbind, M_bind, get_this, modify_host, mret, M_ret.
  cbn [this host app set_invoked]. rewrite Hh, Hs.
  eexists. split; [reflexivity|]. split; reflexivity.
Qed.

Lemma resumeRecording_run s :
  exists s',
    resumeRecording s = (Normal tt, s') /\ this s' = this (resume s).2 /\
    app (host s') =
      updateUI (bool_decide (is_Some (webcam (streams (this s)))))
        (set_appState (set_isPaused false (appState (app (host s)))) (app (host s))).
Proof.
  unfold resumeRecording, tryCatch. unfold mbind at 1, M_bind at 1.
  pose proof (resume_run s) as Hp.
  assert (Hframe : host (resume s).2 = host s /\
                   streams (this (resume s).2) = streams (this s)).
  { rewrite Hp. cbn [snd]. destruct (mediaRecorder (this s)) as [mr|]; [|done].
    by destruct (state mr). }
  destruct (resume s) as [c s1]. injection Hp as -> _. cbn [snd] in Hframe.
  destruct Hframe as [Hh Hs].
  unfold has_webcam, modify_app, mbind, M_bind, get_this, modify_host, mret, M_ret.
  cbn [this host app set_invoked]. rewrite Hh, Hs.
  eexists. split; [reflexivity|]. split; reflexivity.
Qed.

(** What one [update] of the loop shows. *)
Lemma update_recording now frame a :
  st_isRecording (appState a) = true ->
  let d := if isPaused (appState a) then duration (appState a)
           else (now - default 0 (startTime (appState a)))%Z in
  duration (appState (update now frame a)) = d /\
  st_isRecording (appState (update now frame a)) = true /\
  isPaused (appState (update now frame a)) = isPaused (appState a) /\
  startTime (appState (update now frame a)) = startTime (appState a) /\
  elements (update now frame a) !! "durationDisplay.textContent" =
    Some (VString (padStart2 (d / 60000) +:+ ":" +:+
                   padStart2 (Z.rem d 60000 / 1000))).
Proof.
  intros Hrec. unfold update, updateLiveStats. cbv zeta. rewrite Hrec.
  destruct (isPaused (appState a)) eqn:Hp; page_fields; rewrite ?Hrec, ?Hp;
    (split; [reflexivity|]); (split; [reflexivity|]); (split; [reflexivity|]);
    (split; [reflexivity|]); by page_lookup.
Qed.

Lemma modify_app_run f s :
  exists s', modify_app f s = (Normal tt, s') /\ this s' = this s /\
             app (host s') = f (app (host s)).
Proof. eexists. split; [reflexivity|]. split; reflexivity. Qed.

(** X20. The duration on the page is the time since the start, pauses
    included.  While the page is paused the update loop leaves the
    duration where it was; after [resumeRecording()] the next update
    sets it to the clock minus the start time, so the time spent
    paused, during which the encoder recorded nothing, is counted.
    The text shown is minutes and seconds of that duration, two
    digits each. *)
Theorem paused_time_is_counted s mr t0 t1 t2 t3 f1 f2 f3 :
  mediaRecorder (this s) = Some mr ->
  state mr = recording ->
  st_isRecording (appState (app (host s))) = true ->
  isPaused (appState (app (host s))) = false ->
  startTime (appState (app (host s))) = Some t0 ->
  exists s2 s3,
    (modify_app (update t1 f1) ;; pauseRecording ;; modify_app (update t2 f2)) s
      = (Normal tt, s2) /\
    gs_state (getState (this s2)) = paused /\
    duration (appState (app (host s2))) = (t1 - t0)%Z /\
    (resumeRecording ;; modify_app (update t3 f3)) s2 = (Normal tt, s3) /\
    this s3 = this s /\
    duration (appState (app (host s3))) = (t3 - t0)%Z /\
    elements (app (host s3)) !! "durationDisplay.textContent" =
      Some (VString (padStart2 ((t3 - t0) / 60000) +:+ ":" +:+
                     padStart2 (Z.rem (t3 - t0) 60000 / 1000))).
Proof.
  intros Hmr Hst Hrec Hpa Ht0.
  (* the first update *)
  destruct (modify_app_run (update t1 f1) s) as (sa & Ra & Tha & Apa).
  destruct (update_recording t1 f1 (app (host s)) Hrec) as (Da & Reca & Paa & Sta & _).
  cbv zeta in *. rewrite Hpa in Da, Paa. rewrite Ht0 in Da, Sta. cbn [default] in Da.
  rewrite <- Apa in Da, Reca, Paa, Sta.
  (* the pause *)
  destruct (pauseRecording_run sa) as (sb & Rb & Thb & Apb).
  destruct (updateUI_frame (bool_decide (is_Some (webcam (streams (this sa)))))
              (set_appState (set_isPaused true (appState (app (host sa)))) (app (host sa))))
    as (Ub & _). rewrite <- Apb in Ub.
  assert (Hb : st_isRecording (appState (app (host sb))) = true /\
               isPaused (appState (app (host sb))) = true /\
               startTime (appState (app (host sb))) = Some t0 /\
               duration (appState (app (host sb))) = (t1 - t0)%Z).
  { rewrite Ub. cbn [appState set_appState set_isPaused st_isRecording isPaused
                     startTime duration]. auto. }
  destruct Hb as (Recb & Pab & Stb & Db).
  (* the update while paused *)
  destruct (modify_app_run (update t2 f2) sb) as (sc & Rc & Thc & Apc).
  destruct (update_recording t2 f2 (app (host sb)) Recb) as (Dc & Recc & Pac & Stc & _).
  cbv zeta in *. rewrite Pab in Dc, Pac. rewrite <- Apc in Dc, Recc, Pac, Stc.
  (* the resume *)
  destruct (resumeRecording_run sc) as (sd & Rd & Thd & Apd).
  destruct (updateUI_frame (bool_decide (is_Some (webcam (streams (this sc)))))
              (set_appState (set_isPaused false (appState (app (host sc)))) (app (host sc))))
    as (Ud & _). rewrite <- Apd in Ud.
  assert (Hd : st_isRecording (appState (app (host sd))) = true /\
               isPaused (appState (app (host sd))) = false /\
               startTime (appState (app (host sd))) = Some t0).
  { rewrite Ud. cbn [appState set_appState set_isPaused st_isRecording isPaused
                     startTime duration]. rewrite Stc, Stb. auto. }
  destruct Hd as (Recd & Pad & Std).
  (* the update after it *)
  destruct (modify_app_run (update t3 f3) sd) as (se & Re & The & Ape).
  destruct (update_recording t3 f3 (app (host sd)) Recd) as (De & _ & _ & _ & Texte).
  cbv zeta in *. rewrite Pad, Std in De, Texte. cbn [default] in De, Texte.
  rewrite <- Ape in De, Texte.
  (* the recorder *)
  assert (Hpaused : this sb =
            set_mediaRecorder (Some (mr_with_state paused mr)) (this s)).
  { rewrite Thb, pause_run, Tha, Hmr, Hst. reflexivity. }
  assert (Hback : this sd = this s).
  { rewrite Thd, resume_run, Thc, Hpaused. cbn [mediaRecorder set_mediaRecorder].
    cbn [state mr_with_state this]. destruct s as [r h]. destruct r. simpl in *.
    subst. destruct mr. simpl in *. subst. reflexivity. }
  exists sc, se. split; [|split; [|split; [|split; [|split; [|split]]]]].
  - unfold mbind, M_bind. rewrite Ra, Rb. exact Rc.
  - rewrite Thc, Hpaused. reflexivity.
  - rewrite Dc. exact Db.
  - unfold mbind, M_bind. rewrite Rd. exact Re.
  - rewrite The. exact Hback.
  - exact De.
  - exact Texte.
Qed.

End AppFacts.

(** ** The further properties on the sample sessions *)

Module ScenarioFacts.

Import Sample Scenario.

End ScenarioFacts.
